(** * Event-booking data layer: field normalisation and validation

    A shallow embedding of [src/database/booking.model.ts], which holds the
    three modules of the data layer one after the other: the Booking schema
    with its [validateBooking] pre-save hook, the Event schema with
    [toSlug], [normalizeDate], [normalizeTime] and the [handleNormalize]
    pre-save hook, and the cached [connectToDatabase] helper.

    Conventions of the embedding.

    - A JavaScript string is a [string]: a sequence of code units, each an
      [ascii] read as the code unit of the same number (U+0000 to U+00FF,
      the Latin-1 range).  On that range [toLowerCase], [trim] and the
      regular-expression classes [\s] and [\d] are modelled exactly as
      ECMAScript defines them.
    - A regular expression of the source is a value of [RegExp.regex], run
      by a backtracking matcher that is proved to find exactly the matches
      of the declarative reading [Matches].
    - [throw new Error(msg)] is the result [Throw msg]; a normal return is
      [Ok v].  The messages are the texts of the source, full stop
      included.
    - A value whose run-time type the code tests with [typeof] is a
      [value].
    - What the host supplies is a parameter: the engine's date parser
      outside the forms ECMAScript fixes, the driver's
      [Types.ObjectId.isValid], the answers of [Event.exists], the type of
      the connected [mongoose] instance.
    - An [async] function runs to its first suspension point; what it
      awaits is named in its outcome.

    The file has the embedding first, then the functions and predicates
    that put the specification's words into Rocq together with the sample
    inputs, then the lemmas and the theorems, component by component. *)

From Stdlib Require Import Bool Arith NArith ZArith List Ascii String Lia.
Import ListNotations.

Local Open Scope string_scope.
Local Open Scope list_scope.

(** ** Results of code that may throw *)

Inductive result (A : Type) : Type :=
| Ok (a : A)
| Throw (msg : string).
Arguments Ok {A} a.
Arguments Throw {A} msg.

Definition bind {A B : Type} (r : result A) (k : A -> result B) : result B :=
  match r with
  | Ok a => k a
  | Throw msg => Throw msg
  end.

Notation "x <- r ;; k" := (bind r (fun x => k))
  (at level 61, r at next level, right associativity).

(** ** JavaScript values seen through [typeof] *)

Inductive value : Type :=
| VUndefined
| VNull
| VBool (b : bool)
| VNumber (z : Z)
| VString (s : string).

Definition typeof (v : value) : string :=
  match v with
  | VUndefined => "undefined"
  | VNull => "object"
  | VBool _ => "boolean"
  | VNumber _ => "number"
  | VString _ => "string"
  end.

Definition isString (v : value) : bool :=
  match v with
  | VString _ => true
  | _ => false
  end.

(** ** Code units and the character classes the source uses *)

Definition code (c : ascii) : N := N_of_ascii c.

Definition in_range (lo hi : N) (c : ascii) : bool :=
  ((lo <=? code c) && (code c <=? hi))%N.

(** ECMAScript WhiteSpace and LineTerminator below U+0100: TAB, LF, VT, FF,
    CR, SPACE and NO-BREAK SPACE.  Both [String.prototype.trim] and the
    class [\s] use exactly this set. *)
Definition isWhiteSpace (c : ascii) : bool :=
  in_range 9 13 c || (code c =? 32)%N || (code c =? 160)%N.

(** [\d] *)
Definition isDigit (c : ascii) : bool := in_range 48 57 c.

(** [a-z] *)
Definition isLowerAZ (c : ascii) : bool := in_range 97 122 c.

Definition isChar (x c : ascii) : bool := Ascii.eqb c x.

(** The code units with a lower-case mapping below U+0100: A-Z and the
    Latin-1 capitals U+00C0-U+00DE without the multiplication sign U+00D7;
    each maps to the code unit 32 above it. *)
Definition isUpper (c : ascii) : bool :=
  in_range 65 90 c || in_range 192 214 c || in_range 216 222 c.

Definition toLowerChar (c : ascii) : ascii :=
  if isUpper c then ascii_of_N (code c + 32) else c.

(** ** String primitives *)

Fixpoint smap (f : ascii -> ascii) (s : string) : string :=
  match s with
  | EmptyString => EmptyString
  | String c s' => String (f c) (smap f s')
  end.

Fixpoint sfilter (p : ascii -> bool) (s : string) : string :=
  match s with
  | EmptyString => EmptyString
  | String c s' => if p c then String c (sfilter p s') else sfilter p s'
  end.

Fixpoint sforall (p : ascii -> bool) (s : string) : bool :=
  match s with
  | EmptyString => true
  | String c s' => p c && sforall p s'
  end.

Fixpoint takeWhile (p : ascii -> bool) (s : string) : string :=
  match s with
  | EmptyString => EmptyString
  | String c s' => if p c then String c (takeWhile p s') else EmptyString
  end.

Fixpoint dropWhile (p : ascii -> bool) (s : string) : string :=
  match s with
  | EmptyString => EmptyString
  | String c s' => if p c then dropWhile p s' else s
  end.

Definition isEmpty (s : string) : bool :=
  match s with
  | EmptyString => true
  | String _ _ => false
  end.

(** [String.prototype.toLowerCase] *)
Definition toLowerCase (s : string) : string := smap toLowerChar s.

Definition trimStart (s : string) : string := dropWhile isWhiteSpace s.

Fixpoint trimEnd (s : string) : string :=
  match s with
  | EmptyString => EmptyString
  | String c s' =>
      match trimEnd s' with
      | EmptyString => if isWhiteSpace c then EmptyString else String c EmptyString
      | r => String c r
      end
  end.

(** [String.prototype.trim] *)
Definition trim (s : string) : string := trimEnd (trimStart s).

(** [s.padStart(2, '0')] *)
Definition padStart2 (s : string) : string :=
  match s with
  | EmptyString => "00"
  | String c EmptyString => String "0" (String c EmptyString)
  | _ => s
  end.

(** ** Regular expressions

    A backtracking matcher for the fragment of ECMAScript regular
    expressions the source uses: character classes, sequence, alternation,
    the greedy star, capturing groups and the end anchor [$].  [run r s]
    lists the ways [r] matches a prefix of [s] in the order a backtracking
    engine tries them, so its head is the match JavaScript reports.  A
    leading [^] (no [m] flag) means the match is attempted at index 0
    only, which is what [test] and [match_] do. *)

Module RegExp.

Inductive regex : Type :=
| Eps
| Class (p : ascii -> bool)
| Seq (r1 r2 : regex)
| Alt (r1 r2 : regex)
| Star (r : regex)
| Group (r : regex)
| End.

(** [r+], [r?], and a sequence of several parts *)
Definition Plus (r : regex) : regex := Seq r (Star r).
Definition Opt (r : regex) : regex := Alt r Eps.

Fixpoint cat (rs : list regex) : regex :=
  match rs with
  | [] => Eps
  | [r] => r
  | r :: rs' => Seq r (cat rs')
  end.

(** A literal character, and a letter under the [i] flag *)
Definition lit (c : ascii) : regex := Class (isChar c).
Definition ci (c : ascii) : regex :=
  Class (fun x => Ascii.eqb (toLowerChar x) (toLowerChar c)).

Record Match : Type := mkMatch {
  groups : list string;   (* the capture groups, in order *)
  matched : string;       (* the text consumed *)
  rest : string           (* the input left *)
}.

Definition emptyMatch (s : string) : Match := mkMatch [] "" s.

Definition after (m1 m2 : Match) : Match :=
  mkMatch (groups m1 ++ groups m2) (matched m1 ++ matched m2) (rest m2).

Definition capture (m : Match) : Match :=
  mkMatch (matched m :: groups m) (matched m) (rest m).

(** The greedy star over the matcher [step] of its body: one more iteration
    first, then none; an iteration that consumes nothing is refused, as
    ECMAScript does. *)
Fixpoint star (step : string -> list Match) (fuel : nat) (s : string)
  : list Match :=
  match fuel with
  | O => [emptyMatch s]
  | S fuel' =>
      flat_map
        (fun m1 =>
           if isEmpty (matched m1) then []
           else map (after m1) (star step fuel' (rest m1)))
        (step s)
      ++ [emptyMatch s]
  end.

Fixpoint run (r : regex) (s : string) : list Match :=
  match r with
  | Eps => [emptyMatch s]
  | Class p =>
      match s with
      | String c s' => if p c then [mkMatch [] (String c "") s'] else []
      | EmptyString => []
      end
  | Seq r1 r2 => flat_map (fun m1 => map (after m1) (run r2 (rest m1))) (run r1 s)
  | Alt r1 r2 => run r1 s ++ run r2 s
  | Star r' => star (run r') (S (length s)) s
  | Group r' => map capture (run r' s)
  | End =>
      match s with
      | EmptyString => [emptyMatch s]
      | String _ _ => []
      end
  end.

(** The first match at index 0, if any. *)
Definition exec (r : regex) (s : string) : option Match := hd_error (run r s).

(** [r.test(s)] for a pattern that starts with [^] *)
Definition test (r : regex) (s : string) : bool :=
  match exec r s with
  | Some _ => true
  | None => false
  end.

(** [s.match(r)] for a pattern that starts with [^] and has no [g] flag:
    the matched text followed by the groups, or [None] for [null]. *)
Definition match_ (r : regex) (s : string) : option (list string) :=
  match exec r s with
  | Some m => Some (matched m :: groups m)
  | None => None
  end.

(** [s.replace(r, rep)] for a pattern with the [g] flag and a replacement
    without [$] patterns: scan from the left, replace each match, copy the
    code unit at a position where nothing matches.  An empty match is
    replaced and the scan moves one code unit on. *)
Fixpoint replaceAllFuel (r : regex) (rep : string) (fuel : nat) (s : string)
  : string :=
  match fuel with
  | O => s
  | S fuel' =>
      match exec r s with
      | Some m =>
          if isEmpty (matched m) then
            match s with
            | EmptyString => rep
            | String c s' => rep ++ String c (replaceAllFuel r rep fuel' s')
            end
          else (rep ++ replaceAllFuel r rep fuel' (rest m))%string
      | None =>
          match s with
          | EmptyString => EmptyString
          | String c s' => String c (replaceAllFuel r rep fuel' s')
          end
      end
  end.

Definition replaceAll (r : regex) (rep : string) (s : string) : string :=
  replaceAllFuel r rep (S (length s)) s.

End RegExp.

Import RegExp.

(** ** Event: slug, time and date normalisation *)

(** [a-z0-9\s-], the characters [toSlug] keeps *)
Definition isSlugSource (c : ascii) : bool :=
  isLowerAZ c || isDigit c || isWhiteSpace c || isChar "-" c.

(** [/[^a-z0-9\s-]/g], [/\s+/g] and [/-+/g] *)
Definition notSlugSource : regex := Class (fun c => negb (isSlugSource c)).
Definition whiteSpaceRun : regex := Plus (Class isWhiteSpace).
Definition hyphenRun : regex := Plus (lit "-").

Definition toSlug (value : string) : string :=
  replaceAll hyphenRun "-"
    (replaceAll whiteSpaceRun "-"
       (replaceAll notSlugSource ""
          (trim (toLowerCase value)))).

(** [/^(\d{1,2}):(\d{2})\s*(am|pm)$/i] *)
Definition twelveHour : regex :=
  cat [ Group (Seq (Class isDigit) (Opt (Class isDigit)));
        lit ":";
        Group (Seq (Class isDigit) (Class isDigit));
        Star (Class isWhiteSpace);
        Group (Alt (Seq (ci "a") (ci "m")) (Seq (ci "p") (ci "m")));
        End ].

(** [/^([01]?\d|2[0-3]):([0-5]\d)$/] *)
Definition twentyFourHour : regex :=
  cat [ Group (Alt (Seq (Opt (Class (in_range 48 49))) (Class isDigit))
                   (Seq (lit "2") (Class (in_range 48 51))));
        lit ":";
        Group (Seq (Class (in_range 48 53)) (Class isDigit));
        End ].

(** [Number(h)] for a string of decimal digits, the only strings the hour
    group lets through *)
Definition Number (h : string) : N :=
  fold_left (fun acc c => (10 * acc + (code c - 48))%N) (list_ascii_of_string h) 0%N.

(** [n.toString()] for a non-negative integer: its decimal digits *)
Definition digitChar (d : N) : ascii := ascii_of_N (48 + d).

Fixpoint toStringFuel (fuel : nat) (n : N) (acc : string) : string :=
  match fuel with
  | O => acc
  | S fuel' =>
      let acc' := String (digitChar (n mod 10)) acc in
      if (n <? 10)%N then acc' else toStringFuel fuel' (n / 10) acc'
  end.

Definition toString (n : N) : string :=
  toStringFuel (S (N.to_nat (N.log2 n))) n "".

Definition normalizeTime (value : string) : result string :=
  let trimmed := toLowerCase (trim value) in
  if test twelveHour trimmed then
    match match_ twelveHour trimmed with
    | Some [_; h; m; meridiemRaw] =>
        let hourNum := Number h in
        let minutes := m in
        let meridiem := toLowerCase meridiemRaw in
        let normalizedHour :=
          if (meridiem =? "pm")%string && negb (hourNum =? 12)%N then (hourNum + 12)%N
          else if (meridiem =? "am")%string && (hourNum =? 12)%N then 0%N
          else hourNum in
        Ok (padStart2 (toString normalizedHour) ++ ":" ++ minutes)%string
    | _ =>
        (* [?? []] leaves every binding undefined; the template then reads
           NaN and undefined.  The test above rules this branch out. *)
        Ok "NaN:undefined"
    end
  else if test twentyFourHour trimmed then
    match match_ twentyFourHour trimmed with
    | Some [_; h; m] => Ok (padStart2 h ++ ":" ++ m)%string
    | _ =>
        (* [h] undefined: [h.padStart] is a TypeError.  Ruled out likewise. *)
        Throw "TypeError: Cannot read properties of undefined (reading 'padStart')"
    end
  else Throw "Invalid time format. Use HH:MM or HH:MM AM/PM.".

(** ** The [Date] built-in

    A time value is a number of milliseconds since 1970-01-01T00:00:00Z, a
    [Z]; an invalid date (time value NaN) is [None].  [toISOString] is
    modelled in full.  Of [Date.parse] the two forms of the ECMAScript
    date-time string format that do not depend on the host are modelled,
    for field values in range: the date-only form [YYYY-MM-DD], read as UTC
    midnight, and the form [YYYY-MM-DDTHH:mm:ss] followed by [Z] or an
    explicit offset [+HH:mm] / [-HH:mm].  Every other string is left to the
    engine, whose parser (implementation-defined, and for strings without
    an offset dependent on the host's time zone) is a parameter of the
    Event model. *)

Module Date.

Local Open Scope Z_scope.

Definition msPerDay : Z := 86400000.
Definition maxTimeValue : Z := 8640000000000000.

(** Days since the epoch of a date of the proleptic Gregorian calendar *)
Definition daysFromCivil (y m d : Z) : Z :=
  let y' := if m <=? 2 then y - 1 else y in
  let era := y' / 400 in
  let yoe := y' - era * 400 in
  let mp := if m >? 2 then m - 3 else m + 9 in
  let doy := (153 * mp + 2) / 5 + d - 1 in
  let doe := yoe * 365 + yoe / 4 - yoe / 100 + doy in
  era * 146097 + doe - 719468.

(** and back: year, month, day of a day number *)
Definition civilFromDays (days : Z) : Z * Z * Z :=
  let z := days + 719468 in
  let era := z / 146097 in
  let doe := z - era * 146097 in
  let yoe := (doe - doe / 1460 + doe / 36524 - doe / 146096) / 365 in
  let doy := doe - (365 * yoe + yoe / 4 - yoe / 100) in
  let mp := (5 * doy + 2) / 153 in
  let d := doy - (153 * mp + 2) / 5 + 1 in
  let m := if mp <? 10 then mp + 3 else mp - 9 in
  let y := yoe + era * 400 in
  (if m <=? 2 then y + 1 else y, m, d).

Definition isLeapYear (y : Z) : bool :=
  ((y mod 4 =? 0) && negb (y mod 100 =? 0)) || (y mod 400 =? 0).

Definition daysInMonth (y m : Z) : Z :=
  if m =? 2 then (if isLeapYear y then 29 else 28)
  else if (m =? 4) || (m =? 6) || (m =? 9) || (m =? 11) then 30
  else 31.

Definition num (s : string) : Z := Z.of_N (Number s).

Definition digits (n : nat) : regex := cat (repeat (Class isDigit) n).

(** [YYYY-MM-DD] *)
Definition dateOnly : regex :=
  cat [ Group (digits 4); lit "-"; Group (digits 2); lit "-"; Group (digits 2);
        End ].

(** [YYYY-MM-DDTHH:mm:ss] with [Z] or a signed offset [HH:mm] *)
Definition dateTimeOffset : regex :=
  cat [ Group (digits 4); lit "-"; Group (digits 2); lit "-"; Group (digits 2);
        lit "T";
        Group (digits 2); lit ":"; Group (digits 2); lit ":"; Group (digits 2);
        Alt (lit "Z")
            (cat [ Group (Alt (lit "+") (lit "-"));
                   Group (digits 2); lit ":"; Group (digits 2) ]);
        End ].

Definition validDate (y m d : Z) : bool :=
  (1 <=? m) && (m <=? 12) && (1 <=? d) && (d <=? daysInMonth y m).

Definition validTime (h mi s : Z) : bool :=
  (h <=? 23) && (mi <=? 59) && (s <=? 59).

Definition parseDateOnly (s : string) : option Z :=
  match match_ dateOnly s with
  | Some [_; y; m; d] =>
      if validDate (num y) (num m) (num d)
      then Some (daysFromCivil (num y) (num m) (num d) * msPerDay)
      else None
  | _ => None
  end.

Definition parseDateTimeOffset (s : string) : option Z :=
  match match_ dateTimeOffset s with
  | Some (_ :: y :: m :: d :: h :: mi :: sec :: zone) =>
      if validDate (num y) (num m) (num d) && validTime (num h) (num mi) (num sec)
      then
        let local := daysFromCivil (num y) (num m) (num d) * msPerDay
                     + num h * 3600000 + num mi * 60000 + num sec * 1000 in
        match zone with
        | [] => Some local
        | [sign; oh; om] =>
            if (num oh <=? 23) && (num om <=? 59) then
              let offset := num oh * 3600000 + num om * 60000 in
              Some (if (sign =? "-")%string then local + offset else local - offset)
            else None
        | _ => None
        end
      else None
  | _ => None
  end.

(** [TimeClip] *)
Definition timeClip (t : Z) : option Z :=
  if Z.abs t <=? maxTimeValue then Some t else None.

(** Decimal digits of a non-negative number, zero-padded on the left to
    [width] characters *)
Fixpoint zeros (n : nat) : string :=
  match n with
  | O => EmptyString
  | S n' => String "0" (zeros n')
  end.

Definition pad (width : nat) (n : Z) : string :=
  let s := toString (Z.to_N n) in
  (zeros (width - String.length s) ++ s)%string.

(** The year of an ISO string: four digits from 0 to 9999, otherwise a sign
    and six digits *)
Definition isoYear (y : Z) : string :=
  if (0 <=? y) && (y <=? 9999) then pad 4 y
  else if y <? 0 then ("-" ++ pad 6 (Z.abs y))%string
  else ("+" ++ pad 6 y)%string.

(** [Date.prototype.toISOString] *)
Definition toISOString (t : Z) : string :=
  let days := t / msPerDay in
  let ms := t mod msPerDay in
  let '(y, m, d) := civilFromDays days in
  let hour := ms / 3600000 in
  let minute := ms / 60000 mod 60 in
  let second := ms / 1000 mod 60 in
  let milli := ms mod 1000 in
  (isoYear y ++ "-" ++ pad 2 m ++ "-" ++ pad 2 d ++ "T"
   ++ pad 2 hour ++ ":" ++ pad 2 minute ++ ":" ++ pad 2 second
   ++ "." ++ pad 3 milli ++ "Z")%string.

End Date.

(** ** The Event schema and its pre-save hook *)

Module Event.

(** The eleven required string paths, in the order of [stringFields] *)
Inductive StringField : Type :=
| title | description | overview | image | venue | location
| date | time | mode | audience | organizer.

Definition stringFields : list StringField :=
  [ title; description; overview; image; venue; location;
    date; time; mode; audience; organizer ].

Definition fieldName (f : StringField) : string :=
  match f with
  | title => "title" | description => "description" | overview => "overview"
  | image => "image" | venue => "venue" | location => "location"
  | date => "date" | time => "time" | mode => "mode"
  | audience => "audience" | organizer => "organizer"
  end.

(** [maxlength] of each path in [EventSchema] *)
Definition maxlength (f : StringField) : nat :=
  match f with
  | title => 180 | description => 5000 | overview => 2000 | image => 2048
  | venue => 500 | location => 500 | date => 30 | time => 30 | mode => 50
  | audience => 200 | organizer => 200
  end.

(** [maxlength] of [slug], a path the loop of the hook does not visit *)
Definition slugMaxlength : nat := 200.

Definition StringField_eqb (f g : StringField) : bool :=
  (fieldName f =? fieldName g)%string.

(** The document [this] of the hook.  [slug] is optional in [EventFields];
    [isModified] is [None] when [this.isModified] is not a function, and
    otherwise answers [this.isModified(path)] as asked by the hook. *)
Record EventDocument : Type := mkEvent {
  fields : StringField -> value;
  agenda : option (list value);
  tags : option (list value);
  slug : option string;
  isModified : option (string -> bool)
}.

Definition setField (d : EventDocument) (f : StringField) (v : value)
  : EventDocument :=
  mkEvent (fun g => if StringField_eqb g f then v else fields d g)
          (agenda d) (tags d) (slug d) (isModified d).

Definition setAgenda (d : EventDocument) (a : list string) : EventDocument :=
  mkEvent (fields d) (Some (map VString a)) (tags d) (slug d) (isModified d).

Definition setTags (d : EventDocument) (t : list string) : EventDocument :=
  mkEvent (fields d) (agenda d) (Some (map VString t)) (slug d) (isModified d).

Definition setSlug (d : EventDocument) (s : string) : EventDocument :=
  mkEvent (fields d) (agenda d) (tags d) (Some s) (isModified d).

(** The string held by a path the loop over [stringFields] has already
    checked; the default is never used there. *)
Definition str (v : value) : string :=
  match v with
  | VString s => s
  | _ => EmptyString
  end.

(** [!this.slug]: undefined or the empty string *)
Definition slugUnset (s : option string) : bool :=
  match s with
  | None => true
  | Some s' => isEmpty s'
  end.

(** [typeof this.isModified === 'function' ? this.isModified('title') : true] *)
Definition titleChanged (this : EventDocument) : bool :=
  match isModified this with
  | Some isModified => isModified "title"
  | None => true
  end.

(** One turn of the loop over [stringFields] *)
Definition requireString (d : EventDocument) (field : StringField)
  : result EventDocument :=
  match fields d field with
  | VString v =>
      if isEmpty (trim v)
      then Throw (fieldName field ++ " is required and must be a non-empty string.")%string
      else Ok (setField d field (VString (trim v)))
  | _ => Throw (fieldName field ++ " is required and must be a non-empty string.")%string
  end.

Fixpoint forEachField (fs : list StringField) (d : EventDocument)
  : result EventDocument :=
  match fs with
  | [] => Ok d
  | field :: fs' => d' <- requireString d field ;; forEachField fs' d'
  end.

(** The [map] callbacks of the agenda and of the tags block *)
Fixpoint mapAgenda (items : list value) : result (list string) :=
  match items with
  | [] => Ok []
  | VString item :: items' => rest <- mapAgenda items' ;; Ok (trim item :: rest)
  | _ :: _ => Throw "agenda must contain strings."
  end.

Fixpoint mapTags (items : list value) : result (list string) :=
  match items with
  | [] => Ok []
  | VString item :: items' => rest <- mapTags items' ;; Ok (trim item :: rest)
  | _ :: _ => Throw "tags must contain strings."
  end.

(** [x ?? []] *)
Definition orEmpty (x : option (list value)) : list value :=
  match x with
  | Some l => l
  | None => []
  end.

Definition nonEmpty (item : string) : bool := negb (isEmpty item).

Section Hook.

(** The engine's [Date.parse] on the strings [Date] does not model *)
Variable engineDateParse : string -> option Z.

(** [new Date(value)]: its time value, [None] for NaN *)
Definition newDate (value : string) : option Z :=
  match Date.parseDateOnly value with
  | Some t => Some t
  | None =>
      match Date.parseDateTimeOffset value with
      | Some t => Date.timeClip t
      | None =>
          match engineDateParse value with
          | Some t => Date.timeClip t
          | None => None
          end
      end
  end.

Definition normalizeDate (value : string) : result string :=
  match newDate value with
  | None => Throw "Invalid date format."
  | Some parsed =>
      (* Store date-only portion as ISO (YYYY-MM-DD). *)
      Ok (takeWhile (fun c => negb (isChar "T" c)) (Date.toISOString parsed))
  end.

Definition handleNormalize (this : EventDocument) : result EventDocument :=
  this <- forEachField stringFields this ;;
  mapped <- mapAgenda (orEmpty (agenda this)) ;;
  let agenda' := filter nonEmpty mapped in
  if (List.length agenda' =? 0)%nat
  then Throw "agenda is required and must be a non-empty array."
  else
    let this := setAgenda this agenda' in
    mapped <- mapTags (orEmpty (tags this)) ;;
    let tags' := filter nonEmpty mapped in
    if (List.length tags' =? 0)%nat
    then Throw "tags is required and must be a non-empty array."
    else
      let this := setTags this tags' in
      d <- normalizeDate (str (fields this date)) ;;
      let this := setField this date (VString d) in
      t <- normalizeTime (str (fields this time)) ;;
      let this := setField this time (VString t) in
      if slugUnset (slug this) || titleChanged this
      then Ok (setSlug this (toSlug (str (fields this title))))
      else Ok this.

(** The [events] collection with its unique index on [slug]: an insert is
    refused when a stored document has the same slug. *)
Inductive writeResult : Type :=
| Written (events : list EventDocument)
| HookError (msg : string)
| DuplicateKey (index : string).

Definition sameSlug (a b : option string) : bool :=
  match a, b with
  | Some x, Some y => (x =? y)%string
  | None, None => true
  | _, _ => false
  end.

Definition insertOne (events : list EventDocument) (d : EventDocument)
  : writeResult :=
  if existsb (fun e => sameSlug (slug e) (slug d)) events
  then DuplicateKey "slug_1"
  else Written (d :: events).

(** [save()] of a new document: the hook, then the insert *)
Definition save (events : list EventDocument) (d : EventDocument)
  : writeResult :=
  match handleNormalize d with
  | Throw msg => HookError msg
  | Ok d' => insertOne events d'
  end.

End Hook.

End Event.

(** ** The Booking schema and its pre-save hook *)

Module Booking.

(** [[^\s@]] *)
Definition notSpaceOrAt (c : ascii) : bool :=
  negb (isWhiteSpace c || isChar "@" c).

(** [/^[^\s@]+@[^\s@]+\.[^\s@]+$/] *)
Definition emailPattern : regex :=
  cat [ Plus (Class notSpaceOrAt); lit "@";
        Plus (Class notSpaceOrAt); lit ".";
        Plus (Class notSpaceOrAt); End ].

Definition isValidEmail (value : string) : bool := test emailPattern value.

(** The setters the schema attaches to [email] ([trim: true],
    [lowercase: true]): what an assignment to the path stores. *)
Definition castEmail (input : string) : value :=
  VString (toLowerCase (trim input)).

Section Hook.

(** [Types.ObjectId] and the driver's [Types.ObjectId.isValid] *)
Context {ObjectId : Type}.
Variable ObjectId_isValid : ObjectId -> bool.

Definition isValidObjectId (value : ObjectId) : bool := ObjectId_isValid value.

Record BookingDocument : Type := mkBooking {
  eventId : ObjectId;
  email : value;
  isNew : bool;
  isModified : string -> bool
}.

(** An async hook: it finishes, or it awaits [Event.exists({ _id })] and
    goes on with the answer. *)
Inductive hook (A : Type) : Type :=
| Done (r : result A)
| AwaitExists (_id : ObjectId) (k : bool -> hook A).
Arguments Done {A} r.
Arguments AwaitExists {A} _id k.

Definition validateBooking (this : BookingDocument) : hook unit :=
  match email this with
  | VString e =>
      if isEmpty (trim e)
      then Done (Throw "email is required and must be a non-empty string.")
      else if negb (isValidEmail e)
      then Done (Throw "Invalid email format.")
      else if negb (isValidObjectId (eventId this))
      then Done (Throw "eventId must be a valid ObjectId.")
      else if isNew this || isModified this "eventId"
      then AwaitExists (eventId this)
             (fun eventExists =>
                if negb eventExists
                then Done (Throw "Referenced event does not exist.")
                else Done (Ok tt))
      else Done (Ok tt)
  | _ => Done (Throw "email is required and must be a non-empty string.")
  end.

(** Running a hook against the events collection, given as the set of ids
    it holds: the result and the lookups made, in order. *)
Fixpoint runHook {A : Type} (eventExists : ObjectId -> bool) (h : hook A)
  : result A * list ObjectId :=
  match h with
  | Done r => (r, [])
  | AwaitExists _id k =>
      let (r, lookups) := runHook eventExists (k (eventExists _id)) in
      (r, _id :: lookups)
  end.

(** [save()]: the hook, then the write of the document as it stands *)
Definition save (eventExists : ObjectId -> bool) (this : BookingDocument)
  : result BookingDocument :=
  _ <- fst (runHook eventExists (validateBooking this)) ;; Ok this.

(** [new Booking({ eventId, email })]: the setters run on assignment, the
    document is new and its paths count as modified. *)
Definition create (_id : ObjectId) (emailInput : string) : BookingDocument :=
  mkBooking _id (castEmail emailInput) true (fun _ => true).

(** [ObjectId.prototype.equals], by which the index compares two ids *)
Variable ObjectId_equals : ObjectId -> ObjectId -> bool.

(** The [bookings] collection with its unique compound index on [eventId]
    and [email]: an insert is refused when a stored document has the same
    pair. *)
Inductive writeResult : Type :=
| Written (bookings : list BookingDocument)
| HookError (msg : string)
| DuplicateKey (index : string).

Definition sameKey (a b : BookingDocument) : bool :=
  ObjectId_equals (eventId a) (eventId b)
  && match email a, email b with
     | VString x, VString y => (x =? y)%string
     | _, _ => false
     end.

Definition insertOne (bookings : list BookingDocument) (d : BookingDocument)
  : writeResult :=
  if existsb (sameKey d) bookings
  then DuplicateKey "eventId_1_email_1"
  else Written (d :: bookings).

(** [Booking.create({ eventId, email })]: a new document, its hook, then
    the insert *)
Definition saveNew (eventExists : ObjectId -> bool)
  (bookings : list BookingDocument) (_id : ObjectId) (emailInput : string)
  : writeResult :=
  match save eventExists (create _id emailInput) with
  | Throw msg => HookError msg
  | Ok d => insertOne bookings d
  end.

End Hook.

Arguments Done {ObjectId A} r.
Arguments AwaitExists {ObjectId A} _id k.

End Booking.

(** ** The cached connection *)

Module Db.

Record ConnectOptions : Type := mkOptions {
  bufferCommands : bool;
  maxPoolSize : N;
  serverSelectionTimeoutMS : N
}.

Section Connection.

(** [typeof mongoose]: the connected instance *)
Context {Mongoose : Type}.

(** [cached]: the live connection and the pending establishment, a promise
    named by the number of the [mongoose.connect] call that made it *)
Record MongooseCache : Type := mkCache {
  conn : option Mongoose;
  promise : option nat
}.

(** The process: its environment, the cache on [globalThis], the calls of
    [mongoose.connect] made so far, and whether [strictQuery] was set *)
Record Process : Type := mkProcess {
  MONGODB_URI : option string;
  cached : MongooseCache;
  connectCalls : list (string * ConnectOptions);
  strictQuery : bool
}.

(** A call runs to its first suspension point: it throws, it returns, or
    it is suspended on [await cached.promise]. *)
Inductive outcome : Type :=
| Threw (msg : string)
| Returned (m : Mongoose)
| Awaiting (p : nat).

Definition options : ConnectOptions := mkOptions false 10%N 15000%N.

(** [!uri]: undefined or the empty string *)
Definition unset (uri : option string) : bool :=
  match uri with
  | None => true
  | Some s => isEmpty s
  end.

Definition connectToDatabase (w : Process) : outcome * Process :=
  match MONGODB_URI w with
  | None | Some EmptyString =>
      (Threw "MONGODB_URI environment variable is not set.", w)
  | Some uri =>
      match conn (cached w) with
      | Some c => (Returned c, w)
      | None =>
          match promise (cached w) with
          | Some p => (Awaiting p, w)
          | None =>
              let p := List.length (connectCalls w) in
              (Awaiting p,
               mkProcess (MONGODB_URI w) (mkCache None (Some p))
                         (connectCalls w ++ [(uri, options)]) (strictQuery w))
          end
      end
  end.

(** The reactions on the promise of [mongoose.connect]: [then] sets
    [strictQuery], [catch] clears the pending slot. *)
Definition settle (w : Process) (r : result Mongoose) : Process :=
  match r with
  | Ok _ => mkProcess (MONGODB_URI w) (cached w) (connectCalls w) true
  | Throw _ =>
      mkProcess (MONGODB_URI w) (mkCache (conn (cached w)) None)
                (connectCalls w) (strictQuery w)
  end.

(** A suspended call resumes with the settled promise. *)
Definition resume (w : Process) (r : result Mongoose) : outcome * Process :=
  match r with
  | Ok m =>
      (Returned m,
       mkProcess (MONGODB_URI w) (mkCache (Some m) (promise (cached w)))
                 (connectCalls w) (strictQuery w))
  | Throw e => (Threw e, w)
  end.

End Connection.

End Db.

(** * Specification-level functions

    The words of the specification as functions and predicates to compare
    the code with, and the sample inputs of the witnesses. *)

(** ** Slugs *)

(** Collapse every maximal run of characters in [p] to [rep]. *)
Definition startsWith (p : ascii -> bool) (s : string) : bool :=
  match s with
  | EmptyString => false
  | String c _ => p c
  end.

Fixpoint squeeze (p : ascii -> bool) (rep : string) (s : string) : string :=
  match s with
  | EmptyString => EmptyString
  | String c s' =>
      if p c then
        if startsWith p s' then squeeze p rep s'
        else (rep ++ squeeze p rep s')%string
      else String c (squeeze p rep s')
  end.

(** The slug of the specification: lowercase, strip characters outside
    [[a-z0-9\s-]], collapse runs of whitespace to one hyphen, collapse runs
    of hyphens to one. *)
Definition slugOf (t : string) : string :=
  squeeze (isChar "-") "-"
    (squeeze isWhiteSpace "-"
       (sfilter isSlugSource (toLowerCase t))).

(** [a-z0-9-], the characters of a slug *)
Definition isSlugChar (c : ascii) : bool :=
  isLowerAZ c || isDigit c || isChar "-" c.

(** No two adjacent characters in [p]. *)
Fixpoint noRun (p : ascii -> bool) (s : string) : bool :=
  match s with
  | EmptyString => true
  | String c s' => negb (p c && startsWith p s') && noRun p s'
  end.

(** A title whose lower-cased characters all lie outside [[a-z0-9\s-]] *)
Definition strippedAway (t : string) : bool :=
  sforall (fun c => negb (isSlugSource c)) (toLowerCase t).

(** ** Clock times *)

(** The 24-hour hour of a 12-hour reading, in the words of the
    specification: 12 AM is 0, 12 PM stays 12, any other PM hour gains 12
    (and any other AM hour stays). *)
Definition to24 (hour : N) (meridiem : string) : N :=
  if (meridiem =? "pm")%string
  then (if (hour =? 12)%N then 12 else hour + 12)%N
  else (if (hour =? 12)%N then 0 else hour)%N.

(** One or two digits; exactly two digits; [am] or [pm] in any case *)
Definition isOneOrTwoDigits (h : string) : bool :=
  match h with
  | String c EmptyString => isDigit c
  | String c1 (String c2 EmptyString) => isDigit c1 && isDigit c2
  | _ => false
  end.

Definition isTwoDigits (m : string) : bool :=
  match m with
  | String c1 (String c2 EmptyString) => isDigit c1 && isDigit c2
  | _ => false
  end.

Definition isMeridiem (s : string) : bool :=
  (toLowerCase s =? "am")%string || (toLowerCase s =? "pm")%string.

(** An hour from 0 to 23 in one or two digits; minutes from 00 to 59 *)
Definition isHour24 (h : string) : bool :=
  match h with
  | String c EmptyString => isDigit c
  | String c1 (String c2 EmptyString) =>
      (in_range 48 49 c1 && isDigit c2) || (isChar "2" c1 && in_range 48 51 c2)
  | _ => false
  end.

Definition isMinute59 (m : string) : bool :=
  match m with
  | String c1 (String c2 EmptyString) => in_range 48 53 c1 && isDigit c2
  | _ => false
  end.

(** A canonical 24-hour clock time: [HH:MM], hour 00-23, minutes 00-59. *)
Definition isClockTime (s : string) : bool :=
  match s with
  | String h1 (String h2 (String ":" (String m1 (String m2 EmptyString)))) =>
      isDigit h1 && isDigit h2 && isDigit m1 && isDigit m2
      && (Number (String h1 (String h2 "")) <=? 23)%N
      && (Number (String m1 (String m2 "")) <=? 59)%N
  | _ => false
  end.

(** The shape [HH:MM]: two digits, a colon, two digits. *)
Definition isHHMM (s : string) : bool :=
  match s with
  | String h1 (String h2 (String ":" (String m1 (String m2 EmptyString)))) =>
      isDigit h1 && isDigit h2 && isDigit m1 && isDigit m2
  | _ => false
  end.

(** Two digits that read as the number [n] *)
Definition twoDigitsOf (n : N) (s : string) : bool :=
  match s with
  | String a (String b EmptyString) => isDigit a && isDigit b && (Number s =? n)%N
  | _ => false
  end.

(** A digit or the colon: the characters of a 24-hour reading *)
Definition isTimeChar (c : ascii) : bool := isDigit c || isChar ":" c.

(** The values the 12-hour pattern reads, as the caller writes them: an
    hour of one or two digits, a colon, two digits of minutes, optional
    whitespace and [am] or [pm] in any letter case, with whitespace allowed
    around the whole. *)
Definition isMeridiemReading (v : string) : Prop :=
  exists w1 h mm ws mer w2,
    v = (w1 ++ (h ++ ":" ++ mm ++ ws ++ mer) ++ w2)%string
    /\ sforall isWhiteSpace w1 = true /\ sforall isWhiteSpace w2 = true
    /\ isOneOrTwoDigits h = true /\ isTwoDigits mm = true
    /\ sforall isWhiteSpace ws = true /\ isMeridiem mer = true.

(** and the values the 24-hour pattern reads: an hour from 0 to 23 in one
    or two digits, a colon, minutes from 00 to 59, with whitespace allowed
    around the whole. *)
Definition isClockReading (v : string) : Prop :=
  exists w1 h mm w2,
    v = (w1 ++ (h ++ ":" ++ mm) ++ w2)%string
    /\ sforall isWhiteSpace w1 = true /\ sforall isWhiteSpace w2 = true
    /\ isHour24 h = true /\ isMinute59 mm = true.

(** ** Dates *)

(** Any character but the [T] that [split('T')] cuts at *)
Definition notT (c : ascii) : bool := negb (isChar "T" c).

(** The date-only ISO form [YYYY-MM-DD] of a date *)
Definition isoDate (y m d : Z) : string :=
  (Date.pad 4 y ++ "-" ++ Date.pad 2 m ++ "-" ++ Date.pad 2 d)%string.

(** Four digits that read as the number [n] *)
Definition fourDigitsOf (n : N) (s : string) : bool :=
  match s with
  | String a (String b (String c (String e EmptyString))) =>
      isDigit a && isDigit b && isDigit c && isDigit e && (Number s =? n)%N
  | _ => false
  end.

(** The length of the month that starts [mp] months after March *)
Definition monthLength (mp : Z) (leap : bool) : Z :=
  if (mp =? 11)%Z then (if leap then 29 else 28)%Z
  else if ((mp =? 1) || (mp =? 3) || (mp =? 6) || (mp =? 8))%Z then 30%Z
  else 31%Z.

(** [P] holds for the [fuel] numbers from [n] on. *)
Fixpoint allFrom (P : N -> bool) (fuel : nat) (n : N) : bool :=
  match fuel with
  | O => true
  | S fuel' => P n && allFrom P fuel' (N.succ n)
  end.

(** The time part [HH:mm:ss] of a date-time, a zone written as a signed
    offset [+HH:mm] or [-HH:mm], the milliseconds of a time of day, and
    the offset of a zone from UTC in milliseconds, positive to the east *)
Definition isoTime (h mi s : Z) : string :=
  (Date.pad 2 h ++ ":" ++ Date.pad 2 mi ++ ":" ++ Date.pad 2 s)%string.

Definition isoZone (west : bool) (oh om : Z) : string :=
  ((if west then "-" else "+") ++ Date.pad 2 oh ++ ":" ++ Date.pad 2 om)%string.

Definition timeOfDay (h mi s : Z) : Z := (h * 3600000 + mi * 60000 + s * 1000)%Z.

Definition zoneOffset (west : bool) (oh om : Z) : Z :=
  (if west then - (oh * 3600000 + om * 60000) else oh * 3600000 + om * 60000)%Z.

(** A time of day: hour 0-23, minutes and seconds 0-59 *)
Definition validClock (h mi s : Z) : bool :=
  ((0 <=? h) && (h <=? 23) && (0 <=? mi) && (mi <=? 59) && (0 <=? s) && (s <=? 59))%Z.

(** The calendar date [k] days after a date, as its ISO text when its year
    is from 0 to 9999 *)
Definition isoDateAfter (k y m d : Z) : option string :=
  let '(y', m', d') := Date.civilFromDays (Date.daysFromCivil y m d + k) in
  if ((0 <=? y') && (y' <=? 9999))%Z then Some (isoDate y' m' d') else None.

(** ** Patterns *)

(** What it means for a pattern to match a prefix of [s], leaving a match
    record: the declarative reading of the patterns, against which the
    matcher [run] is checked. *)
Inductive Matches : regex -> string -> Match -> Prop :=
| MEps s : Matches Eps s (emptyMatch s)
| MClass p c s : p c = true -> Matches (Class p) (String c s) (mkMatch [] (String c "") s)
| MSeq r1 r2 s m1 m2 :
    Matches r1 s m1 -> Matches r2 (rest m1) m2 -> Matches (Seq r1 r2) s (after m1 m2)
| MAltL r1 r2 s m : Matches r1 s m -> Matches (Alt r1 r2) s m
| MAltR r1 r2 s m : Matches r2 s m -> Matches (Alt r1 r2) s m
| MStarStop r s : Matches (Star r) s (emptyMatch s)
| MStarStep r s m1 m2 :
    Matches r s m1 -> isEmpty (matched m1) = false ->
    Matches (Star r) (rest m1) m2 -> Matches (Star r) s (after m1 m2)
| MGroup r s m : Matches r s m -> Matches (Group r) s (capture m)
| MEnd : Matches End "" (emptyMatch "").

(** The ways to cut [s] after a prefix of characters in [p], longest
    prefix first: the matches of [p*] in backtracking order. *)
Fixpoint splits (p : ascii -> bool) (s : string) : list (string * string) :=
  match s with
  | EmptyString => [(EmptyString, EmptyString)]
  | String c s' =>
      if p c
      then map (fun ab => (String c (fst ab), snd ab)) (splits p s') ++ [(EmptyString, s)]
      else [(EmptyString, s)]
  end.

Definition splitMatch (ab : string * string) : Match :=
  mkMatch [] (fst ab) (snd ab).

(** ** The lists and the result of the Event hook *)

(** The list procedure of the specification, for the list called [name]:
    reject when an entry is not text, map every entry to its trimmed form,
    drop the entries that became empty, fail when nothing is left. *)
Definition normalizeList (name : string) (items : option (list value))
  : result (list string) :=
  let entries := Event.orEmpty items in
  if forallb isString entries then
    match filter Event.nonEmpty (map (fun v => trim (Event.str v)) entries) with
    | [] => Throw (name ++ " is required and must be a non-empty array.")%string
    | kept => Ok kept
    end
  else Throw (name ++ " must contain strings.")%string.


(** What the hook stores in the two lists *)
Definition kept (items : option (list value)) : list string :=
  filter Event.nonEmpty (map (fun v => trim (Event.str v)) (Event.orEmpty items)).

(** The document the hook returns when every step has passed. *)
Definition normalizedEvent (d1 : Event.EventDocument) (a t : list string)
  (dt tm : string) : Event.EventDocument :=
  let this :=
    Event.setField
      (Event.setField (Event.setTags (Event.setAgenda d1 a) t)
                      Event.date (VString dt))
      Event.time (VString tm) in
  if Event.slugUnset (Event.slug d1) || Event.titleChanged d1
  then Event.setSlug this (toSlug (Event.str (Event.fields d1 Event.title)))
  else this.

(** A value the loop over the string paths lets through: a string that is
    not empty once trimmed *)
Definition isNonBlankString (v : value) : bool :=
  match v with
  | VString s => negb (isEmpty (trim s))
  | _ => false
  end.

(** The messages of the hook: one for each string path, two for each list,
    one for the date and one for the time *)
Definition requiredMessage (f : Event.StringField) : string :=
  (Event.fieldName f ++ " is required and must be a non-empty string.")%string.

Definition hookMessages : list string :=
  map requiredMessage Event.stringFields
  ++ [ "agenda must contain strings.";
       "agenda is required and must be a non-empty array.";
       "tags must contain strings.";
       "tags is required and must be a non-empty array.";
       "Invalid date format.";
       "Invalid time format. Use HH:MM or HH:MM AM/PM." ].

(** No two stored events carry the same slug. *)
Definition slugsDistinct (events : list Event.EventDocument) : Prop :=
  NoDup (map Event.slug events).

(** A stored document as a later save finds it: what was stored, with the
    answers [later] of [isModified] in that save *)
Definition laterSave (d : Event.EventDocument) (later : option (string -> bool))
  : Event.EventDocument :=
  Event.mkEvent (Event.fields d) (Event.agenda d) (Event.tags d) (Event.slug d) later.

(** ** Bookings *)

(** The shape the e-mail pattern accepts: a local part, [@], and a domain
    with an inner dot, none of the three parts empty or holding whitespace
    or [@]. *)
Definition emailShape (e : string) : Prop :=
  exists l d1 d2,
    e = (l ++ "@" ++ d1 ++ "." ++ d2)%string
    /\ isEmpty l = false /\ isEmpty d1 = false /\ isEmpty d2 = false
    /\ sforall Booking.notSpaceOrAt l = true
    /\ sforall Booking.notSpaceOrAt d1 = true
    /\ sforall Booking.notSpaceOrAt d2 = true.

(** The shape of the specification: a local part without whitespace or
    [@], then [@], then a domain without whitespace that holds a dot. *)
Definition looseEmailShape (e : string) : Prop :=
  exists l d,
    e = (l ++ "@" ++ d)%string
    /\ sforall Booking.notSpaceOrAt l = true
    /\ sforall (fun c => negb (isWhiteSpace c)) d = true
    /\ sforall (fun c => negb (isChar "." c)) d = false.

(** The checks of [validateBooking] that come before the lookup *)
Definition earlierChecksPass {ObjectId : Type} (isValid : ObjectId -> bool)
  (this : @Booking.BookingDocument ObjectId) : bool :=
  match Booking.email this with
  | VString e =>
      negb (isEmpty (trim e)) && Booking.isValidEmail e
      && isValid (Booking.eventId this)
  | _ => false
  end.

(** How many characters of [s] lie in [p] *)
Fixpoint occurrences (p : ascii -> bool) (s : string) : nat :=
  match s with
  | EmptyString => 0
  | String c s' => (if p c then 1 else 0) + occurrences p s'
  end.

(** ** Connections *)

(** [k] calls of [connectToDatabase] one after the other, none of them
    resumed in between: their outcomes in order, and the process they
    leave. *)
Fixpoint callers {Mongoose : Type} (k : nat) (w : @Db.Process Mongoose)
  : list (@Db.outcome Mongoose) * @Db.Process Mongoose :=
  match k with
  | O => ([], w)
  | S k' =>
      let (o, w1) := Db.connectToDatabase w in
      let (os, w2) := callers k' w1 in
      (o :: os, w2)
  end.

(** ** Sample inputs *)

(** An event as a caller would hand it to [save]: untrimmed text, a date
    in the date-only form, a 24-hour time, no slug yet. *)
Definition sampleFields (titleText : string) (f : Event.StringField) : value :=
  match f with
  | Event.title => VString titleText
  | Event.description => VString "An evening of talks. "
  | Event.overview => VString "Three talks and a panel"
  | Event.image => VString "/images/meetup.png"
  | Event.venue => VString "Hall 2"
  | Event.location => VString " Helsinki"
  | Event.date => VString "2024-03-05"
  | Event.time => VString "9:30"
  | Event.mode => VString "offline"
  | Event.audience => VString "developers"
  | Event.organizer => VString "JS guild"
  end.

Definition sampleEvent (titleText : string) : Event.EventDocument :=
  Event.mkEvent (sampleFields titleText)
    (Some [VString " Doors open "; VString "   "; VString "Talks"])
    (Some [VString "js "; VString "node"])
    None
    (Some (fun _ => true)).

(** An engine that reads "March 5, 2024" as midnight of that day in a zone
    two hours east of UTC, that is as the instant 2024-03-04T22:00:00Z (V8
    does so when the host's zone is Europe/Helsinki) *)
Definition eastOfUtcEngine (s : string) : option Z :=
  if (s =? "March 5, 2024")%string then Some 1709589600000%Z else None.

(** An engine whose parser accepts nothing beyond the modelled forms *)
Definition strictEngine (s : string) : option Z := None.

(** Bookings over numeric ids, every id well-formed: a new booking, and an
    update of the e-mail of a booking whose event is gone. *)
Definition newBooking : @Booking.BookingDocument nat :=
  Booking.create 7 "  Ada@Example.COM ".

Definition emailUpdate : @Booking.BookingDocument nat :=
  Booking.mkBooking 7 (Booking.castEmail "ada@example.org") false
    (fun path => (path =? "email")%string).

Definition noEvents (_id : nat) : bool := false.
Definition onlyEvent7 (_id : nat) : bool := (_id =? 7)%nat.

(** A process that holds a live connection, here the instance 1, and whose
    environment has lost [MONGODB_URI] *)
Definition liveWithoutUri : @Db.Process nat :=
  Db.mkProcess None (Db.mkCache (Some 1) None)
               [("mongodb://localhost/events", Db.options)] true.

(** The same with the connection string in place *)
Definition liveWithUri : @Db.Process nat :=
  Db.mkProcess (Some "mongodb://localhost/events") (Db.mkCache (Some 1) None)
               [("mongodb://localhost/events", Db.options)] true.


Definition badTime : Event.EventDocument :=
  Event.setField (sampleEvent "Node.js Meetup") Event.time (VString "half past nine").


(** A larger events collection, and a driver that takes the ids above 5 as
    well-formed *)
Definition events7and9 (_id : nat) : bool := ((_id =? 7) || (_id =? 9))%nat.
Definition aboveFive (_id : nat) : bool := (5 <? _id)%nat.

(** A process that has not connected yet *)
Definition coldStart : @Db.Process nat :=
  Db.mkProcess (Some "mongodb://localhost/events") (Db.mkCache None None) [] false.

(** * Lemmas *)

(** ** Code units *)

Ltac each_char c :=
  destruct c as [[|] [|] [|] [|] [|] [|] [|] [|]]; try reflexivity; try discriminate.

Lemma isWhiteSpace_toLowerChar (c : ascii) :
  isWhiteSpace (toLowerChar c) = isWhiteSpace c.
Proof. each_char c. Qed.

Lemma isSlugChar_lower (c : ascii) : isSlugChar c = true -> toLowerChar c = c.
Proof. each_char c. Qed.

Lemma isSlugChar_source (c : ascii) : isSlugChar c = true -> isSlugSource c = true.
Proof. each_char c. Qed.

Lemma isSlugChar_not_space (c : ascii) : isSlugChar c = true -> isWhiteSpace c = false.
Proof. each_char c. Qed.

Lemma isSlugSource_cases (c : ascii) :
  isSlugSource c = true -> isWhiteSpace c = false -> isSlugChar c = true.
Proof. each_char c. Qed.

Lemma isChar_true (x c : ascii) : isChar x c = true -> c = x.
Proof. unfold isChar. apply Ascii.eqb_eq. Qed.

(** A property checked on every number below [k] holds below [k]. *)
Lemma below_cases (P : N -> bool) (k : nat) :
  forallb P (map N.of_nat (seq 0 k)) = true ->
  forall n, (n < N.of_nat k)%N -> P n = true.
Proof.
  intros H n Hn. rewrite forallb_forall in H. apply H.
  apply in_map_iff. exists (N.to_nat n). split; [apply N2Nat.id|].
  apply in_seq. lia.
Qed.

Lemma digitChar_isDigit (k : N) : (k < 10)%N -> isDigit (digitChar k) = true.
Proof. apply (below_cases (fun k => isDigit (digitChar k)) 10). reflexivity. Qed.

(** ** Strings *)

Lemma append_empty_r (s : string) : (s ++ "")%string = s.
Proof. induction s as [|c s IH]; simpl; [reflexivity | now rewrite IH]. Qed.

Lemma append_assoc (a b c : string) : ((a ++ b) ++ c)%string = (a ++ (b ++ c))%string.
Proof. induction a as [|x a IH]; simpl; [reflexivity | now rewrite IH]. Qed.

Lemma dropWhile_length (p : ascii -> bool) (s : string) :
  String.length (dropWhile p s) <= String.length s.
Proof.
  induction s as [|c s IH]; simpl; [lia|].
  destruct (p c); simpl; lia.
Qed.

Lemma sforall_impl (p q : ascii -> bool) (s : string) :
  (forall c, p c = true -> q c = true) -> sforall p s = true -> sforall q s = true.
Proof.
  intros Hpq. induction s as [|c s IH]; simpl; [reflexivity|].
  intros H. apply andb_true_iff in H as [Hc Hs].
  now rewrite (Hpq c Hc), IH.
Qed.

Lemma sforall_append (p : ascii -> bool) (a b : string) :
  sforall p (a ++ b) = sforall p a && sforall p b.
Proof.
  induction a as [|c a IH]; simpl; [reflexivity|].
  now rewrite IH, andb_assoc.
Qed.

Lemma sfilter_all (p : ascii -> bool) (s : string) :
  sforall p s = true -> sfilter p s = s.
Proof.
  induction s as [|c s IH]; simpl; [reflexivity|].
  intros H. apply andb_true_iff in H as [Hc Hs].
  now rewrite Hc, IH.
Qed.

Lemma sfilter_none (p : ascii -> bool) (s : string) :
  sforall (fun c => negb (p c)) s = true -> sfilter p s = "".
Proof.
  induction s as [|c s IH]; simpl; [reflexivity|].
  intros H. apply andb_true_iff in H as [Hc Hs].
  apply negb_true_iff in Hc. now rewrite Hc, IH.
Qed.

Lemma sforall_sfilter (p : ascii -> bool) (s : string) : sforall p (sfilter p s) = true.
Proof.
  induction s as [|c s IH]; simpl; [reflexivity|].
  destruct (p c) eqn:Hc; simpl; [now rewrite Hc|assumption].
Qed.

Lemma sforall_dropWhile (q p : ascii -> bool) (s : string) :
  sforall q s = true -> sforall q (dropWhile p s) = true.
Proof.
  induction s as [|c s IH]; simpl; [reflexivity|].
  intros H. destruct (p c); [|exact H].
  apply andb_true_iff in H as [_ Hs]. now apply IH.
Qed.

Lemma sforall_trimEnd (q : ascii -> bool) (s : string) :
  sforall q s = true -> sforall q (trimEnd s) = true.
Proof.
  induction s as [|c s IH]; simpl; [reflexivity|].
  intros H. apply andb_true_iff in H as [Hc Hs].
  specialize (IH Hs).
  destruct (trimEnd s) as [|c' r].
  - destruct (isWhiteSpace c); simpl; [reflexivity | now rewrite Hc].
  - simpl in *. now rewrite Hc, IH.
Qed.

Lemma sforall_trim (q : ascii -> bool) (s : string) :
  sforall q s = true -> sforall q (trim s) = true.
Proof. intros H. unfold trim, trimStart. now apply sforall_trimEnd, sforall_dropWhile. Qed.

Lemma trimEnd_no_space (s : string) :
  sforall (fun c => negb (isWhiteSpace c)) s = true -> trimEnd s = s.
Proof.
  induction s as [|c s IH]; simpl; [reflexivity|].
  intros H. apply andb_true_iff in H as [Hc Hs].
  apply negb_true_iff in Hc. rewrite (IH Hs), Hc. now destruct s.
Qed.

Lemma trim_no_space (s : string) :
  sforall (fun c => negb (isWhiteSpace c)) s = true -> trim s = s.
Proof.
  intros H. unfold trim, trimStart.
  assert (dropWhile isWhiteSpace s = s) as ->.
  { destruct s as [|c s]; simpl in *; [reflexivity|].
    apply andb_true_iff in H as [Hc _]. apply negb_true_iff in Hc. now rewrite Hc. }
  now apply trimEnd_no_space.
Qed.

Lemma trimEnd_idem (s : string) : trimEnd (trimEnd s) = trimEnd s.
Proof.
  induction s as [|c s IH]; simpl; [reflexivity|].
  destruct (trimEnd s) as [|c' r] eqn:E.
  - destruct (isWhiteSpace c) eqn:Hc; simpl; [reflexivity | now rewrite Hc].
  - change (trimEnd (String c (String c' r))) with
      (match trimEnd (String c' r) with
       | EmptyString => if isWhiteSpace c then EmptyString else String c EmptyString
       | r0 => String c r0
       end).
    now rewrite IH.
Qed.

Lemma startsWith_trimEnd (s : string) :
  startsWith isWhiteSpace s = false -> startsWith isWhiteSpace (trimEnd s) = false.
Proof.
  destruct s as [|c s]; simpl; [reflexivity|].
  intros Hc. destruct (trimEnd s); [rewrite Hc|]; simpl; auto.
Qed.

Lemma startsWith_dropWhile (p : ascii -> bool) (s : string) :
  startsWith p (dropWhile p s) = false.
Proof.
  induction s as [|c s IH]; simpl; [reflexivity|].
  destruct (p c) eqn:Hc; simpl; auto.
Qed.

Lemma dropWhile_not_startsWith (p : ascii -> bool) (s : string) :
  startsWith p s = false -> dropWhile p s = s.
Proof. destruct s as [|c s]; simpl; [reflexivity|]. now intros ->. Qed.

Lemma trim_idem (s : string) : trim (trim s) = trim s.
Proof.
  unfold trim, trimStart.
  rewrite (dropWhile_not_startsWith isWhiteSpace (trimEnd _)).
  - apply trimEnd_idem.
  - apply startsWith_trimEnd, startsWith_dropWhile.
Qed.

Lemma dropWhile_smap (p : ascii -> bool) (f : ascii -> ascii) (s : string) :
  (forall c, p (f c) = p c) ->
  dropWhile p (smap f s) = smap f (dropWhile p s).
Proof.
  intros Hf. induction s as [|c s IH]; simpl; [reflexivity|].
  rewrite Hf. destruct (p c); [exact IH | reflexivity].
Qed.

Lemma trimEnd_toLowerCase (s : string) :
  trimEnd (toLowerCase s) = toLowerCase (trimEnd s).
Proof.
  unfold toLowerCase. induction s as [|c s IH]; simpl; [reflexivity|].
  rewrite IH, isWhiteSpace_toLowerChar.
  destruct (trimEnd s); simpl; [now destruct (isWhiteSpace c) | reflexivity].
Qed.

Lemma trim_toLowerCase (s : string) : trim (toLowerCase s) = toLowerCase (trim s).
Proof.
  unfold trim, trimStart, toLowerCase.
  rewrite dropWhile_smap by apply isWhiteSpace_toLowerChar.
  apply trimEnd_toLowerCase.
Qed.

Lemma toLowerCase_fixed (s : string) :
  sforall isSlugChar s = true -> toLowerCase s = s.
Proof.
  unfold toLowerCase. induction s as [|c s IH]; simpl; [reflexivity|].
  intros H. apply andb_true_iff in H as [Hc Hs].
  now rewrite (isSlugChar_lower c Hc), IH.
Qed.

(** ** The matcher on character classes *)

Section ClassFacts.

Variable p : ascii -> bool.

Lemma star_Class (fuel : nat) (s : string) :
  String.length s < fuel ->
  star (run (Class p)) fuel s = map splitMatch (splits p s).
Proof.
  revert s. induction fuel as [|fuel IH]; intros s Hlen; [lia|].
  destruct s as [|c s]; [reflexivity|].
  simpl in Hlen. simpl. destruct (p c) eqn:Hc; [|reflexivity].
  simpl. rewrite IH by lia.
  rewrite app_nil_r, map_app, !map_map. reflexivity.
Qed.

Lemma run_Star_Class (s : string) :
  run (Star (Class p)) s = map splitMatch (splits p s).
Proof.
  change (run (Star (Class p)) s) with (star (run (Class p)) (S (String.length s)) s).
  apply star_Class. lia.
Qed.

Lemma splits_head (s : string) :
  exists l, splits p s = (takeWhile p s, dropWhile p s) :: l.
Proof.
  induction s as [|c s [l IH]]; simpl; [now exists []|].
  destruct (p c); [|now exists []].
  rewrite IH. simpl. eexists. reflexivity.
Qed.

Lemma In_splits (a b s : string) :
  In (a, b) (splits p s) <-> s = (a ++ b)%string /\ sforall p a = true.
Proof.
  revert a. induction s as [|c s IH]; intros a; simpl.
  - split.
    + intros [H|[]]. inversion H. now split.
    + intros [H _]. left. destruct a; [|discriminate]. simpl in H. now subst.
  - destruct (p c) eqn:Hc.
    + rewrite in_app_iff, in_map_iff. split.
      * intros [[[a' b'] [H Hin]]|[H|[]]].
        -- inversion H; subst. apply IH in Hin as [-> Ha]. simpl. now rewrite Hc, Ha.
        -- inversion H. now split.
      * intros [H Ha]. destruct a as [|x a]; simpl in *.
        -- right. left. now subst.
        -- left. inversion H; subst. apply andb_true_iff in Ha as [_ Ha].
           exists (a, b). split; [reflexivity|]. apply IH. now split.
    + split.
      * intros [H|[]]. inversion H. now split.
      * intros [H Ha]. left. destruct a as [|x a]; simpl in *; [now subst|].
        inversion H; subst. rewrite Hc in Ha. discriminate.
Qed.

Lemma exec_Plus_Class (s : string) :
  exec (Plus (Class p)) s =
  match s with
  | String c s' =>
      if p c then Some (mkMatch [] (String c (takeWhile p s')) (dropWhile p s'))
      else None
  | EmptyString => None
  end.
Proof.
  destruct s as [|c s]; [reflexivity|].
  unfold exec, Plus.
  change (run (Seq (Class p) (Star (Class p))) (String c s)) with
    (flat_map (fun m1 => map (after m1) (run (Star (Class p)) (rest m1)))
       (run (Class p) (String c s))).
  simpl run at 2. destruct (p c); [|reflexivity].
  cbn [flat_map rest]. rewrite run_Star_Class.
  destruct (splits_head s) as [l ->]. reflexivity.
Qed.

Lemma replaceAllFuel_Class (fuel : nat) (s : string) :
  String.length s < fuel ->
  replaceAllFuel (Class p) "" fuel s = sfilter (fun c => negb (p c)) s.
Proof.
  revert s. induction fuel as [|fuel IH]; intros s Hlen; [lia|].
  destruct s as [|c s]; [reflexivity|].
  simpl in Hlen. simpl. unfold exec. simpl.
  destruct (p c); simpl; rewrite IH by lia; reflexivity.
Qed.

Lemma squeeze_run (rep : string) (c : ascii) (s : string) :
  p c = true ->
  squeeze p rep (String c s) = (rep ++ squeeze p rep (dropWhile p s))%string.
Proof.
  revert c. induction s as [|c' s IH]; intros c Hc.
  - simpl. now rewrite Hc.
  - change (squeeze p rep (String c (String c' s))) with
      (if p c
       then if p c' then squeeze p rep (String c' s)
            else (rep ++ squeeze p rep (String c' s))%string
       else String c (squeeze p rep (String c' s))).
    rewrite Hc. simpl dropWhile.
    destruct (p c') eqn:Hc'; [now apply IH | reflexivity].
Qed.

Lemma replaceAllFuel_Plus_Class (rep : string) (fuel : nat) (s : string) :
  String.length s < fuel ->
  replaceAllFuel (Plus (Class p)) rep fuel s = squeeze p rep s.
Proof.
  revert s. induction fuel as [|fuel IH]; intros s Hlen; [lia|].
  cbn [replaceAllFuel]. rewrite exec_Plus_Class.
  destruct s as [|c s]; [reflexivity|].
  simpl in Hlen. destruct (p c) eqn:Hc.
  - cbn [isEmpty matched rest]. rewrite squeeze_run by assumption.
    rewrite IH; [reflexivity|]. pose proof (dropWhile_length p s). lia.
  - rewrite IH by lia. simpl. now rewrite Hc.
Qed.

(** Squeezing leaves no run, and changes nothing where there is none. *)
Lemma noRun_squeeze (h : ascii) (s : string) :
  p h = true -> noRun p (squeeze p (String h "") s) = true.
Proof.
  intros Hh. induction s as [|c s IH]; [reflexivity|].
  cbn [squeeze]. destruct (p c) eqn:Hc.
  - destruct (startsWith p s) eqn:Hs; [assumption|].
    simpl. rewrite IH, andb_true_r.
    apply negb_true_iff, andb_false_iff. right.
    destruct s as [|c' s]; [reflexivity|].
    simpl in Hs. simpl. now rewrite Hs.
  - simpl. now rewrite Hc, IH.
Qed.

Lemma squeeze_noRun (h : ascii) (s : string) :
  (forall c, p c = true -> c = h) ->
  noRun p s = true -> squeeze p (String h "") s = s.
Proof.
  intros Hp. induction s as [|c s IH]; [reflexivity|].
  cbn [noRun squeeze]. intros H. apply andb_true_iff in H as [H1 H2].
  rewrite (IH H2). destruct (p c) eqn:Hc; [|reflexivity].
  simpl in H1. apply negb_true_iff in H1. rewrite H1.
  simpl. now rewrite (Hp c Hc).
Qed.

Lemma squeeze_none (rep s : string) :
  sforall (fun c => negb (p c)) s = true -> squeeze p rep s = s.
Proof.
  induction s as [|c s IH]; [reflexivity|]. simpl.
  intros H. apply andb_true_iff in H as [Hc Hs].
  apply negb_true_iff in Hc. now rewrite Hc, IH.
Qed.

End ClassFacts.

Lemma replaceAll_Class (p : ascii -> bool) (s : string) :
  replaceAll (Class p) "" s = sfilter (fun c => negb (p c)) s.
Proof. apply replaceAllFuel_Class. lia. Qed.

Lemma replaceAll_Plus_Class (p : ascii -> bool) (rep s : string) :
  replaceAll (Plus (Class p)) rep s = squeeze p rep s.
Proof. apply replaceAllFuel_Plus_Class. lia. Qed.

(** ** The matcher against the declarative reading *)

Lemma In_star_iff (step : string -> list Match) (fuel : nat) (s : string) (m : Match) :
  In m (star step (S fuel) s) <->
  m = emptyMatch s
  \/ exists m1 m2, In m1 (step s) /\ isEmpty (matched m1) = false
                   /\ In m2 (star step fuel (rest m1)) /\ m = after m1 m2.
Proof.
  cbn [star]. rewrite in_app_iff, in_flat_map. split.
  - intros [(m1 & H1 & H)|[H|[]]]; [right|left; now symmetry].
    destruct (isEmpty (matched m1)) eqn:E; [destruct H|].
    apply in_map_iff in H as (m2 & <- & H2). now exists m1, m2.
  - intros [->|(m1 & m2 & H1 & E & H2 & ->)]; [right; now left|left].
    exists m1. split; [assumption|]. rewrite E. now apply in_map.
Qed.

Lemma run_sound (r : regex) : forall s m, In m (run r s) -> Matches r s m.
Proof.
  induction r as [|p|r1 IH1 r2 IH2|r1 IH1 r2 IH2|r IH|r IH|]; intros s m H.
  - destruct H as [<-|[]]. constructor.
  - simpl in H. destruct s as [|c s]; [destruct H|].
    destruct (p c) eqn:Hc; [|destruct H]. destruct H as [<-|[]]. now constructor.
  - simpl in H. apply in_flat_map in H as (m1 & H1 & H).
    apply in_map_iff in H as (m2 & <- & H2). constructor; auto.
  - simpl in H. apply in_app_iff in H as [H|H]; [apply MAltL|apply MAltR]; auto.
  - change (run (Star r) s) with (star (run r) (S (String.length s)) s) in H.
    remember (S (String.length s)) as fuel eqn:Ef. clear Ef. revert s m H.
    induction fuel as [|fuel IHf]; intros s m H.
    + destruct H as [<-|[]]. constructor.
    + apply In_star_iff in H as [->|(m1 & m2 & H1 & E & H2 & ->)]; [constructor|].
      apply MStarStep; auto.
  - simpl in H. apply in_map_iff in H as (m' & <- & H'). constructor; auto.
  - simpl in H. destruct s; [|destruct H]. destruct H as [<-|[]]. constructor.
Qed.

Lemma Matches_split (r : regex) (s : string) (m : Match) :
  Matches r s m -> s = (matched m ++ rest m)%string.
Proof.
  induction 1; simpl; try reflexivity; try assumption.
  - rewrite append_assoc. now rewrite <- IHMatches2.
  - rewrite append_assoc. now rewrite <- IHMatches2.
Qed.

Lemma append_length (a b : string) :
  String.length (a ++ b) = String.length a + String.length b.
Proof. induction a as [|c a IH]; simpl; [reflexivity | now rewrite IH]. Qed.

Lemma Matches_progress (r : regex) (s : string) (m : Match) :
  Matches r s m -> isEmpty (matched m) = false ->
  String.length (rest m) < String.length s.
Proof.
  intros H E. apply Matches_split in H. rewrite H, append_length.
  destruct (matched m); [discriminate|]. simpl. lia.
Qed.

Lemma run_complete (r : regex) (s : string) (m : Match) :
  Matches r s m -> In m (run r s).
Proof.
  induction 1 as [s|p c s Hc|r1 r2 s m1 m2 H1 IH1 H2 IH2|r1 r2 s m H IH
                 |r1 r2 s m H IH|r s|r s m1 m2 H1 IH1 E H2 IH2|r s m H IH|].
  - now left.
  - simpl. rewrite Hc. now left.
  - simpl. apply in_flat_map. exists m1. split; [assumption|]. now apply in_map.
  - simpl. apply in_app_iff. now left.
  - simpl. apply in_app_iff. now right.
  - change (run (Star r) s) with (star (run r) (S (String.length s)) s).
    apply In_star_iff. now left.
  - change (run (Star r) s) with (star (run r) (S (String.length s)) s).
    apply In_star_iff. right. exists m1, m2. repeat split; try assumption.
    (* the tail was matched with its own fuel; any larger fuel finds it too *)
    pose proof (Matches_progress _ _ _ H1 E) as Hlt.
    change (run (Star r) (rest m1)) with
      (star (run r) (S (String.length (rest m1))) (rest m1)) in IH2.
    clear - IH2 Hlt.
    assert (mono : forall fuel s' m', In m' (star (run r) fuel s') ->
                                      In m' (star (run r) (S fuel) s')).
    { induction fuel as [|fuel IHf]; intros s' m' H.
      - destruct H as [<-|[]]. apply In_star_iff. now left.
      - apply In_star_iff in H as [->|(a & b & Ha & Ea & Hb & ->)];
          apply In_star_iff; [now left|right].
        exists a, b. repeat split; auto. }
    remember (S (String.length (rest m1))) as f0.
    assert (f0 <= String.length s) as Hle by lia.
    revert IH2. clear Heqf0 Hlt.
    induction Hle as [|n Hle IHle]; [trivial|].
    intros H. apply mono. now apply IHle.
  - simpl. now apply in_map.
  - now left.
Qed.

(** The matcher finds exactly the matches of the declarative reading. *)
Lemma run_Matches (r : regex) (s : string) (m : Match) :
  In m (run r s) <-> Matches r s m.
Proof. split; [apply run_sound | apply run_complete]. Qed.

Lemma test_Matches (r : regex) (s : string) :
  test r s = true <-> exists m, Matches r s m.
Proof.
  unfold test, exec. split.
  - destruct (run r s) as [|m l] eqn:E; [discriminate|].
    intros _. exists m. apply run_Matches. rewrite E. now left.
  - intros [m H]. apply run_Matches in H.
    destruct (run r s); [destruct H|reflexivity].
Qed.

Lemma exec_Matches (r : regex) (s : string) (m : Match) :
  exec r s = Some m -> Matches r s m.
Proof.
  unfold exec. intros H. apply run_Matches.
  destruct (run r s); [discriminate|]. injection H as ->. now left.
Qed.

Lemma Matches_Star_Class (p : ascii -> bool) (s : string) (m : Match) :
  Matches (Star (Class p)) s m ->
  sforall p (matched m) = true /\ groups m = [].
Proof.
  intros H. apply run_Matches in H. rewrite run_Star_Class in H.
  apply in_map_iff in H as ([a b] & <- & H). apply In_splits in H as [_ Ha].
  now split.
Qed.

Lemma Matches_Class (p : ascii -> bool) (s : string) (m : Match) :
  Matches (Class p) s m ->
  exists c, p c = true /\ s = String c (rest m) /\ matched m = String c ""
            /\ groups m = [].
Proof. intros H. inversion H; subst. now exists c. Qed.

Lemma Matches_Plus_Class (p : ascii -> bool) (s : string) (m : Match) :
  Matches (Plus (Class p)) s m ->
  sforall p (matched m) = true /\ isEmpty (matched m) = false /\ groups m = [].
Proof.
  intros H. inversion H as [| |r1 r2 s0 m1 m2 H1 H2| | | | | |]; subst.
  apply Matches_Class in H1 as (c & Hc & _ & Hm1 & Hg1).
  apply Matches_Star_Class in H2 as [Hm2 Hg2].
  simpl. rewrite Hm1, Hg1, Hg2. simpl. now rewrite Hc, Hm2.
Qed.

Lemma Plus_Class_Matches (p : ascii -> bool) (a b : string) :
  isEmpty a = false -> sforall p a = true ->
  Matches (Plus (Class p)) (a ++ b) (mkMatch [] a b).
Proof.
  intros Ha Hp. destruct a as [|c a]; [discriminate|].
  simpl in Hp. apply andb_true_iff in Hp as [Hc Hp].
  change (mkMatch [] (String c a) b) with
    (after (mkMatch [] (String c "") (a ++ b)) (mkMatch [] a b)).
  apply MSeq; [now constructor|]. simpl.
  apply run_Matches. rewrite run_Star_Class.
  change (mkMatch [] a b) with (splitMatch (a, b)). apply in_map.
  apply In_splits. now split.
Qed.

Lemma lit_Matches (c : ascii) (s : string) :
  Matches (lit c) (String c s) (mkMatch [] (String c "") s).
Proof. constructor. unfold isChar. apply Ascii.eqb_refl. Qed.

Lemma Matches_lit (x : ascii) (s : string) (m : Match) :
  Matches (lit x) s m ->
  s = String x (rest m) /\ matched m = String x "" /\ groups m = [].
Proof.
  intros H. apply Matches_Class in H as (c & Hc & Hs & Hm & Hg).
  apply isChar_true in Hc. subst c. now repeat split.
Qed.

Lemma Matches_End (s : string) (m : Match) :
  Matches End s m -> s = "" /\ matched m = "" /\ rest m = "" /\ groups m = [].
Proof. intros H. inversion H. now repeat split. Qed.

(** ** [toSlug] *)

Lemma sfilter_ext (p q : ascii -> bool) (s : string) :
  (forall c, p c = q c) -> sfilter p s = sfilter q s.
Proof.
  intros H. induction s as [|c s IH]; simpl; [reflexivity|].
  now rewrite H, IH.
Qed.

(** The three replacements of [toSlug] are the three steps the
    specification names, applied to the lower-cased, trimmed value. *)
Lemma toSlug_slugOf (value : string) : toSlug value = slugOf (trim value).
Proof.
  unfold toSlug, slugOf, hyphenRun, whiteSpaceRun, notSlugSource, lit.
  rewrite !replaceAll_Plus_Class, replaceAll_Class, trim_toLowerCase.
  do 2 f_equal. apply sfilter_ext. intros c. apply negb_involutive.
Qed.

Lemma sforall_squeeze (q p : ascii -> bool) (rep s : string) :
  sforall q rep = true -> sforall q s = true -> sforall q (squeeze p rep s) = true.
Proof.
  intros Hrep. induction s as [|c s IH]; [reflexivity|].
  cbn [squeeze sforall]. intros H. apply andb_true_iff in H as [Hc Hs].
  destruct (p c).
  - destruct (startsWith p s); [now apply IH|].
    rewrite sforall_append, Hrep. now apply IH.
  - simpl. now rewrite Hc, IH.
Qed.

Lemma squeeze_space_chars (s : string) :
  sforall isSlugSource s = true ->
  sforall isSlugChar (squeeze isWhiteSpace "-" s) = true.
Proof.
  induction s as [|c s IH]; [reflexivity|].
  cbn [squeeze sforall]. intros H. apply andb_true_iff in H as [Hc Hs].
  destruct (isWhiteSpace c) eqn:Hw.
  - destruct (startsWith isWhiteSpace s); [now apply IH|].
    simpl. now apply IH.
  - simpl. now rewrite (isSlugSource_cases c Hc Hw), IH.
Qed.

Lemma slugOf_chars (t : string) : sforall isSlugChar (slugOf t) = true.
Proof.
  unfold slugOf. apply sforall_squeeze; [reflexivity|].
  apply squeeze_space_chars, sforall_sfilter.
Qed.

Lemma slugOf_noRun (t : string) : noRun (isChar "-") (slugOf t) = true.
Proof. unfold slugOf. now apply noRun_squeeze. Qed.

(** A string of slug characters without doubled hyphens is its own slug. *)
Lemma toSlug_fixed (y : string) :
  sforall isSlugChar y = true -> noRun (isChar "-") y = true -> toSlug y = y.
Proof.
  intros Hchars Hrun.
  assert (sforall (fun c => negb (isWhiteSpace c)) y = true) as Hns.
  { apply (sforall_impl isSlugChar); [|assumption].
    intros c Hc. now rewrite (isSlugChar_not_space c Hc). }
  rewrite toSlug_slugOf, (trim_no_space y Hns). unfold slugOf.
  rewrite (toLowerCase_fixed y Hchars).
  rewrite sfilter_all by (apply (sforall_impl isSlugChar); auto using isSlugChar_source).
  rewrite (squeeze_none isWhiteSpace "-" y Hns).
  apply squeeze_noRun; [apply isChar_true | assumption].
Qed.

Lemma toSlug_none (t : string) :
  sforall (fun c => negb (isSlugSource c)) (toLowerCase t) = true -> toSlug t = "".
Proof.
  intros H. rewrite toSlug_slugOf. unfold slugOf.
  rewrite <- trim_toLowerCase.
  now rewrite sfilter_none by now apply sforall_trim.
Qed.

(** C5.  Slug derivation is idempotent: for every string [x],
    [toSlug (toSlug x)] equals [toSlug x]. *)
Theorem toSlug_idempotent (x : string) : toSlug (toSlug x) = toSlug x.
Proof.
  apply toSlug_fixed; rewrite toSlug_slugOf.
  - apply slugOf_chars.
  - apply slugOf_noRun.
Qed.

(** ** The Event hook *)

Import Event.

Lemma StringField_eqb_eq (f g : StringField) : StringField_eqb f g = true <-> f = g.
Proof.
  split; [|intros ->; destruct g; reflexivity].
  destruct f, g; intros H; try reflexivity; vm_compute in H; discriminate.
Qed.

Lemma StringField_eq_dec (f g : StringField) : {f = g} + {f <> g}.
Proof. decide equality. Defined.

Lemma fields_setField_same (d : EventDocument) (f : StringField) (v : value) :
  fields (setField d f v) f = v.
Proof. simpl. now rewrite (proj2 (StringField_eqb_eq f f) eq_refl). Qed.

Lemma fields_setField_other (d : EventDocument) (f g : StringField) (v : value) :
  g <> f -> fields (setField d f v) g = fields d g.
Proof.
  intros Hne. simpl. destruct (StringField_eqb g f) eqn:E; [|reflexivity].
  now apply StringField_eqb_eq in E.
Qed.

Lemma requireString_Ok (d d' : EventDocument) (f : StringField) :
  requireString d f = Ok d' ->
  exists v, fields d f = VString v /\ isEmpty (trim v) = false
            /\ d' = setField d f (VString (trim v)).
Proof.
  unfold requireString. destruct (fields d f) as [| | | |v]; try discriminate.
  destruct (isEmpty (trim v)) eqn:E; [discriminate|].
  intros H. inversion H. now exists v.
Qed.

(** The loop leaves every path it visits trimmed and non-empty, and touches
    nothing else. *)
Lemma forEachField_spec (fs : list StringField) (d d1 : EventDocument) :
  forEachField fs d = Ok d1 ->
  agenda d1 = agenda d /\ tags d1 = tags d /\ slug d1 = slug d
  /\ isModified d1 = isModified d
  /\ forall f,
       (In f fs -> exists v, fields d f = VString v /\ isEmpty (trim v) = false
                             /\ fields d1 f = VString (trim v))
       /\ (~ In f fs -> fields d1 f = fields d f).
Proof.
  revert d. induction fs as [|f0 fs IH]; intros d H; simpl in H.
  - inversion H; subst. repeat split; try reflexivity; intros [].
  - destruct (requireString d f0) as [d'|] eqn:E; [|discriminate]. simpl in H.
    apply requireString_Ok in E as (v0 & Hv0 & Hne0 & ->).
    apply IH in H as (Ha & Ht & Hs & Hm & Hf).
    repeat split; try assumption.
    + intros Hin. destruct (in_dec StringField_eq_dec f fs) as [Hfs|Hfs].
      * destruct (proj1 (Hf f) Hfs) as (v & Hv & Hne & Hv1).
        destruct (StringField_eq_dec f f0) as [->|Hneq].
        -- rewrite fields_setField_same in Hv. inversion Hv; subst v.
           exists v0. rewrite trim_idem in Hv1. now rewrite trim_idem in Hne.
        -- rewrite fields_setField_other in Hv by assumption. now exists v.
      * destruct Hin as [<-|Hin]; [|contradiction].
        rewrite (proj2 (Hf f0) Hfs), fields_setField_same. now exists v0.
    + intros Hnot. rewrite (proj2 (Hf f)) by (intros Hin; apply Hnot; now right).
      apply fields_setField_other. intros ->. apply Hnot. now left.
Qed.

Lemma stringFields_all (f : StringField) : In f stringFields.
Proof. destruct f; simpl; tauto. Qed.

Lemma mapAgenda_spec (items : list value) :
  mapAgenda items =
  if forallb isString items then Ok (map (fun v => trim (str v)) items)
  else Throw "agenda must contain strings.".
Proof.
  induction items as [|v items IH]; [reflexivity|].
  destruct v; try reflexivity. simpl. rewrite IH.
  now destruct (forallb isString items).
Qed.

Lemma mapTags_spec (items : list value) :
  mapTags items =
  if forallb isString items then Ok (map (fun v => trim (str v)) items)
  else Throw "tags must contain strings.".
Proof.
  induction items as [|v items IH]; [reflexivity|].
  destruct v; try reflexivity. simpl. rewrite IH.
  now destruct (forallb isString items).
Qed.

(** The hook is its steps in order: the string paths, the agenda, the tags,
    the date, the time and the slug. *)
Lemma handleNormalize_steps (engine : string -> option Z) (d : EventDocument) :
  handleNormalize engine d =
  (d1 <- forEachField stringFields d ;;
   a <- normalizeList "agenda" (agenda d1) ;;
   t <- normalizeList "tags" (tags d1) ;;
   dt <- normalizeDate engine (str (fields d1 date)) ;;
   tm <- normalizeTime (str (fields d1 time)) ;;
   Ok (normalizedEvent d1 a t dt tm)).
Proof.
  unfold handleNormalize, normalizedEvent.
  destruct (forEachField stringFields d) as [d1|msg]; [|reflexivity].
  cbn [bind]. rewrite mapAgenda_spec. unfold normalizeList.
  destruct (forallb isString (orEmpty (agenda d1))); [|reflexivity].
  cbn [bind]. destruct (filter nonEmpty _) as [|a0 a]; [reflexivity|].
  cbn [List.length Nat.eqb bind]. cbn [tags setAgenda].
  rewrite mapTags_spec.
  destruct (forallb isString (orEmpty (tags d1))); [|reflexivity].
  cbn [bind]. destruct (filter nonEmpty _) as [|t0 t]; [reflexivity|].
  cbn [List.length Nat.eqb bind].
  change (fields (setTags (setAgenda d1 (a0 :: a)) (t0 :: t)) date)
    with (fields d1 date).
  destruct (normalizeDate engine (str (fields d1 date))) as [dt|msg]; [|reflexivity].
  cbn [bind].
  change (fields (setField (setTags (setAgenda d1 (a0 :: a)) (t0 :: t)) date (VString dt)) time)
    with (fields d1 time).
  destruct (normalizeTime (str (fields d1 time))) as [tm|msg]; [|reflexivity].
  cbn [bind].
  change (slugUnset (slug d1) || titleChanged d1)
    with (slugUnset (slug (setField (setField (setTags (setAgenda d1 (a0 :: a)) (t0 :: t))
                           date (VString dt)) time (VString tm)))
          || titleChanged (setField (setField (setTags (setAgenda d1 (a0 :: a)) (t0 :: t))
                           date (VString dt)) time (VString tm))).
  now destruct (slugUnset _ || titleChanged _).
Qed.


Lemma normalizeList_kept (name : string) (items : option (list value)) :
  normalizeList name items =
  if forallb isString (orEmpty items) then
    match kept items with
    | [] => Throw (name ++ " is required and must be a non-empty array.")%string
    | _ => Ok (kept items)
    end
  else Throw (name ++ " must contain strings.")%string.
Proof.
  unfold normalizeList, kept.
  destruct (forallb isString (orEmpty items)); [|reflexivity].
  now destruct (filter nonEmpty _).
Qed.

Lemma agenda_normalizedEvent (d1 : EventDocument) (a t : list string) (dt tm : string) :
  agenda (normalizedEvent d1 a t dt tm) = Some (map VString a)
  /\ tags (normalizedEvent d1 a t dt tm) = Some (map VString t).
Proof.
  unfold normalizedEvent. now destruct (slugUnset (slug d1) || titleChanged d1).
Qed.



Lemma handleNormalize_Ok (engine : string -> option Z) (d d' : EventDocument) :
  handleNormalize engine d = Ok d' ->
  exists d1 a t dt tm,
    forEachField stringFields d = Ok d1
    /\ normalizeList "agenda" (agenda d1) = Ok a
    /\ normalizeList "tags" (tags d1) = Ok t
    /\ normalizeDate engine (str (fields d1 date)) = Ok dt
    /\ normalizeTime (str (fields d1 time)) = Ok tm
    /\ d' = normalizedEvent d1 a t dt tm.
Proof.
  rewrite handleNormalize_steps.
  destruct (forEachField stringFields d) as [d1|] eqn:E1; [|discriminate]. cbn [bind].
  destruct (normalizeList "agenda" (agenda d1)) as [a|] eqn:E2; [|discriminate]. cbn [bind].
  destruct (normalizeList "tags" (tags d1)) as [t|] eqn:E3; [|discriminate]. cbn [bind].
  destruct (normalizeDate engine _) as [dt|] eqn:E4; [|discriminate]. cbn [bind].
  destruct (normalizeTime _) as [tm|] eqn:E5; [|discriminate]. cbn [bind].
  intros H. injection H as <-. exists d1, a, t, dt, tm.
  split; [reflexivity|]. split; [exact E2|]. split; [exact E3|].
  split; [exact E4|]. split; [exact E5|reflexivity].
Qed.

Lemma title_normalizedEvent (d1 : EventDocument) (a t : list string) (dt tm : string) :
  fields (normalizedEvent d1 a t dt tm) title = fields d1 title
  /\ slug (normalizedEvent d1 a t dt tm)
     = if slugUnset (slug d1) || titleChanged d1
       then Some (toSlug (str (fields d1 title))) else slug d1.
Proof.
  unfold normalizedEvent. now destruct (slugUnset (slug d1) || titleChanged d1).
Qed.

(** What a successful save does to the title and the slug. *)
Lemma handleNormalize_slug (engine : string -> option Z) (d d' : EventDocument) :
  handleNormalize engine d = Ok d' ->
  exists v,
    fields d title = VString v
    /\ isEmpty (trim v) = false
    /\ fields d' title = VString (trim v)
    /\ slug d' = if slugUnset (slug d) || titleChanged d
                 then Some (toSlug (trim v)) else slug d.
Proof.
  intros H. apply handleNormalize_Ok in H as (d1 & a & t & dt & tm & H1 & _ & _ & _ & _ & ->).
  destruct (forEachField_spec _ _ _ H1) as (_ & _ & Hs & Hm & Hf).
  destruct (proj1 (Hf title) (stringFields_all title)) as (v & Hv & Hne & Hv1).
  destruct (title_normalizedEvent d1 a t dt tm) as [Ht Hslug].
  exists v. rewrite Ht, Hslug, Hv1, Hs. unfold titleChanged. rewrite Hm.
  split; [exact Hv|]. split; [exact Hne|]. split; reflexivity.
Qed.



Lemma stripped_title_empty_slug
  (engine : string -> option Z) (d d' : EventDocument) (v : string) :
  fields d title = VString v -> strippedAway v = true ->
  slugUnset (slug d) || titleChanged d = true ->
  handleNormalize engine d = Ok d' -> slug d' = Some "".
Proof.
  intros Hv Hstripped Hcond H.
  apply handleNormalize_slug in H as (v' & Hv' & _ & _ & Hslug).
  rewrite Hv in Hv'. injection Hv' as <-.
  rewrite Hslug, Hcond. f_equal. apply toSlug_none.
  unfold strippedAway in *. rewrite <- trim_toLowerCase.
  apply sforall_trim. exact Hstripped.
Qed.

Lemma same_slug_collides
  (engine : string -> option Z) (events events' : list EventDocument)
  (d1 d2 d1' d2' : EventDocument) (s : string) :
  save engine events d1 = Written events' ->
  handleNormalize engine d1 = Ok d1' -> slug d1' = Some s ->
  handleNormalize engine d2 = Ok d2' -> slug d2' = Some s ->
  save engine events' d2 = DuplicateKey "slug_1".
Proof.
  intros Hsave H1 Hs1 H2 Hs2.
  unfold save in *. rewrite H1 in Hsave. rewrite H2.
  unfold insertOne in *.
  destruct (existsb _ events); [discriminate|].
  injection Hsave as <-. simpl. rewrite Hs1, Hs2. simpl.
  now rewrite String.eqb_refl.
Qed.

(** C10.  Every title made only of characters that lie outside
    [[a-z0-9\s-]] after lower-casing has the empty slug; "!!!" is such a
    title, non-empty and within the [maxlength] of the title, and whatever
    the engine the hook accepts an event carrying it and gives it the slug
    ""; every new or retitled event with such a title leaves the hook with
    the empty slug; and any two events that leave the hook with the empty
    slug collide on the unique index of the slug: once the first is written,
    saving the second is refused with a duplicate key on [slug_1], as it is
    for the events titled "!!!" and "???". *)
Theorem empty_slug_collides (engine : string -> option Z) :
  (forall t, strippedAway t = true -> toSlug t = "")
  /\ (strippedAway "!!!" = true
      /\ isEmpty (trim "!!!") = false
      /\ String.length "!!!" <= maxlength title
      /\ match handleNormalize engine (sampleEvent "!!!") with
         | Ok d' => slug d' = Some ""
         | Throw _ => False
         end)
  /\ (forall d d' v,
        fields d title = VString v -> strippedAway v = true ->
        slugUnset (slug d) || titleChanged d = true ->
        handleNormalize engine d = Ok d' -> slug d' = Some "")
  /\ (forall events events' d1 d2 d2',
        save engine events d1 = Written events' ->
        (exists d1', handleNormalize engine d1 = Ok d1' /\ slug d1' = Some "") ->
        handleNormalize engine d2 = Ok d2' -> slug d2' = Some "" ->
        save engine events' d2 = DuplicateKey "slug_1")
  /\ match save engine [] (sampleEvent "!!!") with
     | Written events' =>
         save engine events' (sampleEvent "???") = DuplicateKey "slug_1"
     | _ => False
     end.
Proof.
  assert (forall t, strippedAway t = true ->
                    match handleNormalize engine (sampleEvent t) with
                    | Ok d' => slug d' = Some ""
                    | Throw _ => True
                    end) as Hsample.
  { intros t Ht. destruct (handleNormalize engine (sampleEvent t)) as [d'|] eqn:E;
      [|exact I].
    apply (stripped_title_empty_slug engine (sampleEvent t) d' t);
      [reflexivity | exact Ht | reflexivity | exact E]. }
  split; [exact toSlug_none|]. split; [|split; [|split]].
  - split; [reflexivity|]. split; [reflexivity|]. split; [simpl; lia|].
    pose proof (Hsample "!!!" eq_refl) as H.
    destruct (handleNormalize engine (sampleEvent "!!!")) as [d'|msg] eqn:E;
      [exact H|vm_compute in E; discriminate E].
  - apply stripped_title_empty_slug.
  - intros events events' d1 d2 d2' Hsave (d1' & H1 & Hs1) H2 Hs2.
    exact (same_slug_collides engine events events' d1 d2 d1' d2' "" Hsave H1 Hs1 H2 Hs2).
  - pose proof (Hsample "!!!" eq_refl) as H1. pose proof (Hsample "???" eq_refl) as H2.
    destruct (handleNormalize engine (sampleEvent "!!!")) as [d1'|msg] eqn:E1;
      [|vm_compute in E1; discriminate E1].
    destruct (handleNormalize engine (sampleEvent "???")) as [d2'|msg] eqn:E2;
      [|vm_compute in E2; discriminate E2].
    assert (save engine [] (sampleEvent "!!!") = Written [d1']) as Hsave
      by (unfold save; rewrite E1; reflexivity).
    rewrite Hsave.
    exact (same_slug_collides engine [] [d1'] _ _ d1' d2' "" Hsave E1 H1 E2 H2).
Qed.

(** ** The cached connection *)

Section ConnectionFacts.

Context {Mongoose : Type}.

Lemma connectToDatabase_unset (w : @Db.Process Mongoose) :
  Db.unset (Db.MONGODB_URI w) = true ->
  Db.connectToDatabase w
  = (Db.Threw "MONGODB_URI environment variable is not set.", w).
Proof.
  unfold Db.connectToDatabase, Db.unset.
  destruct (Db.MONGODB_URI w) as [[|c uri]|]; [reflexivity|discriminate|reflexivity].
Qed.

Lemma connectToDatabase_cached (w : @Db.Process Mongoose) (c : Mongoose) :
  Db.unset (Db.MONGODB_URI w) = false ->
  Db.conn (Db.cached w) = Some c ->
  Db.connectToDatabase w = (Db.Returned c, w).
Proof.
  unfold Db.connectToDatabase, Db.unset.
  destruct (Db.MONGODB_URI w) as [[|x uri]|]; try discriminate.
  now intros _ ->.
Qed.

Lemma connectToDatabase_Threw (w w' : @Db.Process Mongoose) (msg : string) :
  Db.connectToDatabase w = (Db.Threw msg, w') ->
  Db.unset (Db.MONGODB_URI w) = true
  /\ msg = "MONGODB_URI environment variable is not set." /\ w' = w.
Proof.
  unfold Db.connectToDatabase, Db.unset.
  destruct (Db.MONGODB_URI w) as [[|x uri]|].
  - intros H. injection H as <- <-. now repeat split.
  - destruct (Db.conn (Db.cached w)); [discriminate|].
    destruct (Db.promise (Db.cached w)); discriminate.
  - intros H. injection H as <- <-. now repeat split.
Qed.

(** A call that finds nothing cached and nothing pending starts exactly one
    establishment, with the fixed options, and is suspended on it. *)
Lemma connectToDatabase_starts (w : @Db.Process Mongoose) (uri : string) :
  Db.MONGODB_URI w = Some uri -> isEmpty uri = false ->
  Db.conn (Db.cached w) = None -> Db.promise (Db.cached w) = None ->
  Db.options = Db.mkOptions false 10 15000
  /\ Db.connectToDatabase w
     = (Db.Awaiting (List.length (Db.connectCalls w)),
        Db.mkProcess (Some uri)
          (Db.mkCache None (Some (List.length (Db.connectCalls w))))
          (Db.connectCalls w ++ [(uri, Db.options)]) (Db.strictQuery w)).
Proof.
  intros Hu Hne Hc Hp. split; [reflexivity|].
  unfold Db.connectToDatabase. rewrite Hu, Hc, Hp.
  destruct uri as [|x uri]; [discriminate|reflexivity].
Qed.

(** A call that finds an establishment pending awaits it and starts none. *)
Lemma connectToDatabase_joins (w : @Db.Process Mongoose) (p : nat) :
  Db.unset (Db.MONGODB_URI w) = false ->
  Db.conn (Db.cached w) = None -> Db.promise (Db.cached w) = Some p ->
  Db.connectToDatabase w = (Db.Awaiting p, w).
Proof.
  unfold Db.connectToDatabase, Db.unset.
  destruct (Db.MONGODB_URI w) as [[|x uri]|]; try discriminate.
  now intros _ -> ->.
Qed.

(** Two callers that arrive before anything is cached share one
    establishment: the first starts it, the second awaits the same promise,
    and [mongoose.connect] has been called once. *)
Lemma two_callers_one_establishment (w : @Db.Process Mongoose) (uri : string) :
  Db.MONGODB_URI w = Some uri -> isEmpty uri = false ->
  Db.conn (Db.cached w) = None -> Db.promise (Db.cached w) = None ->
  exists w1,
    Db.connectToDatabase w = (Db.Awaiting (List.length (Db.connectCalls w)), w1)
    /\ Db.connectToDatabase w1 = (Db.Awaiting (List.length (Db.connectCalls w)), w1)
    /\ Db.connectCalls w1 = Db.connectCalls w ++ [(uri, Db.options)].
Proof.
  intros Hu Hne Hc Hp.
  destruct (connectToDatabase_starts w uri Hu Hne Hc Hp) as [_ E].
  eexists. split; [exact E|]. split; [|reflexivity].
  apply connectToDatabase_joins; [|reflexivity|reflexivity].
  cbn [Db.MONGODB_URI Db.unset]. exact Hne.
Qed.

(** Once the promise is fulfilled and a suspended caller has resumed, the
    connection is live and the next call returns it without suspension. *)
Lemma resumed_connection_is_reused (w : @Db.Process Mongoose) (m : Mongoose) :
  Db.unset (Db.MONGODB_URI w) = false ->
  let w' := snd (Db.resume (Db.settle w (Ok m)) (Ok m)) in
  fst (Db.resume (Db.settle w (Ok m)) (Ok m)) = Db.Returned m
  /\ Db.strictQuery w' = true
  /\ Db.connectToDatabase w' = (Db.Returned m, w').
Proof.
  intros Hu. cbn [Db.resume Db.settle fst snd]. repeat split.
  apply connectToDatabase_cached; [exact Hu | reflexivity].
Qed.

(** A failed establishment clears the pending slot and caches nothing, so
    the next call starts a new one. *)
Lemma failed_establishment_can_be_retried
  (w : @Db.Process Mongoose) (uri e : string) :
  Db.MONGODB_URI w = Some uri -> isEmpty uri = false ->
  Db.conn (Db.cached w) = None ->
  let w' := Db.settle w (Throw e) in
  Db.resume w' (Throw e) = (Db.Threw e, w')
  /\ fst (Db.connectToDatabase w') = Db.Awaiting (List.length (Db.connectCalls w)).
Proof.
  intros Hu Hne Hc. cbn [Db.settle Db.resume]. split; [reflexivity|].
  unfold Db.connectToDatabase.
  cbn [Db.MONGODB_URI Db.cached Db.conn Db.promise Db.connectCalls].
  rewrite Hu, Hc. destruct uri as [|x uri]; [discriminate|]. reflexivity.
Qed.

End ConnectionFacts.

(** C9, as the code has it.  Every call reads and checks the connection
    string first: while it is absent (or empty) the call throws the
    missing-configuration error and changes nothing, also when a live
    connection is cached; while it is present, a call that finds a live
    connection cached returns that connection without suspension and
    without starting an establishment; and the call throws nothing else
    before its first suspension point. *)
Theorem connect_checks_configuration_first
  (Mongoose : Type) (w : @Db.Process Mongoose) :
  (Db.unset (Db.MONGODB_URI w) = true ->
   Db.connectToDatabase w
   = (Db.Threw "MONGODB_URI environment variable is not set.", w))
  /\ (Db.unset (Db.MONGODB_URI w) = false ->
      forall c, Db.conn (Db.cached w) = Some c ->
                Db.connectToDatabase w = (Db.Returned c, w))
  /\ (forall msg w', Db.connectToDatabase w = (Db.Threw msg, w') ->
        Db.unset (Db.MONGODB_URI w) = true
        /\ msg = "MONGODB_URI environment variable is not set." /\ w' = w).
Proof.
  split; [apply connectToDatabase_unset|].
  split; [intros H c; now apply connectToDatabase_cached|].
  intros msg w'. apply connectToDatabase_Threw.
Qed.

(** C9 as stated fails: with a live connection cached and the connection
    string absent, the call throws instead of returning the connection;
    with the string present it returns it. *)
Lemma cached_connection_not_returned_without_uri :
  Db.conn (Db.cached liveWithoutUri) = Some 1
  /\ Db.connectToDatabase liveWithoutUri
     = (Db.Threw "MONGODB_URI environment variable is not set.", liveWithoutUri)
  /\ Db.connectToDatabase liveWithUri = (Db.Returned 1, liveWithUri)
  /\ ~ (forall (w : @Db.Process nat) (c : nat),
          Db.conn (Db.cached w) = Some c ->
          fst (Db.connectToDatabase w) = Db.Returned c).
Proof.
  split; [reflexivity|]. split; [reflexivity|]. split; [reflexivity|].
  intros H. specialize (H liveWithoutUri 1 eq_refl). discriminate H.
Qed.

(** ** The Booking hook *)

Lemma isValidEmail_shape (e : string) :
  Booking.isValidEmail e = true <-> emailShape e.
Proof.
  unfold Booking.isValidEmail. rewrite test_Matches.
  unfold Booking.emailPattern. cbn [cat]. split.
  - intros [m H].
    inversion H as [| |? ? ? m1 r1 H1 T1| | | | | |]; subst; clear H.
    inversion T1 as [| |? ? ? m2 r2 H2 T2| | | | | |]; subst; clear T1.
    inversion T2 as [| |? ? ? m3 r3 H3 T3| | | | | |]; subst; clear T2.
    inversion T3 as [| |? ? ? m4 r4 H4 T4| | | | | |]; subst; clear T3.
    inversion T4 as [| |? ? ? m5 r5 H5 T5| | | | | |]; subst; clear T4.
    pose proof (Matches_split _ _ _ H1) as S1.
    pose proof (Matches_split _ _ _ H3) as S3.
    pose proof (Matches_split _ _ _ H5) as S5.
    apply Matches_Plus_Class in H1 as (P1 & E1 & _).
    apply Matches_Plus_Class in H3 as (P3 & E3 & _).
    apply Matches_Plus_Class in H5 as (P5 & E5 & _).
    apply Matches_lit in H2 as (S2 & _).
    apply Matches_lit in H4 as (S4 & _).
    apply Matches_End in T5 as (S6 & _).
    exists (matched m1), (matched m3), (matched m5).
    repeat split; try assumption.
    rewrite S1 at 1. rewrite S2, S3, S4, S5, S6. simpl.
    now rewrite append_empty_r.
  - intros (l & d1 & d2 & -> & El & E1 & E2 & Pl & P1 & P2).
    replace (l ++ "@" ++ d1 ++ "." ++ d2)%string
      with (l ++ "@" ++ d1 ++ "." ++ (d2 ++ ""))%string
      by now rewrite append_empty_r.
    eexists.
    eapply MSeq; [apply (Plus_Class_Matches _ l _ El Pl)|]. cbn [rest append].
    eapply MSeq; [apply lit_Matches|]. cbn [rest].
    eapply MSeq; [apply (Plus_Class_Matches _ d1 _ E1 P1)|]. cbn [rest append].
    eapply MSeq; [apply lit_Matches|]. cbn [rest].
    eapply MSeq; [apply (Plus_Class_Matches _ d2 _ E2 P2)|]. cbn [rest].
    constructor.
Qed.

Lemma emailShape_loose (e : string) : emailShape e -> looseEmailShape e.
Proof.
  intros (l & d1 & d2 & -> & _ & _ & _ & Pl & P1 & P2).
  assert (forall c, Booking.notSpaceOrAt c = true -> negb (isWhiteSpace c) = true) as Hns.
  { intros c. unfold Booking.notSpaceOrAt. rewrite negb_orb, andb_true_iff. tauto. }
  exists l, (d1 ++ "." ++ d2)%string. repeat split; try assumption.
  - rewrite sforall_append. simpl.
    rewrite (sforall_impl _ _ d1 Hns P1), (sforall_impl _ _ d2 Hns P2). reflexivity.
  - rewrite sforall_append. simpl. apply andb_false_r.
Qed.

Section BookingFacts.

Context {ObjectId : Type}.
Variable isValid : ObjectId -> bool.
Variable eventExists : ObjectId -> bool.

Lemma validateBooking_after_checks (this : Booking.BookingDocument) :
  earlierChecksPass isValid this = true ->
  Booking.validateBooking isValid this =
  if Booking.isNew this || Booking.isModified this "eventId"
  then Booking.AwaitExists (Booking.eventId this)
         (fun found =>
            if negb found
            then Booking.Done (Throw "Referenced event does not exist.")
            else Booking.Done (Ok tt))
  else Booking.Done (Ok tt).
Proof.
  unfold earlierChecksPass, Booking.validateBooking, Booking.isValidObjectId.
  destruct (Booking.email this) as [| | | |e]; try discriminate.
  intros H. apply andb_true_iff in H as [H H3]. apply andb_true_iff in H as [H1 H2].
  apply negb_true_iff in H1. rewrite H1, H2, H3. reflexivity.
Qed.

Lemma validateBooking_before_lookup (this : Booking.BookingDocument) :
  earlierChecksPass isValid this = false ->
  exists msg, Booking.validateBooking isValid this = Booking.Done (Throw msg).
Proof.
  unfold earlierChecksPass, Booking.validateBooking, Booking.isValidObjectId.
  destruct (Booking.email this) as [| | | |e]; try (intros _; eexists; reflexivity).
  destruct (isEmpty (trim e)); [intros _; eexists; reflexivity|].
  destruct (Booking.isValidEmail e); [|intros _; eexists; reflexivity].
  destruct (isValid (Booking.eventId this)); [discriminate|].
  intros _; eexists; reflexivity.
Qed.

(** No lookup is made on any save but one of a new document or one that
    changes [eventId]. *)
Lemma lookup_only_when_new_or_changed (this : Booking.BookingDocument) :
  snd (Booking.runHook eventExists (Booking.validateBooking isValid this)) <> [] ->
  Booking.isNew this || Booking.isModified this "eventId" = true.
Proof.
  destruct (earlierChecksPass isValid this) eqn:E.
  - rewrite (validateBooking_after_checks this E).
    destruct (Booking.isNew this || Booking.isModified this "eventId");
      [reflexivity|]. simpl. intros H. now contradiction H.
  - destruct (validateBooking_before_lookup this E) as [msg ->].
    simpl. intros H. now contradiction H.
Qed.

End BookingFacts.



Lemma save_Ok (ObjectId : Type) (isValid eventExists : ObjectId -> bool)
  (this d : @Booking.BookingDocument ObjectId) :
  Booking.save isValid eventExists this = Ok d ->
  d = this
  /\ exists e, Booking.email this = VString e /\ isEmpty (trim e) = false
               /\ Booking.isValidEmail e = true.
Proof.
  unfold Booking.save, Booking.validateBooking.
  destruct (Booking.email this) as [| | | |e]; try discriminate.
  destruct (isEmpty (trim e)) eqn:E1; [discriminate|].
  destruct (Booking.isValidEmail e) eqn:E2; [|discriminate].
  intros H. split; [|now exists e].
  destruct (fst (Booking.runHook eventExists _)); [|discriminate].
  simpl in H. now injection H as <-.
Qed.

(** C7.  On every save of a booking: unless the e-mail is a string that is
    non-empty after trimming, the hook throws "email is required and must
    be a non-empty string."; unless it has the shape local@domain, the local
    part free of whitespace and "@", the domain free of whitespace and
    holding a dot, the hook throws "Invalid email format."; so a booking
    that is saved has such an e-mail; and the e-mail it stores is the input
    trimmed and lower-cased, which is what the schema's setters made of
    it. *)
Theorem booking_email_validated
  (ObjectId : Type) (isValid eventExists : ObjectId -> bool)
  (this : @Booking.BookingDocument ObjectId) :
  ((forall e, Booking.email this = VString e -> isEmpty (trim e) = true) ->
   Booking.validateBooking isValid this
   = Booking.Done (Throw "email is required and must be a non-empty string."))
  /\ (forall e, Booking.email this = VString e -> isEmpty (trim e) = false ->
        ~ looseEmailShape e ->
        Booking.validateBooking isValid this
        = Booking.Done (Throw "Invalid email format."))
  /\ (forall d, Booking.save isValid eventExists this = Ok d ->
        d = this
        /\ exists e, Booking.email this = VString e /\ isEmpty (trim e) = false
                     /\ looseEmailShape e)
  /\ (forall _id input d,
        Booking.save isValid eventExists (Booking.create _id input) = Ok d ->
        Booking.email d = VString (toLowerCase (trim input))).
Proof.
  split; [|split; [|split]].
  - intros H. unfold Booking.validateBooking.
    destruct (Booking.email this) as [| | | |e]; try reflexivity.
    now rewrite (H e eq_refl).
  - intros e He Hne Hshape. unfold Booking.validateBooking. rewrite He, Hne.
    destruct (Booking.isValidEmail e) eqn:E; [|reflexivity].
    contradiction Hshape. now apply emailShape_loose, isValidEmail_shape.
  - intros d H. apply save_Ok in H as (-> & e & He & Hne & Hv).
    split; [reflexivity|]. exists e. repeat split; try assumption.
    now apply emailShape_loose, isValidEmail_shape.
  - intros _id input d H. apply save_Ok in H as (-> & _). reflexivity.
Qed.

Lemma booking_email_validated_witness :
  Booking.save (fun _ => true) onlyEvent7 newBooking = Ok newBooking
  /\ Booking.email newBooking = VString "ada@example.com".
Proof.
  split; [reflexivity|].
  exact (proj2 (proj2 (proj2
    (booking_email_validated nat (fun _ => true) onlyEvent7 newBooking)))
    7 "  Ada@Example.COM " newBooking eq_refl).
Defined.

(** ** [normalizeDate] *)

Lemma normalizeDate_Throw (engine : string -> option Z) (value msg : string) :
  normalizeDate engine value = Throw msg <->
  newDate engine value = None /\ msg = "Invalid date format.".
Proof.
  unfold normalizeDate. destruct (newDate engine value) as [t|]; split.
  - discriminate.
  - intros [H _]. discriminate.
  - intros H. injection H as <-. now split.
  - intros [_ ->]. reflexivity.
Qed.

(** What is stored is the text of the UTC rendering up to its [T]. *)
Lemma normalizeDate_Ok (engine : string -> option Z) (value stored : string) :
  normalizeDate engine value = Ok stored <->
  exists t, newDate engine value = Some t
            /\ stored = takeWhile (fun c => negb (isChar "T" c)) (Date.toISOString t).
Proof.
  unfold normalizeDate. destruct (newDate engine value) as [t|]; split.
  - intros H. injection H as <-. now exists t.
  - intros (t' & H & ->). now injection H as ->.
  - discriminate.
  - intros (t' & H & _). discriminate.
Qed.

Lemma toStringFuel_digits (fuel : nat) (n : N) (acc : string) :
  sforall isDigit acc = true -> sforall isDigit (toStringFuel fuel n acc) = true.
Proof.
  revert n acc. induction fuel as [|fuel IH]; intros n acc Hacc; [exact Hacc|].
  cbn [toStringFuel].
  assert (sforall isDigit (String (digitChar (n mod 10)) acc) = true) as H.
  { cbn [sforall]. rewrite Hacc, digitChar_isDigit; [reflexivity|].
    apply N.mod_lt. discriminate. }
  destruct (n <? 10)%N; [exact H | now apply IH].
Qed.

Lemma pad_digits (width : nat) (n : Z) : sforall isDigit (Date.pad width n) = true.
Proof.
  unfold Date.pad. rewrite sforall_append.
  unfold toString. rewrite toStringFuel_digits by reflexivity.
  rewrite andb_true_r. induction (width - _) as [|k IH]; [reflexivity|exact IH].
Qed.

Lemma isDigit_notT (c : ascii) : isDigit c = true -> notT c = true.
Proof. each_char c. Qed.

Lemma takeWhile_append (p : ascii -> bool) (a b : string) :
  sforall p a = true -> takeWhile p (a ++ b) = (a ++ takeWhile p b)%string.
Proof.
  induction a as [|c a IH]; [reflexivity|]. simpl.
  intros H. apply andb_true_iff in H as [Hc Ha]. now rewrite Hc, IH.
Qed.

(** The date part of an ISO string, for a year from 0 to 9999 *)
Lemma toISOString_date (t : Z) :
  let '(y, m, d) := Date.civilFromDays (t / Date.msPerDay) in
  (0 <= y <= 9999)%Z ->
  takeWhile notT (Date.toISOString t)
  = (Date.pad 4 y ++ "-" ++ Date.pad 2 m ++ "-" ++ Date.pad 2 d)%string.
Proof.
  unfold Date.toISOString.
  destruct (Date.civilFromDays (t / Date.msPerDay)) as [[y m] d].
  intros [Hlo Hhi]. unfold Date.isoYear.
  apply Z.leb_le in Hlo, Hhi. rewrite Hlo, Hhi. cbn [andb].
  assert (forall w n, sforall notT (Date.pad w n) = true) as Hpad.
  { intros w n. apply (sforall_impl isDigit); [exact isDigit_notT | apply pad_digits]. }
  rewrite takeWhile_append by apply Hpad. f_equal.
  cbn [append takeWhile]. change (notT "-") with true. cbn iota.
  rewrite takeWhile_append by apply Hpad. do 2 f_equal.
  cbn [append takeWhile]. change (notT "-") with true. cbn iota.
  rewrite takeWhile_append by apply Hpad.
  cbn [append takeWhile]. change (notT "T") with false. cbn iota.
  now rewrite append_empty_r.
Qed.

(** What is stored is the UTC calendar date of the instant the input
    denotes. *)
Lemma normalizeDate_stores_utc_date
  (engine : string -> option Z) (value : string) (t : Z) :
  newDate engine value = Some t ->
  let '(y, m, d) := Date.civilFromDays (t / Date.msPerDay) in
  (0 <= y <= 9999)%Z ->
  normalizeDate engine value
  = Ok (Date.pad 4 y ++ "-" ++ Date.pad 2 m ++ "-" ++ Date.pad 2 d)%string.
Proof.
  intros H. unfold normalizeDate. rewrite H.
  pose proof (toISOString_date t) as Hd.
  destruct (Date.civilFromDays (t / Date.msPerDay)) as [[y m] d].
  intros Hy. f_equal. exact (Hd Hy).
Qed.

(** An engine that reads "March 5, 2024" as midnight of that day in a zone
    two hours east of UTC, that is as 2024-03-04T22:00:00Z, makes the hook
    store the day before. *)
Lemma normalizeDate_local_midnight (engine : string -> option Z) :
  engine "March 5, 2024" = Some 1709589600000%Z ->
  normalizeDate engine "March 5, 2024" = Ok "2024-03-04".
Proof.
  intros H. unfold normalizeDate, newDate.
  replace (Date.parseDateOnly "March 5, 2024") with (@None Z)
    by (vm_compute; reflexivity).
  replace (Date.parseDateTimeOffset "March 5, 2024") with (@None Z)
    by (vm_compute; reflexivity).
  rewrite H. vm_compute. reflexivity.
Qed.

(** and one that reads it as UTC midnight makes it store the day itself. *)
Lemma normalizeDate_utc_midnight (engine : string -> option Z) :
  engine "March 5, 2024" = Some 1709596800000%Z ->
  normalizeDate engine "March 5, 2024" = Ok "2024-03-05".
Proof.
  intros H. unfold normalizeDate, newDate.
  replace (Date.parseDateOnly "March 5, 2024") with (@None Z)
    by (vm_compute; reflexivity).
  replace (Date.parseDateTimeOffset "March 5, 2024") with (@None Z)
    by (vm_compute; reflexivity).
  rewrite H. vm_compute. reflexivity.
Qed.

(** C3, at the failing inputs.  What is stored is the UTC date of the
    instant the input denotes, so a zone offset and a time of day are
    applied rather than discarded: 23:30 on 2024-03-05 at offset -05:00 is
    stored as 2024-03-06, while the same date and time at UTC, and the same
    date and offset five hours earlier, are stored as 2024-03-05.  And when
    the engine reads "March 5, 2024" as local midnight east of UTC, the day
    before is stored. *)
Theorem normalizeDate_shifts_calendar_date (engine : string -> option Z) :
  normalizeDate engine "2024-03-05T23:30:00-05:00" = Ok "2024-03-06"
  /\ normalizeDate engine "2024-03-05T23:30:00Z" = Ok "2024-03-05"
  /\ normalizeDate engine "2024-03-05T18:30:00-05:00" = Ok "2024-03-05"
  /\ (engine "March 5, 2024" = Some 1709589600000%Z ->
      normalizeDate engine "March 5, 2024" = Ok "2024-03-04").
Proof.
  split; [vm_compute; reflexivity|].
  split; [vm_compute; reflexivity|].
  split; [vm_compute; reflexivity|].
  apply normalizeDate_local_midnight.
Qed.

Lemma normalizeDate_shifts_calendar_date_witness :
  normalizeDate eastOfUtcEngine "March 5, 2024" = Ok "2024-03-04".
Proof.
  exact (proj2 (proj2 (proj2 (normalizeDate_shifts_calendar_date eastOfUtcEngine)))
               eq_refl).
Defined.

(** ** [normalizeTime] *)

Ltac invert_Matches :=
  unfold lit, ci, Opt in *;
  repeat match goal with
         | H : Matches (Seq _ _) _ _ |- _ => inversion H; subst; clear H
         | H : Matches (Alt _ _) _ _ |- _ => inversion H; subst; clear H
         | H : Matches (Group _) _ _ |- _ => inversion H; subst; clear H
         | H : Matches (Class _) _ _ |- _ => inversion H; subst; clear H
         | H : Matches Eps _ _ |- _ => inversion H; subst; clear H
         | H : Matches End _ _ |- _ => inversion H; subst; clear H
         end.

Lemma ci_am_pm (x y : ascii) :
  Ascii.eqb (toLowerChar y) (toLowerChar "m") = true ->
  (Ascii.eqb (toLowerChar x) (toLowerChar "a") = true
   -> toLowerCase (String x (String y "")) = "am")
  /\ (Ascii.eqb (toLowerChar x) (toLowerChar "p") = true
      -> toLowerCase (String x (String y "")) = "pm").
Proof.
  intros Hy. apply Ascii.eqb_eq in Hy. split; intros Hx; apply Ascii.eqb_eq in Hx;
    unfold toLowerCase; simpl; now rewrite Hx, Hy.
Qed.

Lemma twelveHour_Matches (t : string) (m0 : Match) :
  Matches twelveHour t m0 ->
  exists h mm ws mer,
    groups m0 = [h; mm; mer]
    /\ t = (h ++ ":" ++ mm ++ ws ++ mer)%string
    /\ isOneOrTwoDigits h = true /\ isTwoDigits mm = true
    /\ sforall isWhiteSpace ws = true /\ isMeridiem mer = true.
Proof.
  unfold twelveHour. cbn [cat]. intros H.
  inversion H as [| |? ? ? g1 r1 G1 T1| | | | | |]; subst; clear H.
  inversion T1 as [| |? ? ? g2 r2 G2 T2| | | | | |]; subst; clear T1.
  inversion T2 as [| |? ? ? g3 r3 G3 T3| | | | | |]; subst; clear T2.
  inversion T3 as [| |? ? ? g4 r4 G4 T4| | | | | |]; subst; clear T3.
  pose proof (Matches_split _ _ _ G4) as S4.
  apply Matches_Star_Class in G4 as [W4 N4].
  invert_Matches; cbn [rest matched groups after capture emptyMatch app append] in *;
    rewrite N4; cbn [app];
    repeat match goal with
           | E : String _ _ = rest _ |- _ => rewrite <- E in S4; clear E
           | E : String _ _ = ?s |- _ => subst s
           | E : EmptyString = ?s |- _ => subst s
           end;
    subst;
    match goal with
    | Hy : Ascii.eqb (toLowerChar ?y) (toLowerChar "m") = true,
      Hx : Ascii.eqb (toLowerChar ?x) (toLowerChar "a") = true |- _ =>
        pose proof (proj1 (ci_am_pm x y Hy) Hx) as Hmer
    | Hy : Ascii.eqb (toLowerChar ?y) (toLowerChar "m") = true,
      Hx : Ascii.eqb (toLowerChar ?x) (toLowerChar "p") = true |- _ =>
        pose proof (proj2 (ci_am_pm x y Hy) Hx) as Hmer
    end;
    match goal with
    | Hc : isChar ":" ?c = true |- _ => apply isChar_true in Hc; subst c
    end;
    match goal with
    | W : sforall isWhiteSpace (matched ?g) = true |- _ =>
        eexists; eexists; exists (matched g); eexists
    end;
    (split; [reflexivity|]);
    (split; [cbn [append]; reflexivity|]);
    unfold isOneOrTwoDigits, isTwoDigits, isMeridiem;
    repeat match goal with
           | Hd : isDigit _ = true |- _ => rewrite Hd; clear Hd
           end;
    (split; [reflexivity|]); (split; [reflexivity|]); (split; [exact W4|]);
    rewrite Hmer; reflexivity.
Qed.

(** What the 24-hour pattern lets through, and what it captures. *)
Lemma twentyFourHour_Matches (t : string) (m0 : Match) :
  Matches twentyFourHour t m0 ->
  exists h mm,
    groups m0 = [h; mm]
    /\ t = (h ++ ":" ++ mm)%string
    /\ isHour24 h = true /\ isMinute59 mm = true.
Proof.
  unfold twentyFourHour. cbn [cat]. intros H.
  invert_Matches; cbn [rest matched groups after capture emptyMatch app append] in *;
    subst;
    match goal with
    | Hc : isChar ":" ?c = true |- _ => apply isChar_true in Hc; subst c
    end;
    eexists; eexists;
    (split; [reflexivity|]);
    (split; [cbn [append]; reflexivity|]);
    unfold isHour24, isMinute59;
    repeat match goal with
           | Hd : _ = true |- _ => rewrite Hd; clear Hd
           end;
    cbn [andb orb]; rewrite ?orb_true_r; split; reflexivity.
Qed.

Lemma to24_code (hourNum : N) (mer : string) :
  isMeridiem mer = true ->
  (if (toLowerCase mer =? "pm")%string && negb (hourNum =? 12)%N then (hourNum + 12)%N
   else if (toLowerCase mer =? "am")%string && (hourNum =? 12)%N then 0%N
   else hourNum)
  = to24 hourNum (toLowerCase mer).
Proof.
  unfold isMeridiem, to24. intros H. apply orb_true_iff in H as [H|H];
    apply String.eqb_eq in H; rewrite H; simpl;
    destruct (hourNum =? 12)%N eqn:E; try reflexivity.
  now apply N.eqb_eq in E.
Qed.

Lemma normalizeTime_twelveHour (value : string) :
  test twelveHour (toLowerCase (trim value)) = true ->
  exists h mm ws mer,
    toLowerCase (trim value) = (h ++ ":" ++ mm ++ ws ++ mer)%string
    /\ isOneOrTwoDigits h = true /\ isTwoDigits mm = true
    /\ sforall isWhiteSpace ws = true /\ isMeridiem mer = true
    /\ normalizeTime value
       = Ok (padStart2 (toString (to24 (Number h) (toLowerCase mer))) ++ ":" ++ mm)%string.
Proof.
  intros Ht. unfold normalizeTime. rewrite Ht. unfold match_.
  unfold test in Ht. destruct (exec twelveHour _) as [m0|] eqn:E; [|discriminate].
  apply exec_Matches, twelveHour_Matches in E
    as (h & mm & ws & mer & -> & Hs & Hh & Hm & Hw & Hmer).
  exists h, mm, ws, mer. rewrite (to24_code _ _ Hmer).
  repeat split; assumption.
Qed.

Lemma normalizeTime_twentyFourHour (value : string) :
  test twelveHour (toLowerCase (trim value)) = false ->
  test twentyFourHour (toLowerCase (trim value)) = true ->
  exists h mm,
    toLowerCase (trim value) = (h ++ ":" ++ mm)%string
    /\ isHour24 h = true /\ isMinute59 mm = true
    /\ normalizeTime value = Ok (padStart2 h ++ ":" ++ mm)%string.
Proof.
  intros H12 Ht. unfold normalizeTime. rewrite H12, Ht. unfold match_.
  unfold test in Ht. destruct (exec twentyFourHour _) as [m0|] eqn:E; [|discriminate].
  apply exec_Matches, twentyFourHour_Matches in E as (h & mm & -> & Hs & Hh & Hm).
  exists h, mm. repeat split; assumption.
Qed.

Lemma normalizeTime_neither (value : string) :
  test twelveHour (toLowerCase (trim value)) = false ->
  test twentyFourHour (toLowerCase (trim value)) = false ->
  normalizeTime value = Throw "Invalid time format. Use HH:MM or HH:MM AM/PM.".
Proof. intros H12 H24. unfold normalizeTime. now rewrite H12, H24. Qed.

(** *** Bounded case analysis on numbers and code units *)

Ltac range_facts :=
  repeat match goal with
         | H : isDigit _ = true |- _ => unfold isDigit in H
         | H : in_range _ _ _ = true |- _ =>
             unfold in_range in H; apply andb_true_iff in H; destruct H as [? ?]
         | H : (_ <=? _)%N = true |- _ => apply N.leb_le in H
         | H : _ && _ = true |- _ => apply andb_true_iff in H; destruct H as [? ?]
         | H : _ || _ = true |- _ => apply orb_true_iff in H; destruct H as [?|?]
         | H : isChar _ _ = true |- _ => apply isChar_true in H; subst
         end.

Ltac range_goal :=
  repeat (apply andb_true_iff; split);
  unfold isDigit, in_range, Number;
  cbn [fold_left list_ascii_of_string];
  repeat (apply andb_true_iff; split);
  try match goal with |- (_ <=? _)%N = true => apply N.leb_le end;
  change (code "0") with 48%N; change (code "2") with 50%N;
  try lia.

Lemma Number_digits_bound (h : string) :
  isOneOrTwoDigits h = true -> (Number h < 100)%N.
Proof.
  destruct h as [|c1 [|c2 [|c3 h]]]; try discriminate; cbn [isOneOrTwoDigits];
    intros H; range_facts; unfold Number; cbn [fold_left list_ascii_of_string]; lia.
Qed.

(** The 24-hour branch stores a clock time with the hour it was given. *)
Lemma clock_of_24 (h mm : string) :
  isHour24 h = true -> isMinute59 mm = true ->
  isClockTime (padStart2 h ++ ":" ++ mm) = true
  /\ Number (padStart2 h) = Number h.
Proof.
  destruct h as [|c1 [|c2 [|c3 h]]]; try discriminate;
    destruct mm as [|m1 [|m2 [|m3 mm]]]; try discriminate;
    cbn [isHour24 isMinute59 padStart2 append isClockTime];
    intros Hh Hm; range_facts; (split; [range_goal|]);
    unfold Number; cbn [fold_left list_ascii_of_string];
    change (code "0") with 48%N; lia.
Qed.

Lemma pad2_two_digits (n : N) :
  (n < 100)%N -> twoDigitsOf n (padStart2 (toString n)) = true.
Proof.
  apply (below_cases (fun n => twoDigitsOf n (padStart2 (toString n))) 100).
  vm_compute. reflexivity.
Qed.

Lemma pad2_three_digits (n : N) :
  (100 <= n < 112)%N -> String.length (padStart2 (toString n)) = 3.
Proof.
  intros [Hlo Hhi].
  pose proof (below_cases
    (fun n => (n <? 100)%N || (String.length (padStart2 (toString n)) =? 3)%nat) 112
    eq_refl n Hhi) as H.
  apply orb_true_iff in H as [H|H].
  - apply N.ltb_lt in H. lia.
  - now apply Nat.eqb_eq in H.
Qed.

Lemma isHHMM_length (s : string) : isHHMM s = true -> String.length s = 5.
Proof.
  destruct s as [|a [|b [|c [|d [|e [|f s]]]]]]; try discriminate; cbn [isHHMM];
    destruct c as [[|] [|] [|] [|] [|] [|] [|] [|]]; try discriminate.
  reflexivity.
Qed.

Lemma isClockTime_isHHMM (s : string) : isClockTime s = true -> isHHMM s = true.
Proof.
  destruct s as [|a [|b [|c [|d [|e [|f s]]]]]]; try discriminate;
    cbn [isClockTime isHHMM];
    destruct c as [[|] [|] [|] [|] [|] [|] [|] [|]]; try discriminate.
  intros H. apply andb_true_iff in H as [H _]. now apply andb_true_iff in H as [H _].
Qed.

Lemma to24_bound (hour : N) (mer : string) :
  (hour < 100)%N -> (to24 hour mer < 112)%N.
Proof.
  unfold to24. intros H.
  destruct (mer =? "pm")%string; destruct (hour =? 12)%N; lia.
Qed.

Lemma to24_in_range (hour : N) (mer : string) :
  (hour <= 12)%N -> (to24 hour mer <= 23)%N.
Proof.
  unfold to24. intros H.
  destruct (mer =? "pm")%string; destruct (hour =? 12)%N eqn:E; try lia.
  apply N.eqb_neq in E. lia.
Qed.

(** What the 12-hour branch stores, for the hour [n] it has computed: the
    shape HH:MM exactly when [n] is below 100, a clock time exactly when [n]
    is at most 23 and the minutes at most 59. *)
Lemma clock_of_12 (n : N) (mm : string) :
  isTwoDigits mm = true -> (n < 112)%N ->
  (isHHMM (padStart2 (toString n) ++ ":" ++ mm) = true <-> (n < 100)%N)
  /\ (isClockTime (padStart2 (toString n) ++ ":" ++ mm) = true
      <-> (n <= 23)%N /\ (Number mm <= 59)%N).
Proof.
  intros Hm Hn.
  destruct mm as [|m1 [|m2 [|m3 mm]]]; try discriminate. cbn [isTwoDigits] in Hm.
  destruct (N.lt_ge_cases n 100) as [Hlt|Hge].
  - pose proof (pad2_two_digits n Hlt) as H.
    destruct (padStart2 (toString n)) as [|a [|b [|c s]]]; try discriminate.
    cbn [twoDigitsOf] in H. apply andb_true_iff in H as [H Hnum].
    apply N.eqb_eq in Hnum. apply andb_true_iff in H as [Ha Hb].
    apply andb_true_iff in Hm as [Hm1 Hm2].
    cbn [append isHHMM isClockTime]. rewrite Ha, Hb, Hm1, Hm2, Hnum. cbn [andb].
    split; [tauto|]. rewrite andb_true_iff, !N.leb_le. tauto.
  - pose proof (pad2_three_digits n (conj Hge Hn)) as H.
    assert (isHHMM (padStart2 (toString n) ++ ":" ++ String m1 (String m2 "")) = false) as F.
    { destruct (isHHMM _) eqn:E; [|reflexivity].
      apply isHHMM_length in E. rewrite append_length, H in E. discriminate. }
    split; split.
    + rewrite F. discriminate.
    + lia.
    + intros E. apply isClockTime_isHHMM in E. rewrite F in E. discriminate.
    + lia.
Qed.

(** Every value falls in one of three cases: the 12-hour pattern matches and
    the hour is converted, or the 24-hour pattern matches and the hour is
    padded, or the value is rejected. *)
Lemma normalizeTime_cases (value : string) :
  (exists h mm ws mer,
     toLowerCase (trim value) = (h ++ ":" ++ mm ++ ws ++ mer)%string
     /\ isOneOrTwoDigits h = true /\ isTwoDigits mm = true
     /\ sforall isWhiteSpace ws = true /\ isMeridiem mer = true
     /\ normalizeTime value
        = Ok (padStart2 (toString (to24 (Number h) (toLowerCase mer))) ++ ":" ++ mm)%string)
  \/ (exists h mm,
        toLowerCase (trim value) = (h ++ ":" ++ mm)%string
        /\ isHour24 h = true /\ isMinute59 mm = true
        /\ normalizeTime value = Ok (padStart2 h ++ ":" ++ mm)%string)
  \/ (test twelveHour (toLowerCase (trim value)) = false
      /\ test twentyFourHour (toLowerCase (trim value)) = false
      /\ normalizeTime value = Throw "Invalid time format. Use HH:MM or HH:MM AM/PM.").
Proof.
  destruct (test twelveHour (toLowerCase (trim value))) eqn:H12.
  - left. now apply normalizeTime_twelveHour.
  - destruct (test twentyFourHour (toLowerCase (trim value))) eqn:H24.
    + right. left. now apply normalizeTime_twentyFourHour.
    + right. right. repeat split. now apply normalizeTime_neither.
Qed.

(** The only error is the format error, raised exactly when neither pattern
    matches. *)
Lemma normalizeTime_Throw (value msg : string) :
  normalizeTime value = Throw msg ->
  msg = "Invalid time format. Use HH:MM or HH:MM AM/PM."
  /\ test twelveHour (toLowerCase (trim value)) = false
  /\ test twentyFourHour (toLowerCase (trim value)) = false.
Proof.
  intros H.
  destruct (normalizeTime_cases value)
    as [(h & mm & ws & mer & _ & _ & _ & _ & _ & E)
       |[(h & mm & _ & _ & _ & E)|(H12 & H24 & E)]];
    rewrite E in H; try discriminate.
  injection H as <-. now repeat split.
Qed.

(** The 24-hour branch always stores a clock time. *)
Lemma normalizeTime_twentyFourHour_clock (value : string) :
  test twelveHour (toLowerCase (trim value)) = false ->
  test twentyFourHour (toLowerCase (trim value)) = true ->
  exists stored, normalizeTime value = Ok stored /\ isClockTime stored = true.
Proof.
  intros H12 H24.
  destruct (normalizeTime_twentyFourHour value H12 H24) as (h & mm & _ & Hh & Hm & E).
  eexists. split; [exact E|]. now apply clock_of_24.
Qed.

(** The 12-hour branch stores a clock time when the hour it is given is at
    most 12 and the minutes at most 59, and the shape HH:MM exactly when the
    hour it computes has two digits. *)
Lemma normalizeTime_twelveHour_clock (value : string) :
  test twelveHour (toLowerCase (trim value)) = true ->
  exists h mm ws mer stored,
    toLowerCase (trim value) = (h ++ ":" ++ mm ++ ws ++ mer)%string
    /\ normalizeTime value = Ok stored
    /\ (isHHMM stored = true <-> (to24 (Number h) (toLowerCase mer) < 100)%N)
    /\ (isClockTime stored = true
        <-> (to24 (Number h) (toLowerCase mer) <= 23)%N /\ (Number mm <= 59)%N)
    /\ ((Number h <= 12)%N -> (Number mm <= 59)%N -> isClockTime stored = true).
Proof.
  intros H12.
  destruct (normalizeTime_twelveHour value H12)
    as (h & mm & ws & mer & Hs & Hh & Hm & _ & _ & E).
  exists h, mm, ws, mer. eexists. split; [exact Hs|]. split; [exact E|].
  pose proof (to24_bound _ (toLowerCase mer) (Number_digits_bound h Hh)) as Hb.
  destruct (clock_of_12 _ mm Hm Hb) as [Hshape Hclock].
  split; [exact Hshape|]. split; [exact Hclock|].
  intros Hle Hmin. apply Hclock. split; [|exact Hmin]. now apply to24_in_range.
Qed.

(** The examples of the specification. *)
Lemma normalizeTime_examples :
  normalizeTime "12:00 AM" = Ok "00:00"
  /\ normalizeTime "12:30 PM" = Ok "12:30"
  /\ normalizeTime "1:05 am" = Ok "01:05"
  /\ normalizeTime "9:30" = Ok "09:30"
  /\ normalizeTime "25:00" = Throw "Invalid time format. Use HH:MM or HH:MM AM/PM."
  /\ normalizeTime "noon" = Throw "Invalid time format. Use HH:MM or HH:MM AM/PM.".
Proof.
  split; [vm_compute; reflexivity|]. split; [vm_compute; reflexivity|].
  split; [vm_compute; reflexivity|]. split; [vm_compute; reflexivity|].
  split; vm_compute; reflexivity.
Qed.

(** C1, at the failing input.  The 12-hour pattern takes any two digits as
    the hour, so "88:00 pm" is accepted and its hour, 88 + 12, is written
    with three digits: the stored text "100:00" does not have the shape
    HH:MM. *)
Theorem normalizeTime_three_digit_hour :
  normalizeTime "88:00 pm" = Ok "100:00" /\ isHHMM "100:00" = false.
Proof. split; vm_compute; reflexivity. Qed.

(** C2, at the failing inputs.  The 12-hour pattern checks neither the hour
    nor the minutes, so "13:00 pm" is stored as "25:00" and "1:99 am" as
    "01:99": neither is a clock time. *)
Theorem normalizeTime_not_a_clock_time :
  normalizeTime "13:00 pm" = Ok "25:00" /\ isClockTime "25:00" = false
  /\ normalizeTime "1:99 am" = Ok "01:99" /\ isClockTime "01:99" = false.
Proof.
  split; [vm_compute; reflexivity|]. split; [reflexivity|].
  split; [vm_compute; reflexivity|]. reflexivity.
Qed.

(** * Further properties

    Properties of the same functions beyond the statements above: what the
    validators accept, what the hooks store and with which errors they
    fail, what a later save makes of a stored document, and how the cached
    connection behaves under several callers. *)

(** ** More on strings *)

Lemma toLowerChar_idem (c : ascii) : toLowerChar (toLowerChar c) = toLowerChar c.
Proof. each_char c. Qed.

Lemma toLowerCase_idem (s : string) : toLowerCase (toLowerCase s) = toLowerCase s.
Proof.
  unfold toLowerCase. induction s as [|c s IH]; simpl; [reflexivity|].
  now rewrite toLowerChar_idem, IH.
Qed.

Lemma dropWhile_all (p : ascii -> bool) (s : string) :
  sforall p s = true -> dropWhile p s = "".
Proof.
  induction s as [|c s IH]; simpl; [reflexivity|].
  intros H. apply andb_true_iff in H as [Hc Hs]. now rewrite Hc, IH.
Qed.

Lemma dropWhile_append (p : ascii -> bool) (a b : string) :
  sforall p a = true -> dropWhile p (a ++ b) = dropWhile p b.
Proof.
  induction a as [|c a IH]; simpl; [reflexivity|].
  intros H. apply andb_true_iff in H as [Hc Ha]. now rewrite Hc, IH.
Qed.

Lemma trimEnd_all (w : string) : sforall isWhiteSpace w = true -> trimEnd w = "".
Proof.
  induction w as [|c w IH]; simpl; [reflexivity|].
  intros H. apply andb_true_iff in H as [Hc Hw]. now rewrite (IH Hw), Hc.
Qed.

Lemma trimEnd_append (s w : string) :
  sforall isWhiteSpace w = true -> trimEnd (s ++ w) = trimEnd s.
Proof.
  intros Hw. induction s as [|c s IH]; [now apply trimEnd_all|].
  simpl. now rewrite IH.
Qed.

Lemma trimEnd_dropWhile_append (y w : string) :
  sforall isWhiteSpace w = true ->
  trimEnd (dropWhile isWhiteSpace (y ++ w)) = trimEnd (dropWhile isWhiteSpace y).
Proof.
  intros Hw. induction y as [|c y IH].
  - simpl. now rewrite (dropWhile_all _ _ Hw).
  - cbn [append dropWhile]. destruct (isWhiteSpace c); [exact IH|].
    now apply (trimEnd_append (String c y)).
Qed.

(** Whitespace around a string does not survive [trim]. *)
Lemma trim_padding (w1 y w2 : string) :
  sforall isWhiteSpace w1 = true -> sforall isWhiteSpace w2 = true ->
  trim (w1 ++ y ++ w2) = trim y.
Proof.
  intros H1 H2. unfold trim, trimStart.
  rewrite (dropWhile_append _ _ _ H1). now apply trimEnd_dropWhile_append.
Qed.

Lemma trim_length (s : string) : String.length (trim s) <= String.length s.
Proof.
  unfold trim, trimStart.
  assert (forall t, String.length (trimEnd t) <= String.length t) as H.
  { induction t as [|c t IH]; simpl; [lia|].
    destruct (trimEnd t); [destruct (isWhiteSpace c)|]; simpl in *; lia. }
  pose proof (H (dropWhile isWhiteSpace s)).
  pose proof (dropWhile_length isWhiteSpace s). lia.
Qed.

Lemma smap_length (f : ascii -> ascii) (s : string) :
  String.length (smap f s) = String.length s.
Proof. induction s as [|c s IH]; simpl; [reflexivity | now rewrite IH]. Qed.

Lemma sfilter_length (p : ascii -> bool) (s : string) :
  String.length (sfilter p s) <= String.length s.
Proof.
  induction s as [|c s IH]; simpl; [lia|]. destruct (p c); simpl; lia.
Qed.

Lemma squeeze_length (p : ascii -> bool) (h : ascii) (s : string) :
  String.length (squeeze p (String h "") s) <= String.length s.
Proof.
  induction s as [|c s IH]; [simpl; lia|]. cbn [squeeze].
  destruct (p c); [destruct (startsWith p s)|]; simpl; lia.
Qed.

Lemma squeeze_empty (p : ascii -> bool) (h : ascii) (s : string) :
  squeeze p (String h "") s = "" -> s = "".
Proof.
  induction s as [|c s IH]; [reflexivity|]. cbn [squeeze].
  destruct (p c); [destruct (startsWith p s) eqn:E|]; try discriminate.
  intros H. apply IH in H. subst s. discriminate E.
Qed.

Lemma sfilter_empty (p : ascii -> bool) (s : string) :
  sfilter p s = "" -> sforall (fun c => negb (p c)) s = true.
Proof.
  induction s as [|c s IH]; [reflexivity|]. simpl.
  destruct (p c); [discriminate|]. exact IH.
Qed.

(** ** [isValidEmail], the Booking hook and the index of the bookings *)

Lemma notSpaceOrAt_lower (c : ascii) :
  Booking.notSpaceOrAt (toLowerChar c) = Booking.notSpaceOrAt c.
Proof. each_char c. Qed.

Lemma notSpaceOrAt_not_space (c : ascii) :
  Booking.notSpaceOrAt c = true -> negb (isWhiteSpace c) = true.
Proof. unfold Booking.notSpaceOrAt. rewrite negb_orb, andb_true_iff. tauto. Qed.

Lemma notSpaceOrAt_not_at (c : ascii) :
  Booking.notSpaceOrAt c = true -> isChar "@" c = false.
Proof.
  unfold Booking.notSpaceOrAt. rewrite negb_orb, andb_true_iff.
  intros [_ H]. now apply negb_true_iff in H.
Qed.

Lemma sforall_smap (p : ascii -> bool) (f : ascii -> ascii) (s : string) :
  (forall c, p (f c) = p c) -> sforall p (smap f s) = sforall p s.
Proof.
  intros H. induction s as [|c s IH]; simpl; [reflexivity|]. now rewrite H, IH.
Qed.

Lemma smap_append (f : ascii -> ascii) (a b : string) :
  smap f (a ++ b) = (smap f a ++ smap f b)%string.
Proof. induction a as [|c a IH]; simpl; [reflexivity | now rewrite IH]. Qed.

Lemma isEmpty_smap (f : ascii -> ascii) (s : string) : isEmpty (smap f s) = isEmpty s.
Proof. now destruct s. Qed.

Lemma emailShape_lower (e : string) : emailShape e -> emailShape (toLowerCase e).
Proof.
  intros (l & d1 & d2 & -> & El & E1 & E2 & Pl & P1 & P2).
  exists (toLowerCase l), (toLowerCase d1), (toLowerCase d2).
  unfold toLowerCase. rewrite !isEmpty_smap, !(sforall_smap _ _ _ notSpaceOrAt_lower).
  repeat split; try assumption.
  rewrite smap_append. cbn [append smap]. rewrite smap_append. reflexivity.
Qed.

Lemma emailShape_no_space (e : string) :
  emailShape e -> sforall (fun c => negb (isWhiteSpace c)) e = true.
Proof.
  intros (l & d1 & d2 & -> & _ & _ & _ & Pl & P1 & P2).
  rewrite sforall_append. cbn [append sforall]. rewrite sforall_append. cbn [append sforall].
  rewrite (sforall_impl _ _ l notSpaceOrAt_not_space Pl),
    (sforall_impl _ _ d1 notSpaceOrAt_not_space P1),
    (sforall_impl _ _ d2 notSpaceOrAt_not_space P2).
  reflexivity.
Qed.

Lemma occurrences_append (p : ascii -> bool) (a b : string) :
  occurrences p (a ++ b) = occurrences p a + occurrences p b.
Proof. induction a as [|c a IH]; simpl; [reflexivity | rewrite IH; lia]. Qed.

Lemma occurrences_none (p q : ascii -> bool) (s : string) :
  (forall c, q c = true -> p c = false) -> sforall q s = true -> occurrences p s = 0.
Proof.
  intros H. induction s as [|c s IH]; simpl; [reflexivity|].
  intros Hs. apply andb_true_iff in Hs as [Hc Hs]. now rewrite (H c Hc), IH.
Qed.

Lemma emailShape_one_at (e : string) :
  emailShape e -> occurrences (isChar "@") e = 1.
Proof.
  intros (l & d1 & d2 & -> & _ & _ & _ & Pl & P1 & P2).
  rewrite occurrences_append. cbn [append occurrences].
  rewrite occurrences_append. cbn [append occurrences].
  rewrite (occurrences_none _ _ l notSpaceOrAt_not_at Pl),
    (occurrences_none _ _ d1 notSpaceOrAt_not_at P1),
    (occurrences_none _ _ d2 notSpaceOrAt_not_at P2).
  reflexivity.
Qed.

(** X1.  [isValidEmail] accepts exactly the strings of the form
    [local@d1.d2] whose three parts are non-empty and hold neither
    whitespace nor [@]; so an accepted address holds no whitespace and
    exactly one [@], and it stays accepted when it is lower-cased. *)
Theorem isValidEmail_accepts_exactly (e : string) :
  (Booking.isValidEmail e = true <-> emailShape e)
  /\ (Booking.isValidEmail e = true ->
      sforall (fun c => negb (isWhiteSpace c)) e = true
      /\ occurrences (isChar "@") e = 1
      /\ Booking.isValidEmail (toLowerCase e) = true).
Proof.
  split; [apply isValidEmail_shape|].
  intros H. apply isValidEmail_shape in H.
  split; [now apply emailShape_no_space|].
  split; [now apply emailShape_one_at|].
  now apply isValidEmail_shape, emailShape_lower.
Qed.

Lemma smap_split (f : ascii -> ascii) (s a b : string) :
  smap f s = (a ++ b)%string ->
  exists a' b', s = (a' ++ b')%string /\ smap f a' = a /\ smap f b' = b.
Proof.
  revert s. induction a as [|c a IH]; intros s H.
  - exists "", s. now repeat split.
  - destruct s as [|x s]; [discriminate|]. simpl in H. injection H as Hc H.
    apply IH in H as (a' & b' & -> & Ha & Hb).
    exists (String x a'), b'. simpl. now rewrite Hc, Ha.
Qed.

Lemma toLowerChar_at (c : ascii) : toLowerChar c = "@"%char -> c = "@"%char.
Proof. each_char c. Qed.

Lemma toLowerChar_dot (c : ascii) : toLowerChar c = "."%char -> c = "."%char.
Proof. each_char c. Qed.

Lemma emailShape_of_lower (e : string) : emailShape (toLowerCase e) -> emailShape e.
Proof.
  intros (l & d1 & d2 & H & El & E1 & E2 & Pl & P1 & P2).
  unfold toLowerCase in H.
  apply smap_split in H as (l' & r1 & -> & Hl & H).
  destruct r1 as [|x r1]; [discriminate|]. cbn [smap append] in H.
  injection H as Hx H. apply toLowerChar_at in Hx. subst x.
  apply smap_split in H as (d1' & r2 & -> & Hd1 & H).
  destruct r2 as [|y d2']; [discriminate|]. cbn [smap append] in H.
  injection H as Hy Hd2. apply toLowerChar_dot in Hy. subst y.
  subst l d1 d2.
  rewrite !isEmpty_smap in *. rewrite !(sforall_smap _ _ _ notSpaceOrAt_lower) in *.
  exists l', d1', d2'. now repeat split.
Qed.

(** The pattern has no letters: validity does not depend on letter case. *)
Lemma isValidEmail_toLowerCase (e : string) :
  Booking.isValidEmail (toLowerCase e) = Booking.isValidEmail e.
Proof.
  destruct (Booking.isValidEmail e) eqn:E.
  - now apply isValidEmail_shape, emailShape_lower, isValidEmail_shape.
  - destruct (Booking.isValidEmail (toLowerCase e)) eqn:E'; [|reflexivity].
    apply isValidEmail_shape, emailShape_of_lower, isValidEmail_shape in E'.
    congruence.
Qed.

Lemma isValidEmail_nonempty (e : string) :
  Booking.isValidEmail e = true -> isEmpty e = false.
Proof.
  intros H. apply isValidEmail_shape in H as (l & d1 & d2 & -> & El & _).
  now destruct l.
Qed.

Lemma isValidEmail_trim (e : string) :
  Booking.isValidEmail e = true -> trim e = e.
Proof. intros H. now apply trim_no_space, emailShape_no_space, isValidEmail_shape. Qed.

Section BookingMore.

Context {ObjectId : Type}.
Variable isValid : ObjectId -> bool.

(** What the hook decides for a new document made from [input] *)
Lemma save_create (eventExists : ObjectId -> bool) (_id : ObjectId) (input : string) :
  Booking.save isValid eventExists (Booking.create _id input) =
  if negb (Booking.isValidEmail (trim input))
  then Throw (if isEmpty (trim input)
              then "email is required and must be a non-empty string."
              else "Invalid email format.")
  else if negb (isValid _id) then Throw "eventId must be a valid ObjectId."
  else if negb (eventExists _id) then Throw "Referenced event does not exist."
  else Ok (Booking.create _id input).
Proof.
  unfold Booking.save, Booking.validateBooking, Booking.isValidObjectId.
  cbn [Booking.create Booking.email Booking.castEmail Booking.eventId
       Booking.isNew Booking.isModified orb].
  rewrite trim_toLowerCase, trim_idem, isValidEmail_toLowerCase.
  unfold toLowerCase at 1. rewrite isEmpty_smap.
  destruct (isEmpty (trim input)) eqn:E.
  - destruct (Booking.isValidEmail (trim input)) eqn:V; [|reflexivity].
    apply isValidEmail_nonempty in V. congruence.
  - destruct (Booking.isValidEmail (trim input)); [|reflexivity]. cbn [negb].
    destruct (isValid _id); [|reflexivity]. cbn [negb Booking.runHook].
    destruct (eventExists _id); reflexivity.
Qed.

End BookingMore.


Lemma save_create_Ok
  (ObjectId : Type) (isValid eventExists : ObjectId -> bool)
  (_id : ObjectId) (input : string) (d : @Booking.BookingDocument ObjectId) :
  Booking.save isValid eventExists (Booking.create _id input) = Ok d ->
  d = Booking.create _id input /\ Booking.isValidEmail (trim input) = true.
Proof.
  rewrite save_create.
  destruct (Booking.isValidEmail (trim input)); [|discriminate]. cbn [negb].
  destruct (isValid _id); [|discriminate]. cbn [negb].
  destruct (eventExists _id); [|discriminate]. cbn [negb].
  intros H. injection H as <-. now split.
Qed.

(** X3.  The e-mail of a new booking that was saved is an accepted
    address in canonical form: lower-casing it, trimming it, or assigning
    it to the path once more leaves it as it is. *)
Theorem saved_email_is_canonical
  (ObjectId : Type) (isValid eventExists : ObjectId -> bool)
  (_id : ObjectId) (input : string) (d : @Booking.BookingDocument ObjectId) :
  Booking.save isValid eventExists (Booking.create _id input) = Ok d ->
  exists e,
    Booking.email d = VString e
    /\ Booking.isValidEmail e = true
    /\ toLowerCase e = e /\ trim e = e
    /\ Booking.castEmail e = VString e.
Proof.
  intros H. apply save_create_Ok in H as [-> V].
  exists (toLowerCase (trim input)).
  assert (Booking.isValidEmail (toLowerCase (trim input)) = true) as V'
    by now rewrite isValidEmail_toLowerCase.
  split; [reflexivity|]. split; [exact V'|].
  split; [apply toLowerCase_idem|].
  split; [now apply isValidEmail_trim|].
  unfold Booking.castEmail. now rewrite (isValidEmail_trim _ V'), toLowerCase_idem.
Qed.

Lemma saved_email_is_canonical_witness :
  exists e, Booking.email newBooking = VString e
            /\ Booking.isValidEmail e = true /\ toLowerCase e = e /\ trim e = e
            /\ Booking.castEmail e = VString e.
Proof.
  exact (saved_email_is_canonical nat (fun _ => true) onlyEvent7 7
           "  Ada@Example.COM " newBooking eq_refl).
Defined.

Section BookingStore.

Context {ObjectId : Type}.
Variable isValid : ObjectId -> bool.
Variable equals : ObjectId -> ObjectId -> bool.
Variable eventExists : ObjectId -> bool.

Lemma castEmail_variant (input y w1 w2 : string) :
  toLowerCase y = toLowerCase input ->
  sforall isWhiteSpace w1 = true -> sforall isWhiteSpace w2 = true ->
  Booking.castEmail (w1 ++ y ++ w2) = Booking.castEmail input.
Proof.
  intros Hy H1 H2. unfold Booking.castEmail.
  now rewrite (trim_padding _ _ _ H1 H2), <- !trim_toLowerCase, Hy.
Qed.

Lemma sameKey_refl (d : @Booking.BookingDocument ObjectId) (e : string) :
  (forall x, equals x x = true) -> Booking.email d = VString e ->
  Booking.sameKey equals d d = true.
Proof.
  intros Hrefl He. unfold Booking.sameKey.
  now rewrite Hrefl, He, String.eqb_refl.
Qed.

End BookingStore.

(** X4.  Once a booking is written, a second booking for the same event
    whose e-mail input differs from the first only in letter case and in
    the whitespace around it is refused by the unique index on [eventId]
    and [email], with a duplicate key on [eventId_1_email_1] (an id is
    taken to equal itself). *)
Theorem duplicate_booking_refused
  (ObjectId : Type) (isValid : ObjectId -> bool)
  (equals : ObjectId -> ObjectId -> bool) (eventExists : ObjectId -> bool)
  (bookings bookings' : list Booking.BookingDocument)
  (_id : ObjectId) (input y w1 w2 : string) :
  (forall x, equals x x = true) ->
  toLowerCase y = toLowerCase input ->
  sforall isWhiteSpace w1 = true -> sforall isWhiteSpace w2 = true ->
  Booking.saveNew isValid equals eventExists bookings _id input
  = Booking.Written bookings' ->
  Booking.saveNew isValid equals eventExists bookings' _id (w1 ++ y ++ w2)
  = Booking.DuplicateKey "eventId_1_email_1".
Proof.
  intros Hrefl Hy H1 H2. unfold Booking.saveNew.
  replace (Booking.create _id (w1 ++ y ++ w2)) with (Booking.create _id input)
    by (unfold Booking.create; now rewrite (castEmail_variant input y w1 w2)).
  destruct (Booking.save isValid eventExists (Booking.create _id input)) as [d|msg] eqn:E;
    [|discriminate].
  apply save_create_Ok in E as [-> _].
  unfold Booking.insertOne.
  destruct (existsb _ bookings); [discriminate|].
  intros H. injection H as <-. cbn [existsb].
  now rewrite (sameKey_refl equals (Booking.create _id input)
                 (toLowerCase (trim input)) Hrefl eq_refl).
Qed.

Lemma duplicate_booking_refused_witness :
  Booking.saveNew (fun _ => true) Nat.eqb onlyEvent7
    [Booking.create 7 "ada@example.com"] 7 "  Ada@Example.COM "
  = Booking.DuplicateKey "eventId_1_email_1".
Proof.
  exact (duplicate_booking_refused nat (fun _ => true) Nat.eqb onlyEvent7
           [] [Booking.create 7 "ada@example.com"] 7
           "ada@example.com" "Ada@Example.COM" "  " " "
           Nat.eqb_refl eq_refl eq_refl eq_refl eq_refl).
Defined.

(** X5.  The result of [validateBooking] and the lookups it makes depend
    on the events collection only through the existence of the booking's
    own event, and not at all when the document is neither new nor changed
    in [eventId]. *)
Theorem hook_reads_only_its_own_event
  (ObjectId : Type) (isValid eventExists1 eventExists2 : ObjectId -> bool)
  (this : @Booking.BookingDocument ObjectId) :
  (Booking.isNew this || Booking.isModified this "eventId" = true ->
   eventExists1 (Booking.eventId this) = eventExists2 (Booking.eventId this)) ->
  Booking.runHook eventExists1 (Booking.validateBooking isValid this)
  = Booking.runHook eventExists2 (Booking.validateBooking isValid this).
Proof.
  intros H. destruct (earlierChecksPass isValid this) eqn:E.
  - rewrite (validateBooking_after_checks isValid this E).
    destruct (Booking.isNew this || Booking.isModified this "eventId");
      [|reflexivity].
    cbn [Booking.runHook]. rewrite (H eq_refl).
    now destruct (eventExists2 (Booking.eventId this)).
  - destruct (validateBooking_before_lookup isValid this E) as [msg ->]. reflexivity.
Qed.

Lemma hook_reads_only_its_own_event_witness :
  Booking.runHook onlyEvent7 (Booking.validateBooking (fun _ => true) newBooking)
  = Booking.runHook events7and9 (Booking.validateBooking (fun _ => true) newBooking)
  /\ Booking.runHook noEvents (Booking.validateBooking (fun _ => true) emailUpdate)
     = Booking.runHook onlyEvent7 (Booking.validateBooking (fun _ => true) emailUpdate).
Proof.
  split.
  - exact (hook_reads_only_its_own_event nat (fun _ => true) onlyEvent7 events7and9
             newBooking (fun _ => eq_refl)).
  - apply (hook_reads_only_its_own_event nat (fun _ => true) noEvents onlyEvent7
             emailUpdate).
    intros H. discriminate H.
Defined.

(** X6.  A booking that fails one of the checks before the lookup is
    refused without any lookup, with one message whatever the events
    collection holds; the message is one of the two about the e-mail, or
    the one about [eventId], and that one is raised only when the e-mail
    is an accepted address. *)
Theorem refused_before_any_lookup
  (ObjectId : Type) (isValid : ObjectId -> bool)
  (this : @Booking.BookingDocument ObjectId) :
  earlierChecksPass isValid this = false ->
  exists msg,
    (forall eventExists,
       Booking.runHook eventExists (Booking.validateBooking isValid this)
       = (Throw msg, []))
    /\ (msg = "email is required and must be a non-empty string."
        \/ msg = "Invalid email format."
        \/ (msg = "eventId must be a valid ObjectId."
            /\ exists e, Booking.email this = VString e
                         /\ Booking.isValidEmail e = true)).
Proof.
  unfold earlierChecksPass, Booking.validateBooking, Booking.isValidObjectId.
  destruct (Booking.email this) as [| | | |e];
    try (intros _; eexists; split; [intros ex; reflexivity | now left]).
  destruct (isEmpty (trim e));
    [intros _; eexists; split; [intros ex; reflexivity | now left]|].
  destruct (Booking.isValidEmail e) eqn:V;
    [|intros _; eexists; split; [intros ex; reflexivity | right; now left]].
  destruct (isValid (Booking.eventId this)); [discriminate|].
  intros _; eexists; split; [intros ex; reflexivity|]. right. right.
  split; [reflexivity|]. now exists e.
Qed.

Lemma refused_before_any_lookup_witness :
  exists msg,
    (forall eventExists,
       Booking.runHook eventExists
         (Booking.validateBooking aboveFive (Booking.create 3 "ada@example.com"))
       = (Throw msg, []))
    /\ (msg = "email is required and must be a non-empty string."
        \/ msg = "Invalid email format."
        \/ (msg = "eventId must be a valid ObjectId."
            /\ exists e, Booking.email (Booking.create 3 "ada@example.com") = VString e
                         /\ Booking.isValidEmail e = true)).
Proof.
  exact (refused_before_any_lookup nat aboveFive (Booking.create 3 "ada@example.com") eq_refl).
Defined.

(** ** The shape of a slug *)

Lemma slugOf_length (t : string) : String.length (slugOf t) <= String.length t.
Proof.
  unfold slugOf.
  pose proof (squeeze_length (isChar "-") "-"
                (squeeze isWhiteSpace "-" (sfilter isSlugSource (toLowerCase t)))).
  pose proof (squeeze_length isWhiteSpace "-" (sfilter isSlugSource (toLowerCase t))).
  pose proof (sfilter_length isSlugSource (toLowerCase t)).
  unfold toLowerCase in *. rewrite smap_length in *. lia.
Qed.

Lemma toSlug_length (x : string) : String.length (toSlug x) <= String.length x.
Proof.
  rewrite toSlug_slugOf. pose proof (slugOf_length (trim x)).
  pose proof (trim_length x). lia.
Qed.

(** X7.  Whatever the input, the slug consists of characters of
    [[a-z0-9-]] only and holds no two hyphens in a row. *)
Theorem toSlug_shape (x : string) :
  sforall isSlugChar (toSlug x) = true /\ noRun (isChar "-") (toSlug x) = true.
Proof. rewrite toSlug_slugOf. split; [apply slugOf_chars | apply slugOf_noRun]. Qed.

(** X8.  A slug is never longer than the value it is made from; so the
    slug of a title within the [maxlength] of the title, 180, is within the
    [maxlength] of the slug, 200. *)
Theorem slug_fits_its_maxlength (t : string) :
  String.length (toSlug t) <= String.length t
  /\ (String.length t <= maxlength title -> String.length (toSlug t) <= slugMaxlength).
Proof.
  pose proof (toSlug_length t) as H. split; [exact H|].
  unfold slugMaxlength. cbn [maxlength]. lia.
Qed.

(** X9.  The slug is empty exactly when no character of the trimmed
    value is, once lower-cased, in [[a-z0-9\s-]]. *)
Theorem toSlug_empty_iff (t : string) :
  toSlug t = "" <-> strippedAway (trim t) = true.
Proof.
  rewrite toSlug_slugOf. unfold slugOf, strippedAway. split.
  - intros H. apply squeeze_empty, squeeze_empty in H. now apply sfilter_empty.
  - intros H. now rewrite (sfilter_none _ _ H).
Qed.

Lemma toSlug_variant (x y w1 w2 : string) :
  toLowerCase y = toLowerCase x ->
  sforall isWhiteSpace w1 = true -> sforall isWhiteSpace w2 = true ->
  toSlug (w1 ++ y ++ w2) = toSlug x.
Proof.
  intros Hy H1 H2. rewrite !toSlug_slugOf, (trim_padding _ _ _ H1 H2).
  unfold slugOf. now rewrite <- !trim_toLowerCase, Hy.
Qed.

(** ** The values [normalizeTime] reads *)

Lemma Star_Class_Matches (p : ascii -> bool) (a b : string) :
  sforall p a = true -> Matches (Star (Class p)) (a ++ b) (mkMatch [] a b).
Proof.
  intros Hp. apply run_Matches. rewrite run_Star_Class.
  change (mkMatch [] a b) with (splitMatch (a, b)). apply in_map.
  apply In_splits. now split.
Qed.

Lemma toLowerChar_digit (c : ascii) : isDigit c = true -> toLowerChar c = c.
Proof. each_char c. Qed.

Lemma toLowerChar_space (c : ascii) : isWhiteSpace c = true -> toLowerChar c = c.
Proof. each_char c. Qed.

Lemma isDigit_not_space (c : ascii) : isDigit c = true -> isWhiteSpace c = false.
Proof. each_char c. Qed.

Lemma isDigit_not_colon (c : ascii) : isDigit c = true -> c <> ":"%char.
Proof. intros H ->. discriminate H. Qed.

Lemma toLowerCase_unchanged (p : ascii -> bool) (s : string) :
  (forall c, p c = true -> toLowerChar c = c) -> sforall p s = true -> toLowerCase s = s.
Proof.
  intros Hp. unfold toLowerCase. induction s as [|c s IH]; simpl; [reflexivity|].
  intros H. apply andb_true_iff in H as [Hc Hs]. now rewrite (Hp c Hc), IH.
Qed.

Lemma isHour24_digits (h : string) : isHour24 h = true -> isOneOrTwoDigits h = true.
Proof.
  destruct h as [|c1 [|c2 [|c3 h]]]; try discriminate; cbn [isHour24 isOneOrTwoDigits];
    [trivial|].
  intros H. range_facts; range_goal.
Qed.

Lemma isMinute59_digits (mm : string) : isMinute59 mm = true -> isTwoDigits mm = true.
Proof.
  destruct mm as [|c1 [|c2 [|c3 h]]]; try discriminate; cbn [isMinute59 isTwoDigits].
  intros H. range_facts; range_goal.
Qed.

Lemma isOneOrTwoDigits_sforall (h : string) :
  isOneOrTwoDigits h = true -> sforall isDigit h = true /\ 1 <= String.length h <= 2.
Proof.
  destruct h as [|c1 [|c2 [|c3 h]]]; try discriminate; cbn [isOneOrTwoDigits sforall String.length];
    intros H; rewrite ?H, ?andb_true_r; split; try lia; reflexivity || assumption.
Qed.

Lemma isTwoDigits_sforall (mm : string) :
  isTwoDigits mm = true -> sforall isDigit mm = true /\ String.length mm = 2.
Proof.
  destruct mm as [|c1 [|c2 [|c3 h]]]; try discriminate; cbn [isTwoDigits sforall String.length].
  intros H. rewrite andb_true_r. now split.
Qed.

(** The hour ends at the first colon. *)
Lemma colon_split_unique (h h' r r' : string) :
  sforall isDigit h = true -> sforall isDigit h' = true ->
  (h ++ ":" ++ r)%string = (h' ++ ":" ++ r')%string -> h = h' /\ r = r'.
Proof.
  revert h'. induction h as [|c h IH]; intros h' Hh Hh' E.
  - destruct h' as [|c' h']; simpl in E.
    + injection E as <-. now split.
    + injection E as <- _. simpl in Hh'. discriminate.
  - destruct h' as [|c' h']; simpl in E.
    + injection E as -> _. simpl in Hh. discriminate.
    + injection E as <- E. simpl in Hh, Hh'.
      apply andb_true_iff in Hh as [_ Hh]. apply andb_true_iff in Hh' as [_ Hh'].
      destruct (IH h' Hh Hh' E) as [-> ->]. now split.
Qed.

Lemma append_same_length (a a' b b' : string) :
  String.length a = String.length a' ->
  (a ++ b)%string = (a' ++ b')%string -> a = a' /\ b = b'.
Proof.
  revert a'. induction a as [|c a IH]; intros [|c' a'] Hl E; try discriminate.
  - now split.
  - simpl in *. injection E as <- E. injection Hl as Hl.
    destruct (IH a' Hl E) as [-> ->]. now split.
Qed.

Lemma isMeridiem_shape (mer : string) :
  isMeridiem mer = true ->
  exists x y, mer = String x (String y "")
              /\ isWhiteSpace x = false /\ isWhiteSpace y = false
              /\ isTimeChar x = false.
Proof.
  unfold isMeridiem, toLowerCase. intros H.
  destruct mer as [|x [|y [|z mer]]];
    try (apply orb_true_iff in H as [H|H]; apply String.eqb_eq in H; simpl in H; discriminate).
  exists x, y. split; [reflexivity|].
  apply orb_true_iff in H as [H|H]; apply String.eqb_eq in H; simpl in H;
    injection H as Hx Hy; clear - Hx Hy;
    (split; [|split]); [each_char x|each_char y|each_char x|each_char x|each_char y|each_char x].
Qed.

(** Whitespace before a token ends where the token starts. *)
Lemma space_split_unique (ws ws' a b : string) :
  sforall isWhiteSpace ws = true -> sforall isWhiteSpace ws' = true ->
  startsWith isWhiteSpace a = false -> startsWith isWhiteSpace b = false ->
  isEmpty a = false -> isEmpty b = false ->
  (ws ++ a)%string = (ws' ++ b)%string -> ws = ws' /\ a = b.
Proof.
  revert ws'. induction ws as [|c ws IH]; intros ws' Hw Hw' Ha Hb Ea Eb E.
  - destruct ws' as [|c' ws']; [now split|].
    simpl in E. subst a. simpl in Ha, Hw'. rewrite Ha in Hw'. discriminate.
  - destruct ws' as [|c' ws'].
    + simpl in E. subst b. simpl in Hb, Hw. rewrite Hb in Hw. discriminate.
    + simpl in E. injection E as <- E. simpl in Hw, Hw'.
      apply andb_true_iff in Hw as [_ Hw]. apply andb_true_iff in Hw' as [_ Hw'].
      destruct (IH ws' Hw Hw' Ha Hb Ea Eb E) as [-> ->]. now split.
Qed.

Lemma trimEnd_keeps (a b : string) (c : ascii) (r : string) :
  trimEnd b = String c r -> trimEnd (a ++ b) = (a ++ trimEnd b)%string.
Proof.
  intros Hb. induction a as [|x a IH]; [reflexivity|].
  cbn [append trimEnd]. rewrite IH, Hb. now destruct a.
Qed.

Lemma twentyFourHour_accepts (h mm : string) :
  isHour24 h = true -> isMinute59 mm = true ->
  exists m, Matches twentyFourHour (h ++ ":" ++ mm) m.
Proof.
  intros Hh Hm.
  destruct mm as [|m1 [|m2 [|m3 mm]]]; try discriminate. cbn [isMinute59] in Hm.
  apply andb_true_iff in Hm as [Hm1 Hm2].
  assert (exists m, Matches (cat [lit ":"; Group (Seq (Class (in_range 48 53)) (Class isDigit)); End])
                      (String ":" (String m1 (String m2 ""))) m) as [mt Ht].
  { eexists. cbn [cat].
    eapply MSeq; [apply lit_Matches|]. cbn [rest].
    eapply MSeq; [apply MGroup; eapply MSeq; [apply MClass; exact Hm1|apply MClass; exact Hm2]|].
    cbn [rest after capture]. apply MEnd. }
  unfold twentyFourHour. cbn [cat] in *.
  destruct h as [|c1 [|c2 [|c3 h]]]; try discriminate; cbn [isHour24] in Hh.
  - eexists. eapply MSeq.
    + apply MGroup, MAltL. eapply MSeq; [apply MAltR, MEps|]. cbn [rest emptyMatch].
      apply MClass. exact Hh.
    + exact Ht.
  - apply orb_true_iff in Hh as [Hh|Hh]; apply andb_true_iff in Hh as [H1 H2].
    + eexists. eapply MSeq.
      * apply MGroup, MAltL. eapply MSeq; [apply MAltL, MClass; exact H1|]. cbn [rest].
        apply MClass. exact H2.
      * exact Ht.
    + eexists. eapply MSeq.
      * apply MGroup, MAltR. eapply MSeq; [apply MClass; exact H1|]. cbn [rest].
        apply MClass. exact H2.
      * exact Ht.
Qed.

Lemma isTimeChar_lower (c : ascii) : isTimeChar c = true -> toLowerChar c = c.
Proof. each_char c. Qed.

Lemma isTimeChar_not_space (c : ascii) :
  isTimeChar c = true -> negb (isWhiteSpace c) = true.
Proof. each_char c. Qed.

Lemma isDigit_isTimeChar (c : ascii) : isDigit c = true -> isTimeChar c = true.
Proof. unfold isTimeChar. now intros ->. Qed.

Lemma reading_isTimeChar (h mm : string) :
  sforall isDigit h = true -> sforall isDigit mm = true ->
  sforall isTimeChar (h ++ ":" ++ mm) = true.
Proof.
  intros Hh Hm. rewrite sforall_append. cbn [append sforall].
  rewrite (sforall_impl _ _ h isDigit_isTimeChar Hh),
    (sforall_impl _ _ mm isDigit_isTimeChar Hm). reflexivity.
Qed.

(** The 12-hour pattern needs its letters. *)
Lemma twelveHour_rejects (t : string) :
  sforall isTimeChar t = true -> test twelveHour t = false.
Proof.
  intros Ht. destruct (test twelveHour t) eqn:E; [|reflexivity].
  apply test_Matches in E as [m0 E].
  apply twelveHour_Matches in E as (h & mm & ws & mer & _ & -> & _ & _ & _ & Hmer).
  apply isMeridiem_shape in Hmer as (x & y & -> & _ & _ & Hx).
  rewrite sforall_append in Ht. cbn [append sforall] in Ht.
  rewrite !sforall_append in Ht. cbn [sforall] in Ht. rewrite Hx in Ht.
  rewrite ?andb_false_r, ?andb_false_l in Ht. cbn [andb] in Ht.
  rewrite ?andb_false_r in Ht. discriminate Ht.
Qed.

Lemma clock_reading_result (h mm w1 w2 : string) :
  isHour24 h = true -> isMinute59 mm = true ->
  sforall isWhiteSpace w1 = true -> sforall isWhiteSpace w2 = true ->
  normalizeTime (w1 ++ (h ++ ":" ++ mm) ++ w2) = Ok (padStart2 h ++ ":" ++ mm)%string.
Proof.
  intros Hh Hm H1 H2.
  destruct (isOneOrTwoDigits_sforall h (isHour24_digits h Hh)) as [Dh _].
  destruct (isTwoDigits_sforall mm (isMinute59_digits mm Hm)) as [Dm Lm].
  pose proof (reading_isTimeChar h mm Dh Dm) as Hc.
  assert (toLowerCase (trim (w1 ++ (h ++ ":" ++ mm) ++ w2)) = (h ++ ":" ++ mm)%string) as Ht.
  { rewrite (trim_padding _ _ _ H1 H2).
    rewrite trim_no_space by (apply (sforall_impl isTimeChar); [exact isTimeChar_not_space|exact Hc]).
    apply (toLowerCase_unchanged isTimeChar); [exact isTimeChar_lower|exact Hc]. }
  destruct (normalizeTime_twentyFourHour (w1 ++ (h ++ ":" ++ mm) ++ w2))
    as (h' & mm' & E & Hh' & Hm' & ->).
  - rewrite Ht. now apply twelveHour_rejects.
  - rewrite Ht. apply test_Matches. now apply twentyFourHour_accepts.
  - rewrite Ht in E.
    destruct (isOneOrTwoDigits_sforall h' (isHour24_digits h' Hh')) as [Dh' _].
    destruct (colon_split_unique h h' mm mm' Dh Dh' E) as [<- <-]. reflexivity.
Qed.

Lemma twelveHour_accepts (h mm ws mer : string) :
  isOneOrTwoDigits h = true -> isTwoDigits mm = true ->
  sforall isWhiteSpace ws = true ->
  mer = "am" \/ mer = "pm" ->
  exists m, Matches twelveHour (h ++ ":" ++ mm ++ ws ++ mer) m.
Proof.
  intros Hh Hm Hw Hmer.
  destruct mm as [|m1 [|m2 [|m3 mm]]]; try discriminate. cbn [isTwoDigits] in Hm.
  apply andb_true_iff in Hm as [Hm1 Hm2].
  assert (exists m, Matches (Seq (Group (Alt (Seq (ci "a") (ci "m")) (Seq (ci "p") (ci "m")))) End)
                      mer m) as [m5 H5].
  { destruct Hmer as [-> | ->]; eexists.
    - eapply MSeq.
      + apply MGroup, MAltL. eapply MSeq; apply MClass; reflexivity.
      + apply MEnd.
    - eapply MSeq.
      + apply MGroup, MAltR. eapply MSeq; apply MClass; reflexivity.
      + apply MEnd. }
  assert (exists m, Matches (Seq (Star (Class isWhiteSpace))
                               (Seq (Group (Alt (Seq (ci "a") (ci "m")) (Seq (ci "p") (ci "m")))) End))
                      (ws ++ mer) m) as [m4 H4].
  { eexists. eapply MSeq.
    - apply Star_Class_Matches. exact Hw.
    - exact H5. }
  assert (exists m, Matches (cat [lit ":"; Group (Seq (Class isDigit) (Class isDigit));
                                  Star (Class isWhiteSpace);
                                  Group (Alt (Seq (ci "a") (ci "m")) (Seq (ci "p") (ci "m")));
                                  End])
                      (String ":" (String m1 (String m2 (ws ++ mer)))) m) as [mt Ht].
  { eexists. cbn [cat]. eapply MSeq.
    - apply lit_Matches.
    - eapply MSeq.
      + apply MGroup. eapply MSeq; [apply MClass; exact Hm1|apply MClass; exact Hm2].
      + exact H4. }
  unfold twelveHour. cbn [cat append] in *.
  destruct h as [|c1 [|c2 [|c3 h]]]; try discriminate; cbn [isOneOrTwoDigits] in Hh.
  - eexists. eapply MSeq.
    + apply MGroup. eapply MSeq; [apply MClass; exact Hh|apply MAltR, MEps].
    + exact Ht.
  - apply andb_true_iff in Hh as [H1 H2]. eexists. eapply MSeq.
    + apply MGroup. eapply MSeq; [apply MClass; exact H1|apply MAltL, MClass; exact H2].
    + exact Ht.
Qed.

Lemma isMeridiem_lower (mer : string) :
  isMeridiem mer = true -> toLowerCase mer = "am" \/ toLowerCase mer = "pm".
Proof.
  unfold isMeridiem. intros H.
  apply orb_true_iff in H as [H|H]; apply String.eqb_eq in H; auto.
Qed.

Lemma meridiem_reading_result (h mm ws mer w1 w2 : string) :
  isOneOrTwoDigits h = true -> isTwoDigits mm = true ->
  sforall isWhiteSpace ws = true -> isMeridiem mer = true ->
  sforall isWhiteSpace w1 = true -> sforall isWhiteSpace w2 = true ->
  normalizeTime (w1 ++ (h ++ ":" ++ mm ++ ws ++ mer) ++ w2)
  = Ok (padStart2 (toString (to24 (Number h) (toLowerCase mer))) ++ ":" ++ mm)%string.
Proof.
  intros Hh Hm Hw Hmer H1 H2.
  destruct (isOneOrTwoDigits_sforall h Hh) as [Dh Lh].
  destruct (isTwoDigits_sforall mm Hm) as [Dm Lm].
  destruct (isMeridiem_shape mer Hmer) as (x & y & Emer & Hx & Hy & _).
  assert (toLowerCase (trim (w1 ++ (h ++ ":" ++ mm ++ ws ++ mer) ++ w2))
          = (h ++ ":" ++ mm ++ ws ++ toLowerCase mer)%string) as Ht.
  { rewrite (trim_padding _ _ _ H1 H2).
    assert (trim (h ++ ":" ++ mm ++ ws ++ mer) = (h ++ ":" ++ mm ++ ws ++ mer)%string) as ->.
    { unfold trim, trimStart. rewrite dropWhile_not_startsWith.
      - replace (h ++ ":" ++ mm ++ ws ++ mer)%string
          with ((h ++ ":" ++ mm ++ ws) ++ mer)%string
          by (rewrite !append_assoc; reflexivity).
        assert (trimEnd mer = mer) as Et.
        { subst mer. apply trimEnd_no_space. simpl. now rewrite Hx, Hy. }
        rewrite (trimEnd_keeps _ mer x (String y "")); [now rewrite Et|].
        rewrite Et. exact Emer.
      - destruct h as [|c h]; [discriminate|]. simpl in Dh |- *.
        apply andb_true_iff in Dh as [Dc _]. now apply isDigit_not_space. }
    unfold toLowerCase. rewrite smap_append. cbn [append smap].
    rewrite !smap_append.
    change (smap toLowerChar) with toLowerCase.
    rewrite (toLowerCase_unchanged isDigit h toLowerChar_digit Dh),
      (toLowerCase_unchanged isDigit mm toLowerChar_digit Dm),
      (toLowerCase_unchanged isWhiteSpace ws toLowerChar_space Hw).
    reflexivity. }
  destruct (normalizeTime_twelveHour (w1 ++ (h ++ ":" ++ mm ++ ws ++ mer) ++ w2))
    as (h' & mm' & ws' & mer' & E & Hh' & Hm' & Hw' & Hmer' & ->).
  - rewrite Ht. apply test_Matches.
    apply twelveHour_accepts; auto using isMeridiem_lower.
  - rewrite Ht in E.
    destruct (isOneOrTwoDigits_sforall h' Hh') as [Dh' _].
    destruct (isTwoDigits_sforall mm' Hm') as [_ Lm'].
    destruct (colon_split_unique h h' _ _ Dh Dh' E) as [<- E1].
    apply append_same_length in E1 as [<- E2]; [|congruence].
    destruct (isMeridiem_shape mer' Hmer') as (x' & y' & Emer' & Hx' & _ & _).
    assert (isMeridiem (toLowerCase mer) = true) as Hl
      by (unfold isMeridiem; now rewrite toLowerCase_idem).
    destruct (isMeridiem_shape _ Hl) as (a & b & Ea & Ha & _ & _).
    apply space_split_unique in E2 as [_ <-]; try assumption.
    + now rewrite toLowerCase_idem.
    + rewrite Ea. exact Ha.
    + rewrite Emer'. exact Hx'.
    + now rewrite Ea.
    + now rewrite Emer'.
Qed.

Lemma code_char (c : ascii) (n : N) : code c = n -> c = ascii_of_N n.
Proof. intros <-. unfold code. now rewrite ascii_N_embedding. Qed.

Lemma isClockTime_reading (s : string) :
  isClockTime s = true ->
  exists h mm, s = (h ++ ":" ++ mm)%string /\ isHour24 h = true
               /\ isMinute59 mm = true /\ padStart2 h = h.
Proof.
  destruct s as [|h1 [|h2 [|c [|m1 [|m2 [|x s]]]]]]; try discriminate; cbn [isClockTime];
    destruct c as [[|] [|] [|] [|] [|] [|] [|] [|]]; try discriminate.
  intros H. exists (String h1 (String h2 "")), (String m1 (String m2 "")).
  split; [reflexivity|]. split; [|split; [|reflexivity]].
  - cbn [isHour24]. range_facts.
    unfold Number in *. cbn [fold_left list_ascii_of_string] in *.
    destruct (N.le_gt_cases (code h1) 49) as [Hle|Hgt].
    + apply orb_true_iff. left. range_goal.
    + apply orb_true_iff. right.
      assert (code h1 = 50%N) as E by lia. apply code_char in E. subst h1.
      change (code (ascii_of_N 50)) with 50%N in *.
      apply andb_true_iff. split; [reflexivity|]. range_goal.
  - cbn [isMinute59]. range_facts.
    unfold Number in *. cbn [fold_left list_ascii_of_string] in *. range_goal.
Qed.

Lemma normalizeTime_clock_time (s : string) :
  isClockTime s = true -> normalizeTime s = Ok s.
Proof.
  intros H. apply isClockTime_reading in H as (h & mm & -> & Hh & Hm & Hp).
  pose proof (clock_reading_result h mm "" "" Hh Hm eq_refl eq_refl) as E.
  change ("" ++ (h ++ ":" ++ mm) ++ "")%string with ((h ++ ":" ++ mm) ++ "")%string in E.
  rewrite append_empty_r in E. rewrite E, Hp. reflexivity.
Qed.

Lemma padStart2_digits (s : string) :
  sforall isDigit s = true -> sforall isDigit (padStart2 s) = true.
Proof. destruct s as [|a [|b s]]; simpl; auto. Qed.

Lemma padStart2_idem (s : string) : padStart2 (padStart2 s) = padStart2 s.
Proof. now destruct s as [|a [|b s]]. Qed.

Lemma toString_digits (n : N) : sforall isDigit (toString n) = true.
Proof. unfold toString. now apply toStringFuel_digits. Qed.

(** A stored value that is not a clock time is refused when it is
    normalised again. *)
Lemma normalizeTime_not_clock_time (h mm : string) :
  sforall isDigit h = true -> isTwoDigits mm = true ->
  isClockTime (padStart2 h ++ ":" ++ mm) = false ->
  normalizeTime (padStart2 h ++ ":" ++ mm)
  = Throw "Invalid time format. Use HH:MM or HH:MM AM/PM.".
Proof.
  intros Dh Hm Hc.
  destruct (isTwoDigits_sforall mm Hm) as [Dm _].
  pose proof (reading_isTimeChar _ mm (padStart2_digits h Dh) Dm) as Ht.
  assert (toLowerCase (trim (padStart2 h ++ ":" ++ mm)) = (padStart2 h ++ ":" ++ mm)%string) as E.
  { rewrite trim_no_space by (apply (sforall_impl isTimeChar); [exact isTimeChar_not_space|exact Ht]).
    apply (toLowerCase_unchanged isTimeChar); [exact isTimeChar_lower|exact Ht]. }
  apply normalizeTime_neither; rewrite E; [now apply twelveHour_rejects|].
  destruct (test twentyFourHour _) eqn:T; [|reflexivity].
  apply test_Matches in T as [m0 T].
  apply twentyFourHour_Matches in T as (h' & mm' & _ & E' & Hh' & Hm').
  destruct (isOneOrTwoDigits_sforall h' (isHour24_digits h' Hh')) as [Dh' _].
  destruct (colon_split_unique _ h' _ _ (padStart2_digits h Dh) Dh' E') as [<- <-].
  destruct (clock_of_24 _ _ Hh' Hm') as [C _].
  rewrite padStart2_idem in C. congruence.
Qed.

Lemma stored_time_next (value stored : string) :
  normalizeTime value = Ok stored ->
  normalizeTime stored
  = if isClockTime stored then Ok stored
    else Throw "Invalid time format. Use HH:MM or HH:MM AM/PM.".
Proof.
  intros H. destruct (isClockTime stored) eqn:C; [now apply normalizeTime_clock_time|].
  destruct (normalizeTime_cases value)
    as [(h & mm & ws & mer & _ & Hh & Hm & _ & _ & E)
       |[(h & mm & _ & Hh & Hm & E)|(_ & _ & E)]];
    rewrite E in H; [| |discriminate H]; injection H as <-.
  - apply normalizeTime_not_clock_time; [apply toString_digits | exact Hm | exact C].
  - destruct (clock_of_24 _ _ Hh Hm) as [C' _]. destruct (eq_true_false_abs _ C' C).
Qed.

Lemma takeWhile_dropWhile (p : ascii -> bool) (s : string) :
  s = (takeWhile p s ++ dropWhile p s)%string /\ sforall p (takeWhile p s) = true.
Proof.
  induction s as [|c s [IH1 IH2]]; simpl; [now split|].
  destruct (p c) eqn:Hc; simpl; [|now split].
  rewrite Hc, IH2. split; [now rewrite <- IH1 | reflexivity].
Qed.

Lemma trimEnd_decompose (t : string) :
  exists w, t = (trimEnd t ++ w)%string /\ sforall isWhiteSpace w = true.
Proof.
  induction t as [|c t (w & E & Hw)]; [now exists ""|].
  cbn [trimEnd]. destruct (trimEnd t) as [|c' r] eqn:Et.
  - simpl in E. subst t. destruct (isWhiteSpace c) eqn:Hc.
    + exists (String c w). simpl. now rewrite Hc, Hw.
    + exists w. now split.
  - exists w. split; [|exact Hw]. simpl. now rewrite E at 1.
Qed.

(** What [trim] removes is whitespace at the two ends. *)
Lemma trim_decompose (v : string) :
  exists w1 w2, v = (w1 ++ trim v ++ w2)%string
                /\ sforall isWhiteSpace w1 = true /\ sforall isWhiteSpace w2 = true.
Proof.
  destruct (takeWhile_dropWhile isWhiteSpace v) as [E1 H1].
  destruct (trimEnd_decompose (dropWhile isWhiteSpace v)) as (w2 & E2 & H2).
  exists (takeWhile isWhiteSpace v), w2. unfold trim, trimStart.
  split; [|now split]. now rewrite <- E2.
Qed.

Lemma isDigit_toLowerChar (c : ascii) : isDigit (toLowerChar c) = isDigit c.
Proof. each_char c. Qed.

Lemma toLowerChar_colon (c : ascii) : toLowerChar c = ":"%char -> c = ":"%char.
Proof. each_char c. Qed.

Lemma toLowerCase_digits (s : string) :
  sforall isDigit (toLowerCase s) = true -> toLowerCase s = s.
Proof.
  unfold toLowerCase. rewrite (sforall_smap _ _ _ isDigit_toLowerChar).
  apply (toLowerCase_unchanged isDigit). exact toLowerChar_digit.
Qed.

Lemma toLowerCase_spaces (s : string) :
  sforall isWhiteSpace (toLowerCase s) = true -> toLowerCase s = s.
Proof.
  unfold toLowerCase. rewrite (sforall_smap _ _ _ isWhiteSpace_toLowerChar).
  apply (toLowerCase_unchanged isWhiteSpace). exact toLowerChar_space.
Qed.

Lemma isClockReading_of_trimmed (v h mm : string) :
  toLowerCase (trim v) = (h ++ ":" ++ mm)%string ->
  isHour24 h = true -> isMinute59 mm = true -> isClockReading v.
Proof.
  intros E Hh Hm.
  destruct (isOneOrTwoDigits_sforall h (isHour24_digits h Hh)) as [Dh _].
  destruct (isTwoDigits_sforall mm (isMinute59_digits mm Hm)) as [Dm _].
  destruct (trim_decompose v) as (w1 & w2 & Ev & H1 & H2).
  unfold toLowerCase in E.
  apply smap_split in E as (h0 & r0 & Et & E1 & E2).
  destruct r0 as [|c mm0]; [discriminate|]. cbn [smap append] in E2.
  injection E2 as Ec E2. apply toLowerChar_colon in Ec. subst c.
  assert (h0 = h) as ->.
  { rewrite <- E1. symmetry. apply toLowerCase_digits. unfold toLowerCase. now rewrite E1. }
  assert (mm0 = mm) as ->.
  { rewrite <- E2. symmetry. apply toLowerCase_digits. unfold toLowerCase. now rewrite E2. }
  exists w1, h, mm, w2. rewrite Et in Ev. now repeat split.
Qed.

Lemma isMeridiemReading_of_trimmed (v h mm ws mer : string) :
  toLowerCase (trim v) = (h ++ ":" ++ mm ++ ws ++ mer)%string ->
  isOneOrTwoDigits h = true -> isTwoDigits mm = true ->
  sforall isWhiteSpace ws = true -> isMeridiem mer = true -> isMeridiemReading v.
Proof.
  intros E Hh Hm Hw Hmer.
  destruct (isOneOrTwoDigits_sforall h Hh) as [Dh _].
  destruct (isTwoDigits_sforall mm Hm) as [Dm _].
  destruct (trim_decompose v) as (w1 & w2 & Ev & H1 & H2).
  unfold toLowerCase in E.
  apply smap_split in E as (h0 & r0 & Et & E1 & E2).
  destruct r0 as [|c r1]; [discriminate|]. cbn [smap append] in E2.
  injection E2 as Ec E2. apply toLowerChar_colon in Ec. subst c.
  apply smap_split in E2 as (mm0 & r2 & -> & E2 & E3).
  apply smap_split in E3 as (ws0 & mer0 & -> & E3 & E4).
  assert (h0 = h) as ->.
  { rewrite <- E1. symmetry. apply toLowerCase_digits. unfold toLowerCase. now rewrite E1. }
  assert (mm0 = mm) as ->.
  { rewrite <- E2. symmetry. apply toLowerCase_digits. unfold toLowerCase. now rewrite E2. }
  assert (ws0 = ws) as ->.
  { rewrite <- E3. symmetry. apply toLowerCase_spaces. unfold toLowerCase. now rewrite E3. }
  exists w1, h, mm, ws, mer0, w2. rewrite Et in Ev.
  split; [exact Ev|]. repeat split; try assumption.
  unfold isMeridiem in *. change (smap toLowerChar mer0) with (toLowerCase mer0) in E4.
  rewrite <- E4, toLowerCase_idem in Hmer. exact Hmer.
Qed.

(** X10.  [normalizeTime] accepts exactly two kinds of values, whitespace
    around them allowed: one or two digits, a colon, two digits, optional
    whitespace and [am] or [pm] in any letter case; or an hour from 0 to 23
    in one or two digits, a colon and minutes from 00 to 59.  Every other
    value is rejected with the format error, the only error it raises. *)
Theorem normalizeTime_accepts_exactly (value : string) :
  match normalizeTime value with
  | Ok _ => isMeridiemReading value \/ isClockReading value
  | Throw msg =>
      msg = "Invalid time format. Use HH:MM or HH:MM AM/PM."
      /\ ~ (isMeridiemReading value \/ isClockReading value)
  end.
Proof.
  destruct (normalizeTime_cases value)
    as [(h & mm & ws & mer & Et & Hh & Hm & Hw & Hmer & E)
       |[(h & mm & Et & Hh & Hm & E)|(_ & _ & E)]]; rewrite E.
  - left. exact (isMeridiemReading_of_trimmed value h mm ws mer Et Hh Hm Hw Hmer).
  - right. exact (isClockReading_of_trimmed value h mm Et Hh Hm).
  - split; [reflexivity|].
    intros [(w1 & h & mm & ws & mer & w2 & -> & H1 & H2 & Hh & Hm & Hw & Hmer)
           |(w1 & h & mm & w2 & -> & H1 & H2 & Hh & Hm)].
    + rewrite (meridiem_reading_result h mm ws mer w1 w2 Hh Hm Hw Hmer H1 H2) in E.
      discriminate E.
    + rewrite (clock_reading_result h mm w1 w2 Hh Hm H1 H2) in E. discriminate E.
Qed.

(** X11.  A 24-hour value, an hour from 0 to 23 in one or two digits, a
    colon and minutes from 00 to 59, with any whitespace around it, is
    stored with its hour padded to two digits: the stored text is a clock
    time with the same hour and the same minutes. *)
Theorem normalizeTime_reads_clock_time (h mm w1 w2 : string) :
  isHour24 h = true -> isMinute59 mm = true ->
  sforall isWhiteSpace w1 = true -> sforall isWhiteSpace w2 = true ->
  normalizeTime (w1 ++ (h ++ ":" ++ mm) ++ w2) = Ok (padStart2 h ++ ":" ++ mm)%string
  /\ isClockTime (padStart2 h ++ ":" ++ mm) = true
  /\ Number (padStart2 h) = Number h.
Proof.
  intros Hh Hm H1 H2. split; [now apply clock_reading_result|].
  now apply clock_of_24.
Qed.

Lemma normalizeTime_reads_clock_time_witness :
  normalizeTime "  7:05 " = Ok "07:05" /\ isClockTime "07:05" = true
  /\ Number "07" = Number "7".
Proof.
  exact (normalizeTime_reads_clock_time "7" "05" "  " " " eq_refl eq_refl eq_refl eq_refl).
Defined.

(** X12.  A 12-hour value, one or two digits, a colon, two digits,
    optional whitespace and [am] or [pm] in any letter case, with any
    whitespace around it, is stored as the converted hour (12 am is 0,
    12 pm stays 12, any other pm hour gains 12), padded to two digits, a
    colon and the minutes as given.  The stored text is a clock time
    exactly when the converted hour is at most 23 and the minutes at most
    59; it is one, with a two-digit hour that reads as the converted hour,
    for every hour from 1 to 12 and minutes up to 59. *)
Theorem normalizeTime_reads_meridiem_time (h mm ws mer w1 w2 : string) :
  isOneOrTwoDigits h = true -> isTwoDigits mm = true ->
  sforall isWhiteSpace ws = true -> isMeridiem mer = true ->
  sforall isWhiteSpace w1 = true -> sforall isWhiteSpace w2 = true ->
  let stored :=
    (padStart2 (toString (to24 (Number h) (toLowerCase mer))) ++ ":" ++ mm)%string in
  normalizeTime (w1 ++ (h ++ ":" ++ mm ++ ws ++ mer) ++ w2) = Ok stored
  /\ (isClockTime stored = true
      <-> (to24 (Number h) (toLowerCase mer) <= 23)%N /\ (Number mm <= 59)%N)
  /\ ((1 <= Number h <= 12)%N -> (Number mm <= 59)%N ->
      isClockTime stored = true
      /\ twoDigitsOf (to24 (Number h) (toLowerCase mer))
           (padStart2 (toString (to24 (Number h) (toLowerCase mer)))) = true).
Proof.
  intros Hh Hm Hw Hmer H1 H2 stored. subst stored.
  split; [now apply meridiem_reading_result|].
  pose proof (to24_bound _ (toLowerCase mer) (Number_digits_bound h Hh)) as Hb.
  destruct (clock_of_12 _ mm Hm Hb) as [_ Hclock].
  split; [exact Hclock|]. intros [_ Hle] Hmin.
  pose proof (to24_in_range (Number h) (toLowerCase mer) Hle) as H23.
  split; [apply Hclock; now split|].
  apply pad2_two_digits. lia.
Qed.

Lemma normalizeTime_reads_meridiem_time_witness :
  normalizeTime " 9:05  Pm" = Ok "21:05" /\ isClockTime "21:05" = true.
Proof.
  destruct (normalizeTime_reads_meridiem_time "9" "05" "  " "Pm" " " ""
              eq_refl eq_refl eq_refl eq_refl eq_refl eq_refl) as (H & _ & Hc).
  split; [exact H|].
  apply Hc; [vm_compute; split; discriminate | vm_compute; discriminate].
Defined.

Lemma normalizeTime_stored_chars (value stored : string) :
  normalizeTime value = Ok stored ->
  exists h mm, stored = (h ++ ":" ++ mm)%string
               /\ sforall isDigit h = true /\ (2 <= String.length h <= 3)%nat
               /\ isTwoDigits mm = true.
Proof.
  intros H.
  destruct (normalizeTime_cases value)
    as [(h & mm & ws & mer & _ & Hh & Hm & _ & _ & E)
       |[(h & mm & _ & Hh & Hm & E)|(_ & _ & E)]];
    rewrite E in H; [| |discriminate H]; injection H as <-.
  - eexists. exists mm. split; [reflexivity|].
    split; [apply padStart2_digits, toString_digits|]. split; [|exact Hm].
    pose proof (to24_bound _ (toLowerCase mer) (Number_digits_bound h Hh)) as Hb.
    destruct (N.lt_ge_cases (to24 (Number h) (toLowerCase mer)) 100) as [Hlt|Hge].
    + pose proof (pad2_two_digits _ Hlt) as P.
      destruct (padStart2 _) as [|x [|y [|z s]]]; try discriminate P. simpl. lia.
    + rewrite (pad2_three_digits _ (conj Hge Hb)). lia.
  - exists (padStart2 h), mm. split; [reflexivity|].
    destruct (isOneOrTwoDigits_sforall h (isHour24_digits h Hh)) as [Dh Lh].
    split; [now apply padStart2_digits|]. split; [|now apply isMinute59_digits].
    destruct h as [|x [|y [|z s]]]; simpl in *; lia.
Qed.

(** X13.  What [normalizeTime] returns is always two or three digits, a
    colon and two digits (never the text of an undefined hour or minute),
    and what it throws is always the format error. *)
Theorem normalizeTime_stored_shape (value : string) :
  match normalizeTime value with
  | Ok stored =>
      exists h mm, stored = (h ++ ":" ++ mm)%string
                   /\ sforall isDigit h = true /\ (2 <= String.length h <= 3)%nat
                   /\ isTwoDigits mm = true
  | Throw msg => msg = "Invalid time format. Use HH:MM or HH:MM AM/PM."
  end.
Proof.
  destruct (normalizeTime value) as [stored|msg] eqn:E.
  - now apply (normalizeTime_stored_chars value).
  - now apply normalizeTime_Throw in E.
Qed.

(** X14.  A time the function has returned is, when normalised again on
    a later save, returned unchanged if it is a clock time (hour 00-23,
    minutes 00-59) and rejected with the format error if it is not, as are
    the results "25:00" of "13:00 pm". *)
Theorem stored_time_on_next_save (value stored : string) :
  normalizeTime value = Ok stored ->
  normalizeTime stored
  = if isClockTime stored then Ok stored
    else Throw "Invalid time format. Use HH:MM or HH:MM AM/PM.".
Proof. apply stored_time_next. Qed.

Lemma stored_time_on_next_save_witness :
  normalizeTime "09:30" = Ok "09:30"
  /\ normalizeTime "25:00" = Throw "Invalid time format. Use HH:MM or HH:MM AM/PM.".
Proof.
  split.
  - exact (stored_time_on_next_save "9:30" "09:30" eq_refl).
  - exact (stored_time_on_next_save "13:00 pm" "25:00" eq_refl).
Defined.

(** ** The calendar, and the dates [normalizeDate] stores *)

Section Calendar.

Local Open Scope Z_scope.

Ltac to_prop :=
  repeat match goal with
         | H : (_ <=? _) = true |- _ => apply Z.leb_le in H
         | H : (_ <=? _) = false |- _ => apply Z.leb_gt in H
         | H : (_ <? _) = true |- _ => apply Z.ltb_lt in H
         | H : (_ <? _) = false |- _ => apply Z.ltb_ge in H
         | H : (_ =? _) = true |- _ => apply Z.eqb_eq in H
         | H : (_ =? _) = false |- _ => apply Z.eqb_neq in H
         | H : _ && _ = true |- _ => apply andb_true_iff in H; destruct H
         | H : _ || _ = true |- _ => apply orb_true_iff in H; destruct H
         | H : _ && _ = false |- _ => apply andb_false_iff in H; destruct H
         | H : _ || _ = false |- _ => apply orb_false_iff in H; destruct H
         | H : negb _ = true |- _ => apply negb_true_iff in H
         | H : negb _ = false |- _ => apply negb_false_iff in H
         end.

Ltac div_lia := Z.div_mod_to_equations; lia.

(** The day of the era: the year of the era it falls in, and the day of
    that year, which is the 366th only before a leap year's March. *)
Lemma yearOfEra_of_day (doe : Z) :
  0 <= doe < 146097 ->
  let yoe := (doe - doe / 1460 + doe / 36524 - doe / 146096) / 365 in
  let doy := doe - (365 * yoe + yoe / 4 - yoe / 100) in
  0 <= yoe <= 399 /\ 0 <= doy <= 365
  /\ (doy = 365 -> (yoe + 1) mod 4 = 0 /\ ((yoe + 1) mod 100 = 0 -> yoe = 399)).
Proof.
  intros H. cbv zeta. split; [div_lia|]. split; [div_lia|].
  intros E. split; [div_lia|]. intros E2. div_lia.
Qed.

Lemma day_of_yearOfEra (yoe doy : Z) :
  0 <= yoe <= 399 -> 0 <= doy <= 365 ->
  (doy = 365 -> (yoe + 1) mod 4 = 0 /\ ((yoe + 1) mod 100 = 0 -> yoe = 399)) ->
  let doe := 365 * yoe + yoe / 4 - yoe / 100 + doy in
  0 <= doe < 146097
  /\ (doe - doe / 1460 + doe / 36524 - doe / 146096) / 365 = yoe.
Proof.
  intros Hy Hd Hl. cbv zeta.
  destruct (Z.eq_dec doy 365) as [E|E].
  - destruct (Hl E) as [H4 H100]. clear Hl.
    destruct (Z.eq_dec ((yoe + 1) mod 100) 0) as [E1|E1].
    + specialize (H100 E1). subst yoe doy. vm_compute.
      split; [split; [discriminate|reflexivity]|reflexivity].
    + clear H100. split; div_lia.
  - clear Hl. split; div_lia.
Qed.

Lemma month_of_day (doy : Z) :
  0 <= doy <= 365 ->
  let mp := (5 * doy + 2) / 153 in
  let d := doy - (153 * mp + 2) / 5 + 1 in
  0 <= mp <= 11 /\ 1 <= d /\ d <= monthLength mp (doy =? 365).
Proof.
  intros H. cbv zeta.
  assert (0 <= (5 * doy + 2) / 153 <= 11) as Hmp by div_lia.
  split; [exact Hmp|]. split; [div_lia|].
  unfold monthLength.
  repeat match goal with
         | |- context [(?a =? ?b)] => destruct (a =? b) eqn:?
         end; cbn [orb]; to_prop; div_lia.
Qed.

(** Every day number is a date of the calendar. *)
Lemma civilFromDays_valid (days : Z) :
  let '(y, m, d) := Date.civilFromDays days in Date.validDate y m d = true.
Proof.
  unfold Date.civilFromDays. cbv zeta.
  set (z := days + 719468). set (era := z / 146097). set (doe := z - era * 146097).
  assert (0 <= doe < 146097) as Hdoe by (subst doe era; div_lia).
  pose proof (yearOfEra_of_day doe Hdoe) as Hy. cbv zeta in Hy.
  set (yoe := (doe - doe / 1460 + doe / 36524 - doe / 146096) / 365) in *.
  set (doy := doe - (365 * yoe + yoe / 4 - yoe / 100)) in *.
  destruct Hy as (Hyoe & Hdoy & Hleap).
  pose proof (month_of_day doy Hdoy) as Hm. cbv zeta in Hm.
  set (mp := (5 * doy + 2) / 153) in *.
  set (d := doy - (153 * mp + 2) / 5 + 1) in *.
  destruct Hm as (Hmp & Hd1 & Hd2).
  clearbody d mp doy yoe doe era. clear Hdoe Hdoy z.
  unfold monthLength in Hd2.
  unfold Date.validDate, Date.daysInMonth, Date.isLeapYear.
  repeat match goal with
         | |- context [if ?b then _ else _] => destruct b eqn:?
         | H : context [if ?b then _ else _] |- _ => destruct b eqn:?
         end;
    to_prop; try lia;
    repeat (apply andb_true_iff; split); try (apply Z.leb_le); try lia;
    match goal with
    | H : doy = 365 |- _ => destruct (Hleap H) as [L4 L100]; clear Hleap
    | _ => clear Hleap
    end;
    try (exfalso; div_lia).
Qed.

Lemma day_of_month (mp d : Z) (leap : bool) :
  0 <= mp <= 11 -> 1 <= d <= monthLength mp leap ->
  let doy := (153 * mp + 2) / 5 + d - 1 in
  0 <= doy <= 365 /\ (doy = 365 -> leap = true)
  /\ (5 * doy + 2) / 153 = mp /\ doy - (153 * mp + 2) / 5 + 1 = d.
Proof.
  intros Hmp Hd. cbv zeta.
  assert (mp = 0 \/ mp = 1 \/ mp = 2 \/ mp = 3 \/ mp = 4 \/ mp = 5 \/ mp = 6
          \/ mp = 7 \/ mp = 8 \/ mp = 9 \/ mp = 10 \/ mp = 11) as C by lia.
  repeat (destruct C as [->|C]); try subst mp;
    unfold monthLength in Hd; destruct leap; cbn in Hd;
    (split; [div_lia|]); (split; [try reflexivity; intros; exfalso; div_lia|]);
    (split; div_lia).
Qed.

Lemma civilFromDays_parts (era yoe doy mp d : Z) :
  0 <= yoe <= 399 -> 0 <= doy <= 365 ->
  (doy = 365 -> (yoe + 1) mod 4 = 0 /\ ((yoe + 1) mod 100 = 0 -> yoe = 399)) ->
  (5 * doy + 2) / 153 = mp -> doy - (153 * mp + 2) / 5 + 1 = d ->
  Date.civilFromDays (era * 146097 + (yoe * 365 + yoe / 4 - yoe / 100 + doy) - 719468)
  = (if (if mp <? 10 then mp + 3 else mp - 9) <=? 2
     then yoe + era * 400 + 1 else yoe + era * 400,
     if mp <? 10 then mp + 3 else mp - 9, d).
Proof.
  intros Hyoe Hdoy Hleap Hmp Hd.
  destruct (day_of_yearOfEra yoe doy Hyoe Hdoy Hleap) as [Hdoe Hy]. cbv zeta in Hdoe, Hy.
  replace (yoe * 365) with (365 * yoe) by ring.
  set (doe := 365 * yoe + yoe / 4 - yoe / 100 + doy) in *.
  unfold Date.civilFromDays. cbv zeta.
  replace (era * 146097 + doe - 719468 + 719468) with (doe + era * 146097) by ring.
  rewrite Z.div_add by lia. rewrite (Z.div_small doe 146097) by lia.
  replace (doe + era * 146097 - (0 + era) * 146097) with doe by ring.
  rewrite Hy.
  replace (doe - (365 * yoe + yoe / 4 - yoe / 100)) with doy by (subst doe; ring).
  rewrite Hmp, Hd. replace (0 + era) with era by ring. reflexivity.
Qed.

(** A date of the calendar is the date of its day number. *)
Lemma civilFromDays_daysFromCivil (y m d : Z) :
  Date.validDate y m d = true ->
  Date.civilFromDays (Date.daysFromCivil y m d) = (y, m, d).
Proof.
  unfold Date.validDate. intros H. to_prop.
  unfold Date.daysFromCivil. cbv zeta.
  set (y' := if m <=? 2 then y - 1 else y).
  set (era := y' / 400). set (yoe := y' - era * 400).
  set (mp := if Z.gtb m 2 then m - 3 else m + 9).
  assert (0 <= yoe <= 399) as Hyoe by (subst yoe era; div_lia).
  assert (0 <= mp <= 11) as Hmp by (subst mp; rewrite Z.gtb_ltb; destruct (2 <? m) eqn:?; to_prop; lia).
  assert (1 <= d <= monthLength mp (Date.isLeapYear y)) as Hd.
  { split; [assumption|]. unfold Date.daysInMonth in *. unfold monthLength. subst mp.
    rewrite Z.gtb_ltb.
    repeat match goal with
           | |- context [if ?b then _ else _] => destruct b eqn:?
           | H : context [if ?b then _ else _] |- _ => destruct b eqn:?
           end; to_prop; lia. }
  destruct (day_of_month mp d _ Hmp Hd) as (Hdoy & Hl & E1 & E2). cbv zeta in *.
  set (doy := (153 * mp + 2) / 5 + d - 1) in *.
  rewrite (civilFromDays_parts era yoe doy mp d Hyoe Hdoy); [| |exact E1|exact E2].
  - assert (yoe + era * 400 = y') as -> by (subst yoe; ring).
    subst mp y'. rewrite Z.gtb_ltb.
    destruct (m <=? 2) eqn:Em; destruct (2 <? m) eqn:Em'; to_prop; try lia.
    + assert ((m + 9 <? 10) = false) as -> by (apply Z.ltb_ge; lia).
      replace (m + 9 - 9) with m by lia. replace (y - 1 + 1) with y by lia.
      assert ((m <=? 2) = true) as -> by (apply Z.leb_le; lia). reflexivity.
    + assert ((m - 3 <? 10) = true) as -> by (apply Z.ltb_lt; lia).
      replace (m - 3 + 3) with m by lia.
      assert ((m <=? 2) = false) as -> by (apply Z.leb_gt; lia). reflexivity.
  - intros E. specialize (Hl E). unfold Date.isLeapYear in Hl.
    assert (mp = 11) as Emp by (subst doy; clear - E Hmp Hd Hdoy; unfold monthLength in Hd;
      repeat match goal with
             | H : context [if ?b then _ else _] |- _ => destruct b eqn:?
             end; to_prop; div_lia).
    assert (y = yoe + era * 400 + 1) as Ey.
    { subst yoe y' mp. rewrite Z.gtb_ltb in Emp.
      destruct (m <=? 2) eqn:?; destruct (2 <? m) eqn:?; to_prop; lia. }
    clearbody yoe era. clear - Hl Ey Hyoe. subst y. to_prop; split; try div_lia;
      intros; div_lia.
Qed.

End Calendar.

Lemma allFrom_spec (P : N -> bool) (fuel : nat) (n : N) :
  allFrom P fuel n = true ->
  forall k, (n <= k < n + N.of_nat fuel)%N -> P k = true.
Proof.
  revert n. induction fuel as [|fuel IH]; intros n H k Hk; [lia|].
  cbn [allFrom] in H. apply andb_true_iff in H as [Hn H].
  destruct (N.eq_dec k n) as [->|Hne]; [exact Hn|].
  apply (IH (N.succ n) H). lia.
Qed.

Lemma pad4_digits (y : Z) :
  (0 <= y <= 9999)%Z -> fourDigitsOf (Z.to_N y) (Date.pad 4 y) = true.
Proof.
  intros Hy.
  assert (allFrom (fun n => fourDigitsOf n (Date.pad 4 (Z.of_N n))) (N.to_nat 10000) 0 = true)
    as H by (vm_compute; reflexivity).
  pose proof (allFrom_spec _ _ _ H (Z.to_N y)) as Hk. cbv beta in Hk.
  rewrite Z2N.id in Hk by lia. apply Hk. lia.
Qed.

Lemma pad2_digits (n : Z) :
  (0 <= n <= 99)%Z -> twoDigitsOf (Z.to_N n) (Date.pad 2 n) = true.
Proof.
  intros Hn.
  assert (allFrom (fun n => twoDigitsOf n (Date.pad 2 (Z.of_N n))) (N.to_nat 100) 0 = true)
    as H by (vm_compute; reflexivity).
  pose proof (allFrom_spec _ _ _ H (Z.to_N n)) as Hk. cbv beta in Hk.
  rewrite Z2N.id in Hk by lia. apply Hk. lia.
Qed.

Lemma match_dateOnly (a b c e f g h i : ascii) :
  isDigit a = true -> isDigit b = true -> isDigit c = true -> isDigit e = true ->
  isDigit f = true -> isDigit g = true -> isDigit h = true -> isDigit i = true ->
  match_ Date.dateOnly
    (String a (String b (String c (String e (String "-"
       (String f (String g (String "-" (String h (String i "")))))))))) =
  Some [ String a (String b (String c (String e (String "-"
           (String f (String g (String "-" (String h (String i "")))))))));
         String a (String b (String c (String e "")));
         String f (String g ""); String h (String i "") ].
Proof.
  intros Ha Hb Hc He Hf Hg Hh Hi.
  unfold match_, exec, Date.dateOnly, Date.digits.
  cbn -[isDigit]; rewrite Ha; cbn -[isDigit]; rewrite Hb; cbn -[isDigit]; rewrite Hc;
  cbn -[isDigit]; rewrite He; cbn -[isDigit]; rewrite Hf; cbn -[isDigit]; rewrite Hg;
  cbn -[isDigit]; rewrite Hh; cbn -[isDigit]; rewrite Hi; cbn -[isDigit].
  reflexivity.
Qed.

Lemma validDate_bounds (y m d : Z) :
  Date.validDate y m d = true -> (1 <= m <= 12 /\ 1 <= d <= 31)%Z.
Proof.
  unfold Date.validDate, Date.daysInMonth. intros H.
  repeat (apply andb_true_iff in H; destruct H as [H ?]).
  repeat match goal with
         | H : context [if ?b then _ else _] |- _ => destruct b
         end;
    repeat match goal with
           | H : (_ <=? _)%Z = true |- _ => apply Z.leb_le in H
           end; lia.
Qed.

(** The date-only form of a date of the calendar is read as its UTC
    midnight. *)
Lemma parseDateOnly_isoDate (y m d : Z) :
  (0 <= y <= 9999)%Z -> Date.validDate y m d = true ->
  Date.parseDateOnly (isoDate y m d)
  = Some (Date.daysFromCivil y m d * Date.msPerDay)%Z.
Proof.
  intros Hy Hv. destruct (validDate_bounds y m d Hv) as [Hm Hd].
  pose proof (pad4_digits y Hy) as Py.
  pose proof (pad2_digits m ltac:(lia)) as Pm.
  pose proof (pad2_digits d ltac:(lia)) as Pd.
  unfold isoDate, Date.parseDateOnly.
  destruct (Date.pad 4 y) as [|a [|b [|c [|e [|x sy]]]]]; try discriminate Py.
  destruct (Date.pad 2 m) as [|f [|g [|x sm]]]; try discriminate Pm.
  destruct (Date.pad 2 d) as [|h [|i [|x sd]]]; try discriminate Pd.
  cbn [fourDigitsOf twoDigitsOf] in Py, Pm, Pd.
  repeat match goal with
         | H : _ && _ = true |- _ => apply andb_true_iff in H; destruct H
         end.
  cbn [append]. rewrite match_dateOnly by assumption.
  unfold Date.num.
  repeat match goal with
         | H : (_ =? _)%N = true |- _ => apply N.eqb_eq in H; rewrite H; clear H
         end.
  rewrite !Z2N.id by lia. now rewrite Hv.
Qed.

Lemma isoYear_notT (y : Z) : sforall notT (Date.isoYear y) = true.
Proof.
  assert (forall w n, sforall notT (Date.pad w n) = true) as Hpad.
  { intros w n. apply (sforall_impl isDigit); [exact isDigit_notT | apply pad_digits]. }
  unfold Date.isoYear.
  destruct ((0 <=? y)%Z && (y <=? 9999)%Z); [apply Hpad|].
  destruct (y <? 0)%Z; cbn [append sforall]; now rewrite Hpad.
Qed.

(** The date part of an ISO string, whatever the year *)
Lemma toISOString_date_part (t : Z) :
  let '(y, m, d) := Date.civilFromDays (t / Date.msPerDay) in
  takeWhile notT (Date.toISOString t)
  = (Date.isoYear y ++ "-" ++ Date.pad 2 m ++ "-" ++ Date.pad 2 d)%string.
Proof.
  unfold Date.toISOString.
  destruct (Date.civilFromDays (t / Date.msPerDay)) as [[y m] d].
  assert (forall w n, sforall notT (Date.pad w n) = true) as Hpad.
  { intros w n. apply (sforall_impl isDigit); [exact isDigit_notT | apply pad_digits]. }
  rewrite takeWhile_append by apply isoYear_notT. f_equal.
  cbn [append takeWhile]. change (notT "-") with true. cbn iota.
  rewrite takeWhile_append by apply Hpad. do 2 f_equal.
  cbn [append takeWhile]. change (notT "-") with true. cbn iota.
  rewrite takeWhile_append by apply Hpad.
  cbn [append takeWhile]. change (notT "T") with false. cbn iota.
  now rewrite append_empty_r.
Qed.

Lemma pad_length (width : nat) (n : Z) : (width <= String.length (Date.pad width n))%nat.
Proof.
  unfold Date.pad. rewrite append_length.
  assert (forall k, String.length (Date.zeros k) = k) as Hz
    by (induction k as [|k IH]; simpl; [reflexivity | now rewrite IH]).
  rewrite Hz. lia.
Qed.

Lemma isoYear_length (y : Z) :
  (String.length (Date.isoYear y) = 4 /\ (0 <= y <= 9999)%Z)
  \/ (7 <= String.length (Date.isoYear y))%nat.
Proof.
  unfold Date.isoYear.
  destruct ((0 <=? y)%Z && (y <=? 9999)%Z) eqn:E.
  - left. apply andb_true_iff in E as [E1 E2]. apply Z.leb_le in E1, E2.
    pose proof (pad4_digits y (conj E1 E2)) as H.
    destruct (Date.pad 4 y) as [|a [|b [|c [|e [|x sy]]]]]; try discriminate H.
    now split.
  - right. destruct (y <? 0)%Z; cbn [append String.length];
      match goal with |- context [Date.pad 6 ?n] => pose proof (pad_length 6 n) end; lia.
Qed.

Lemma normalizeDate_isoDate (engine : string -> option Z) (y m d : Z) :
  (0 <= y <= 9999)%Z -> Date.validDate y m d = true ->
  normalizeDate engine (isoDate y m d) = Ok (isoDate y m d).
Proof.
  intros Hy Hv.
  assert (newDate engine (isoDate y m d)
          = Some (Date.daysFromCivil y m d * Date.msPerDay)%Z) as Hnew
    by (unfold newDate; now rewrite parseDateOnly_isoDate).
  pose proof (normalizeDate_stores_utc_date engine _ _ Hnew) as H.
  rewrite Z.div_mul in H by discriminate.
  rewrite (civilFromDays_daysFromCivil y m d Hv) in H. exact (H Hy).
Qed.

Lemma normalizeDate_stored (engine : string -> option Z) (value stored : string) :
  normalizeDate engine value = Ok stored -> String.length stored = 10 ->
  exists y m d,
    (0 <= y <= 9999)%Z /\ Date.validDate y m d = true /\ stored = isoDate y m d.
Proof.
  intros H Hlen. apply normalizeDate_Ok in H as (t & _ & ->).
  pose proof (toISOString_date_part t) as Hd.
  pose proof (civilFromDays_valid (t / Date.msPerDay)) as Hv.
  destruct (Date.civilFromDays (t / Date.msPerDay)) as [[y m] d].
  change (fun c => negb (isChar "T" c)) with notT in *.
  rewrite Hd in *. exists y, m, d.
  destruct (isoYear_length y) as [[H4 Hy]|H7].
  - split; [exact Hy|]. split; [exact Hv|]. unfold isoDate, Date.isoYear.
    destruct Hy as [Hlo Hhi]. apply Z.leb_le in Hlo, Hhi. now rewrite Hlo, Hhi.
  - exfalso. rewrite append_length in Hlen. cbn [append String.length] in Hlen.
    rewrite append_length in Hlen. cbn [append String.length] in Hlen.
    pose proof (pad_length 2 m). pose proof (pad_length 2 d). lia.
Qed.

(** X15.  A date of the calendar given in the date-only ISO form
    [YYYY-MM-DD], year 0 to 9999, is stored exactly as given, whatever the
    engine's own parser does. *)
Theorem date_only_input_is_kept (engine : string -> option Z) (y m d : Z) :
  (0 <= y <= 9999)%Z -> Date.validDate y m d = true ->
  normalizeDate engine (isoDate y m d) = Ok (isoDate y m d).
Proof. apply normalizeDate_isoDate. Qed.

Lemma date_only_input_is_kept_witness :
  normalizeDate strictEngine "2024-02-29" = Ok "2024-02-29".
Proof.
  exact (date_only_input_is_kept strictEngine 2024 2 29 ltac:(lia) eq_refl).
Defined.

(** X16.  A stored date of ten characters is the date-only ISO form of a
    date of the calendar, and normalising it again on a later save returns
    it unchanged. *)
Theorem stored_date_on_next_save (engine : string -> option Z) (value stored : string) :
  normalizeDate engine value = Ok stored -> String.length stored = 10 ->
  (exists y m d,
     (0 <= y <= 9999)%Z /\ Date.validDate y m d = true /\ stored = isoDate y m d)
  /\ normalizeDate engine stored = Ok stored.
Proof.
  intros H Hlen.
  destruct (normalizeDate_stored engine value stored H Hlen) as (y & m & d & Hy & Hv & ->).
  split; [now exists y, m, d|]. now apply normalizeDate_isoDate.
Qed.

Lemma stored_date_on_next_save_witness :
  normalizeDate strictEngine "2024-03-06" = Ok "2024-03-06".
Proof.
  exact (proj2 (stored_date_on_next_save strictEngine "2024-03-05T23:30:00-05:00"
                  "2024-03-06" ltac:(vm_compute; reflexivity) eq_refl)).
Defined.

(** ** Date-times with a zone *)

Lemma match_dateOnly_longer (a b c e f g h i x : ascii) (r : string) :
  match_ Date.dateOnly
    (String a (String b (String c (String e (String "-"
       (String f (String g (String "-" (String h (String i (String x r)))))))))))
  = None.
Proof.
  unfold match_, exec, Date.dateOnly, Date.digits.
  cbn -[isDigit].
  destruct (isDigit a); [|reflexivity]. cbn -[isDigit].
  destruct (isDigit b); [|reflexivity]. cbn -[isDigit].
  destruct (isDigit c); [|reflexivity]. cbn -[isDigit].
  destruct (isDigit e); [|reflexivity]. cbn -[isDigit].
  destruct (isDigit f); [|reflexivity]. cbn -[isDigit].
  destruct (isDigit g); [|reflexivity]. cbn -[isDigit].
  destruct (isDigit h); [|reflexivity]. cbn -[isDigit].
  destruct (isDigit i); reflexivity.
Qed.

Lemma match_dateTimeZ (a b c e f g h i j k l m n o : ascii) :
  isDigit a = true -> isDigit b = true -> isDigit c = true -> isDigit e = true ->
  isDigit f = true -> isDigit g = true -> isDigit h = true -> isDigit i = true ->
  isDigit j = true -> isDigit k = true -> isDigit l = true -> isDigit m = true ->
  isDigit n = true -> isDigit o = true ->
  let s := String a (String b (String c (String e (String "-"
             (String f (String g (String "-" (String h (String i (String "T"
             (String j (String k (String ":" (String l (String m (String ":"
             (String n (String o "Z")))))))))))))))))) in
  match_ Date.dateTimeOffset s =
  Some [ s; String a (String b (String c (String e "")));
         String f (String g ""); String h (String i "");
         String j (String k ""); String l (String m ""); String n (String o "") ].
Proof.
  intros Ha Hb Hc He Hf Hg Hh Hi Hj Hk Hl Hm Hn Ho s. subst s.
  unfold match_, exec, Date.dateTimeOffset, Date.digits.
  cbn -[isDigit]; rewrite Ha; cbn -[isDigit]; rewrite Hb; cbn -[isDigit]; rewrite Hc;
  cbn -[isDigit]; rewrite He; cbn -[isDigit]; rewrite Hf; cbn -[isDigit]; rewrite Hg;
  cbn -[isDigit]; rewrite Hh; cbn -[isDigit]; rewrite Hi; cbn -[isDigit]; rewrite Hj;
  cbn -[isDigit]; rewrite Hk; cbn -[isDigit]; rewrite Hl; cbn -[isDigit]; rewrite Hm;
  cbn -[isDigit]; rewrite Hn; cbn -[isDigit]; rewrite Ho; cbn -[isDigit].
  reflexivity.
Qed.

Lemma match_dateTimeOffset (a b c e f g h i j k l m n o p q r t sg : ascii) :
  isDigit a = true -> isDigit b = true -> isDigit c = true -> isDigit e = true ->
  isDigit f = true -> isDigit g = true -> isDigit h = true -> isDigit i = true ->
  isDigit j = true -> isDigit k = true -> isDigit l = true -> isDigit m = true ->
  isDigit n = true -> isDigit o = true ->
  isDigit p = true -> isDigit q = true -> isDigit r = true -> isDigit t = true ->
  sg = "+"%char \/ sg = "-"%char ->
  let s := String a (String b (String c (String e (String "-"
             (String f (String g (String "-" (String h (String i (String "T"
             (String j (String k (String ":" (String l (String m (String ":"
             (String n (String o (String sg (String p (String q (String ":"
             (String r (String t "")))))))))))))))))))))))) in
  match_ Date.dateTimeOffset s =
  Some [ s; String a (String b (String c (String e "")));
         String f (String g ""); String h (String i "");
         String j (String k ""); String l (String m ""); String n (String o "");
         String sg ""; String p (String q ""); String r (String t "") ].
Proof.
  intros Ha Hb Hc He Hf Hg Hh Hi Hj Hk Hl Hm Hn Ho Hp Hq Hr Ht Hsg s. subst s.
  unfold match_, exec, Date.dateTimeOffset, Date.digits.
  destruct Hsg; subst sg;
  cbn -[isDigit]; rewrite Ha; cbn -[isDigit]; rewrite Hb; cbn -[isDigit]; rewrite Hc;
  cbn -[isDigit]; rewrite He; cbn -[isDigit]; rewrite Hf; cbn -[isDigit]; rewrite Hg;
  cbn -[isDigit]; rewrite Hh; cbn -[isDigit]; rewrite Hi; cbn -[isDigit]; rewrite Hj;
  cbn -[isDigit]; rewrite Hk; cbn -[isDigit]; rewrite Hl; cbn -[isDigit]; rewrite Hm;
  cbn -[isDigit]; rewrite Hn; cbn -[isDigit]; rewrite Ho; cbn -[isDigit]; rewrite Hp;
  cbn -[isDigit]; rewrite Hq; cbn -[isDigit]; rewrite Hr; cbn -[isDigit]; rewrite Ht;
  cbn -[isDigit]; reflexivity.
Qed.

Ltac split_pads :=
  repeat match goal with
         | H : fourDigitsOf _ ?s = true |- _ =>
             let a := fresh "a" in let b := fresh "b" in let c := fresh "c" in
             let e := fresh "e" in let x := fresh "x" in let r := fresh "r" in
             destruct s as [|a [|b [|c [|e [|x r]]]]]; try discriminate H;
             cbn [fourDigitsOf] in H
         | H : twoDigitsOf _ ?s = true |- _ =>
             let a := fresh "a" in let b := fresh "b" in
             let x := fresh "x" in let r := fresh "r" in
             destruct s as [|a [|b [|x r]]]; try discriminate H;
             cbn [twoDigitsOf] in H
         end;
  repeat match goal with
         | H : _ && _ = true |- _ => apply andb_true_iff in H; destruct H
         end.

Ltac read_numbers :=
  unfold Date.num;
  repeat match goal with
         | H : (_ =? _)%N = true |- _ => apply N.eqb_eq in H; rewrite H; clear H
         end;
  rewrite !Z2N.id by lia.

Section DateTimes.

Local Open Scope Z_scope.

Variables (y m d h mi s : Z).
Hypothesis year_in_range : 0 <= y <= 9999.
Hypothesis date_valid : Date.validDate y m d = true.
Hypothesis clock_valid : validClock h mi s = true.

Lemma clock_bounds : 0 <= h <= 23 /\ 0 <= mi <= 59 /\ 0 <= s <= 59.
Proof.
  unfold validClock in clock_valid.
  repeat match goal with
         | H : _ && _ = true |- _ => apply andb_true_iff in H; destruct H
         end;
    repeat match goal with
           | H : (_ <=? _) = true |- _ => apply Z.leb_le in H
           end.
  lia.
Qed.

Lemma daysFromCivil_range : -720000 <= Date.daysFromCivil y m d <= 3000000.
Proof.
  destruct (validDate_bounds y m d date_valid) as [Hm Hd].
  unfold Date.daysFromCivil. cbv zeta.
  destruct (m <=? 2) eqn:E1; destruct (Z.gtb m 2) eqn:E2;
    rewrite Z.gtb_ltb in E2;
    [apply Z.leb_le in E1|apply Z.leb_le in E1|apply Z.leb_gt in E1|apply Z.leb_gt in E1];
    [apply Z.ltb_lt in E2|apply Z.ltb_ge in E2|apply Z.ltb_lt in E2|apply Z.ltb_ge in E2];
    try lia; Z.div_mod_to_equations; lia.
Qed.

Lemma validTime_clock : Date.validTime h mi s = true.
Proof.
  destruct clock_bounds as (Hh & Hmi & Hs). unfold Date.validTime.
  repeat (apply andb_true_iff; split); apply Z.leb_le; lia.
Qed.

Variable engine : string -> option Z.

Lemma timeClip_in_range (shift : Z) :
  - Date.msPerDay < shift < 2 * Date.msPerDay ->
  Date.timeClip (Date.daysFromCivil y m d * Date.msPerDay + shift)
  = Some (Date.daysFromCivil y m d * Date.msPerDay + shift).
Proof.
  intros Hs. pose proof daysFromCivil_range as HD.
  unfold Date.timeClip, Date.maxTimeValue, Date.msPerDay in *.
  assert ((Z.abs (Date.daysFromCivil y m d * 86400000 + shift) <=? 8640000000000000) = true)
    as -> by (apply Z.leb_le; lia).
  reflexivity.
Qed.

Lemma newDate_utc :
  newDate engine (isoDate y m d ++ "T" ++ isoTime h mi s ++ "Z")
  = Some (Date.daysFromCivil y m d * Date.msPerDay + timeOfDay h mi s).
Proof.
  destruct (validDate_bounds y m d date_valid) as [Hm Hd].
  destruct clock_bounds as (Hh & Hmi & Hs).
  pose proof (pad4_digits y year_in_range) as Py.
  pose proof (pad2_digits m ltac:(lia)) as Pm.
  pose proof (pad2_digits d ltac:(lia)) as Pd.
  pose proof (pad2_digits h ltac:(lia)) as Ph.
  pose proof (pad2_digits mi ltac:(lia)) as Pmi.
  pose proof (pad2_digits s ltac:(lia)) as Ps.
  pose proof (timeClip_in_range (timeOfDay h mi s)) as Hclip.
  unfold newDate, isoDate, isoTime, Date.parseDateOnly, Date.parseDateTimeOffset.
  split_pads. cbn [append].
  rewrite match_dateOnly_longer, match_dateTimeZ by assumption.
  read_numbers. rewrite date_valid, validTime_clock. cbn [andb].
  match goal with
  | |- Date.timeClip ?t = _ =>
      replace t with (Date.daysFromCivil y m d * Date.msPerDay + timeOfDay h mi s)
        by (unfold timeOfDay; ring)
  end.
  apply Hclip. unfold timeOfDay, Date.msPerDay. lia.
Qed.

Variables (west : bool) (oh om : Z).
Hypothesis zone_valid : (0 <= oh <= 23) /\ (0 <= om <= 59).

Lemma newDate_offset :
  newDate engine (isoDate y m d ++ "T" ++ isoTime h mi s ++ isoZone west oh om)
  = Some (Date.daysFromCivil y m d * Date.msPerDay
          + (timeOfDay h mi s - zoneOffset west oh om)).
Proof.
  destruct (validDate_bounds y m d date_valid) as [Hm Hd].
  destruct clock_bounds as (Hh & Hmi & Hs). destruct zone_valid as [Hoh Hom].
  pose proof (pad4_digits y year_in_range) as Py.
  pose proof (pad2_digits m ltac:(lia)) as Pm.
  pose proof (pad2_digits d ltac:(lia)) as Pd.
  pose proof (pad2_digits h ltac:(lia)) as Ph.
  pose proof (pad2_digits mi ltac:(lia)) as Pmi.
  pose proof (pad2_digits s ltac:(lia)) as Ps.
  pose proof (pad2_digits oh ltac:(lia)) as Poh.
  pose proof (pad2_digits om ltac:(lia)) as Pom.
  pose proof (timeClip_in_range (timeOfDay h mi s - zoneOffset west oh om)) as Hclip.
  unfold newDate, isoDate, isoTime, isoZone, Date.parseDateOnly, Date.parseDateTimeOffset.
  split_pads.
  assert (exists sg, (if west then "-" else "+")%string = String sg ""
                     /\ (sg = "+"%char \/ sg = "-"%char)
                     /\ (String sg "" =? "-")%string = west) as (sg & -> & Hsg & Hw)
    by (destruct west; eexists; split; try reflexivity; split; auto).
  cbn [append].
  rewrite match_dateOnly_longer, match_dateTimeOffset by assumption.
  rewrite Hw. read_numbers. rewrite date_valid, validTime_clock. cbn [andb].
  assert (((oh <=? 23) && (om <=? 59)) = true) as ->
    by (apply andb_true_iff; split; apply Z.leb_le; lia).
  match goal with
  | |- Date.timeClip ?t = _ =>
      replace t with (Date.daysFromCivil y m d * Date.msPerDay
                      + (timeOfDay h mi s - zoneOffset west oh om))
        by (unfold timeOfDay, zoneOffset; destruct west; ring)
  end.
  apply Hclip. unfold timeOfDay, zoneOffset, Date.msPerDay. destruct west; lia.
Qed.

End DateTimes.

(** The calendar date [k] days after a date, as the ISO text of it when
    its year is from 0 to 9999 *)
Lemma toISOString_date_of (t days y m d : Z) :
  (t / Date.msPerDay = days)%Z -> Date.civilFromDays days = (y, m, d) ->
  (0 <= y <= 9999)%Z ->
  takeWhile notT (Date.toISOString t) = isoDate y m d.
Proof.
  intros <- Hc Hy. pose proof (toISOString_date t) as H.
  rewrite Hc in H. exact (H Hy).
Qed.

Lemma msPerDay_nonzero : Date.msPerDay <> 0%Z.
Proof. discriminate. Qed.

Lemma div_days (D shift k : Z) :
  (shift / Date.msPerDay = k)%Z ->
  ((D * Date.msPerDay + shift) / Date.msPerDay = D + k)%Z.
Proof. intros <-. apply Z.div_add_l. exact msPerDay_nonzero. Qed.

Lemma isoDateAfter_Some (k y m d : Z) (stored : string) :
  isoDateAfter k y m d = Some stored ->
  exists y' m' d', Date.civilFromDays (Date.daysFromCivil y m d + k) = (y', m', d')
                   /\ (0 <= y' <= 9999)%Z /\ stored = isoDate y' m' d'.
Proof.
  unfold isoDateAfter.
  destruct (Date.civilFromDays (Date.daysFromCivil y m d + k)) as [[y' m'] d'].
  destruct ((0 <=? y')%Z && (y' <=? 9999)%Z) eqn:E; [|discriminate].
  intros H. injection H as <-. apply andb_true_iff in E as [E1 E2].
  apply Z.leb_le in E1, E2. exists y', m', d'. now repeat split.
Qed.

Lemma normalizeDate_days_later
  (engine : string -> option Z) (value : string) (y m d shift k : Z) (stored : string) :
  newDate engine value = Some (Date.daysFromCivil y m d * Date.msPerDay + shift)%Z ->
  (shift / Date.msPerDay = k)%Z ->
  isoDateAfter k y m d = Some stored ->
  normalizeDate engine value = Ok stored.
Proof.
  intros Hnew Hk Hs.
  apply isoDateAfter_Some in Hs as (y' & m' & d' & Hc & Hy & ->).
  apply normalizeDate_Ok. eexists. split; [exact Hnew|]. symmetry.
  exact (toISOString_date_of _ _ y' m' d' (div_days _ _ _ Hk) Hc Hy).
Qed.

Lemma isoDateAfter_same_day (y m d : Z) :
  (0 <= y <= 9999)%Z -> Date.validDate y m d = true ->
  isoDateAfter 0 y m d = Some (isoDate y m d).
Proof.
  intros [Hlo Hhi] Hv. unfold isoDateAfter.
  rewrite Z.add_0_r, (civilFromDays_daysFromCivil y m d Hv).
  apply Z.leb_le in Hlo, Hhi. now rewrite Hlo, Hhi.
Qed.

(** X17.  A date-time of the calendar written at UTC,
    [YYYY-MM-DDTHH:mm:ssZ] with the year from 0 to 9999, is stored as the
    date it is written with, whatever the time of day and whatever the
    engine's own parser does. *)
Theorem utc_date_time_keeps_its_date
  (engine : string -> option Z) (y m d h mi s : Z) :
  (0 <= y <= 9999)%Z -> Date.validDate y m d = true -> validClock h mi s = true ->
  normalizeDate engine (isoDate y m d ++ "T" ++ isoTime h mi s ++ "Z")
  = Ok (isoDate y m d).
Proof.
  intros Hy Hv Hc.
  destruct (clock_bounds h mi s Hc) as (Hh & Hmi & Hs).
  apply (normalizeDate_days_later engine _ y m d (timeOfDay h mi s) 0).
  - now apply newDate_utc.
  - apply Z.div_small. unfold timeOfDay, Date.msPerDay. lia.
  - now apply isoDateAfter_same_day.
Qed.

Lemma utc_date_time_keeps_its_date_witness :
  normalizeDate strictEngine "2024-03-05T23:30:00Z" = Ok "2024-03-05".
Proof.
  exact (utc_date_time_keeps_its_date strictEngine 2024 3 5 23 30 0
           ltac:(lia) eq_refl eq_refl).
Defined.

(** X18.  A date-time written with a zone offset,
    [YYYY-MM-DDTHH:mm:ss] followed by [+HH:mm] or [-HH:mm], is stored as
    the date it is written with exactly while its time of day less the
    offset stays within that day at UTC; when that falls below midnight the
    day before is stored, and when it reaches the next midnight the day
    after. *)
Theorem offset_date_time_is_stored_as_utc_date
  (engine : string -> option Z) (y m d h mi s : Z) (west : bool) (oh om : Z) :
  (0 <= y <= 9999)%Z -> Date.validDate y m d = true -> validClock h mi s = true ->
  (0 <= oh <= 23)%Z /\ (0 <= om <= 59)%Z ->
  let value := (isoDate y m d ++ "T" ++ isoTime h mi s ++ isoZone west oh om)%string in
  let utc := (timeOfDay h mi s - zoneOffset west oh om)%Z in
  ((0 <= utc < Date.msPerDay)%Z -> normalizeDate engine value = Ok (isoDate y m d))
  /\ ((utc < 0)%Z ->
      forall stored, isoDateAfter (-1) y m d = Some stored ->
                     normalizeDate engine value = Ok stored)
  /\ ((Date.msPerDay <= utc)%Z ->
      forall stored, isoDateAfter 1 y m d = Some stored ->
                     normalizeDate engine value = Ok stored).
Proof.
  intros Hy Hv Hc Hz value utc.
  destruct (clock_bounds h mi s Hc) as (Hh & Hmi & Hs).
  pose proof (newDate_offset y m d h mi s Hy Hv Hc engine west oh om Hz) as Hnew.
  fold value utc in Hnew.
  assert (- Date.msPerDay < utc < 2 * Date.msPerDay)%Z as Hr
    by (subst utc; unfold timeOfDay, zoneOffset, Date.msPerDay; destruct west; lia).
  split; [|split].
  - intros Hin. apply (normalizeDate_days_later engine value y m d utc 0 _ Hnew).
    + now apply Z.div_small.
    + now apply isoDateAfter_same_day.
  - intros Hneg stored Hst.
    apply (normalizeDate_days_later engine value y m d utc (-1) _ Hnew); [|exact Hst].
    unfold Date.msPerDay in *. Z.div_mod_to_equations. lia.
  - intros Hpos stored Hst.
    apply (normalizeDate_days_later engine value y m d utc 1 _ Hnew); [|exact Hst].
    unfold Date.msPerDay in *. Z.div_mod_to_equations. lia.
Qed.

Lemma offset_date_time_is_stored_as_utc_date_witness :
  normalizeDate strictEngine "2024-03-05T23:30:00-05:00" = Ok "2024-03-06"
  /\ normalizeDate strictEngine "2024-03-05T18:30:00-05:00" = Ok "2024-03-05"
  /\ normalizeDate strictEngine "2024-03-01T00:30:00+02:00" = Ok "2024-02-29".
Proof.
  split; [|split].
  - apply (proj2 (proj2 (offset_date_time_is_stored_as_utc_date strictEngine
                           2024 3 5 23 30 0 true 5 0
                           ltac:(lia) eq_refl eq_refl ltac:(lia))));
      [vm_compute; discriminate | vm_compute; reflexivity].
  - apply (proj1 (offset_date_time_is_stored_as_utc_date strictEngine
                    2024 3 5 18 30 0 true 5 0
                    ltac:(lia) eq_refl eq_refl ltac:(lia))).
    vm_compute. split; [discriminate | reflexivity].
  - apply (proj1 (proj2 (offset_date_time_is_stored_as_utc_date strictEngine
                           2024 3 1 0 30 0 false 2 0
                           ltac:(lia) eq_refl eq_refl ltac:(lia))));
      [vm_compute; reflexivity | vm_compute; reflexivity].
Defined.

(** ** The Event hook, path by path *)

Lemma requireString_spec (d : EventDocument) (f : StringField) :
  requireString d f =
  if isNonBlankString (fields d f)
  then Ok (setField d f (VString (trim (str (fields d f)))))
  else Throw (requiredMessage f).
Proof.
  unfold requireString, isNonBlankString, requiredMessage.
  destruct (fields d f) as [| | | |v]; try reflexivity.
  now destruct (isEmpty (trim v)).
Qed.


Lemma forEachField_valid (fs : list StringField) (d : EventDocument) :
  NoDup fs -> (forall g, In g fs -> isNonBlankString (fields d g) = true) ->
  exists d1, forEachField fs d = Ok d1
             /\ forall g, ~ In g fs -> fields d1 g = fields d g.
Proof.
  revert d. induction fs as [|f fs IH]; intros d Hnd Hv.
  - exists d. now split.
  - inversion Hnd as [|? ? Hnot Hnd']; subst.
    cbn [forEachField]. rewrite requireString_spec, (Hv f (or_introl eq_refl)). cbn [bind].
    destruct (IH (setField d f (VString (trim (str (fields d f))))) Hnd') as (d1 & E & Hf).
    + intros g Hg. rewrite fields_setField_other; [apply Hv; now right|].
      intros ->. contradiction.
    + exists d1. split; [exact E|]. intros g Hg. rewrite Hf by (intros Hin; apply Hg; now right).
      apply fields_setField_other. intros ->. apply Hg. now left.
Qed.

Lemma forEachField_Throw (fs : list StringField) (d : EventDocument) (msg : string) :
  forEachField fs d = Throw msg -> exists f, In f fs /\ msg = requiredMessage f.
Proof.
  revert d. induction fs as [|f fs IH]; intros d H; [discriminate|].
  cbn [forEachField] in H. rewrite requireString_spec in H.
  destruct (isNonBlankString (fields d f)); cbn [bind] in H.
  - apply IH in H as (g & Hg & ->). exists g. split; [now right|reflexivity].
  - injection H as <-. exists f. split; [now left|reflexivity].
Qed.

Lemma stringFields_NoDup : NoDup stringFields.
Proof.
  unfold stringFields.
  repeat (constructor; [simpl; intros H; repeat (destruct H as [H|H]; [discriminate H|]); exact H|]).
  constructor.
Qed.




Lemma fields_normalizedEvent (d1 : EventDocument) (a t : list string) (dt tm : string)
  (f : StringField) :
  fields (normalizedEvent d1 a t dt tm) f
  = if StringField_eqb f time then VString tm
    else if StringField_eqb f date then VString dt
    else fields d1 f.
Proof.
  unfold normalizedEvent. now destruct (slugUnset (slug d1) || titleChanged d1).
Qed.

Lemma isModified_normalizedEvent (d1 : EventDocument) (a t : list string) (dt tm : string) :
  isModified (normalizedEvent d1 a t dt tm) = isModified d1.
Proof.
  unfold normalizedEvent. now destruct (slugUnset (slug d1) || titleChanged d1).
Qed.

Lemma normalizeTime_trim (v : string) : normalizeTime (trim v) = normalizeTime v.
Proof. unfold normalizeTime. now rewrite trim_idem. Qed.

(** X20.  After a successful run of the hook every one of the eleven
    string paths was a string that is not empty once trimmed; the date
    holds what [normalizeDate] made of the trimmed date, the time what
    [normalizeTime] made of the time, every other path its trimmed value;
    and the document's [isModified] is untouched. *)
Theorem string_fields_after_hook
  (engine : string -> option Z) (d d' : EventDocument) :
  handleNormalize engine d = Ok d' ->
  isModified d' = isModified d
  /\ forall f, exists v,
       fields d f = VString v /\ isEmpty (trim v) = false
       /\ match f with
          | date => exists dt, normalizeDate engine (trim v) = Ok dt
                               /\ fields d' f = VString dt
          | time => exists tm, normalizeTime v = Ok tm /\ fields d' f = VString tm
          | _ => fields d' f = VString (trim v)
          end.
Proof.
  intros H.
  apply handleNormalize_Ok in H as (d1 & a & t & dt & tm & H1 & _ & _ & Hd & Ht & ->).
  destruct (forEachField_spec _ _ _ H1) as (_ & _ & _ & Hm & Hf).
  split; [now rewrite isModified_normalizedEvent|].
  intros f. destruct (proj1 (Hf f) (stringFields_all f)) as (v & Hv & Hne & Hv1).
  exists v. split; [exact Hv|]. split; [exact Hne|].
  rewrite fields_normalizedEvent.
  destruct (proj1 (Hf date) (stringFields_all date)) as (vd & Hvd & _ & Hd1).
  destruct (proj1 (Hf time) (stringFields_all time)) as (vt & Hvt & _ & Ht1).
  rewrite Hd1 in Hd. rewrite Ht1 in Ht. cbn [str] in Hd, Ht.
  rewrite normalizeTime_trim in Ht.
  destruct f; try exact Hv1.
  - rewrite Hvd in Hv. injection Hv as <-. exists dt. now split.
  - rewrite Hvt in Hv. injection Hv as <-. exists tm. now split.
Qed.

Lemma string_fields_after_hook_witness :
  match handleNormalize strictEngine (sampleEvent " Node.js Meetup ") with
  | Ok d' => fields d' location = VString "Helsinki"
             /\ fields d' description = VString "An evening of talks."
  | Throw _ => False
  end.
Proof.
  destruct (handleNormalize strictEngine (sampleEvent " Node.js Meetup ")) as [d'|msg] eqn:E;
    [|vm_compute in E; discriminate E].
  destruct (string_fields_after_hook strictEngine _ _ E) as [_ H].
  destruct (H location) as (v1 & Hv1 & _ & H1).
  destruct (H description) as (v2 & Hv2 & _ & H2).
  injection Hv1 as <-. injection Hv2 as <-.
  split; [exact H1 | exact H2].
Defined.

Lemma normalizeList_Throw (name : string) (items : option (list value)) (msg : string) :
  normalizeList name items = Throw msg ->
  msg = (name ++ " must contain strings.")%string
  \/ msg = (name ++ " is required and must be a non-empty array.")%string.
Proof.
  rewrite normalizeList_kept.
  destruct (forallb isString (orEmpty items)).
  - destruct (kept items); [|discriminate]. intros H. injection H as <-. now right.
  - intros H. injection H as <-. now left.
Qed.

(** X21.  The hook fails only with one of its own seventeen messages:
    the eleven about a string path, the two about the agenda, the two about
    the tags, the one about the date and the one about the time. *)
Theorem hook_fails_only_with_its_messages
  (engine : string -> option Z) (d : EventDocument) (msg : string) :
  handleNormalize engine d = Throw msg -> In msg hookMessages.
Proof.
  rewrite handleNormalize_steps. unfold hookMessages. intros H. apply in_or_app.
  destruct (forEachField stringFields d) as [d1|m1] eqn:E1; cbn [bind] in H.
  2:{ injection H as <-. left. apply forEachField_Throw in E1 as (f & Hf & ->).
      now apply in_map. }
  right.
  destruct (normalizeList "agenda" (agenda d1)) as [a|m2] eqn:E2; cbn [bind] in H.
  2:{ injection H as <-. apply normalizeList_Throw in E2 as [-> | ->]; simpl; tauto. }
  destruct (normalizeList "tags" (tags d1)) as [t|m3] eqn:E3; cbn [bind] in H.
  2:{ injection H as <-. apply normalizeList_Throw in E3 as [-> | ->]; simpl; tauto. }
  destruct (normalizeDate engine _) as [dt|m4] eqn:E4; cbn [bind] in H.
  2:{ injection H as <-. apply normalizeDate_Throw in E4 as [_ ->]. simpl; tauto. }
  destruct (normalizeTime _) as [tm|m5] eqn:E5; cbn [bind] in H; [discriminate|].
  injection H as <-. apply normalizeTime_Throw in E5 as [-> _]. simpl; tauto.
Qed.

Lemma hook_fails_only_with_its_messages_witness :
  handleNormalize strictEngine badTime
  = Throw "Invalid time format. Use HH:MM or HH:MM AM/PM."
  /\ In "Invalid time format. Use HH:MM or HH:MM AM/PM." hookMessages.
Proof.
  assert (handleNormalize strictEngine badTime
          = Throw "Invalid time format. Use HH:MM or HH:MM AM/PM.") as E
    by (vm_compute; reflexivity).
  split; [exact E|].
  exact (hook_fails_only_with_its_messages strictEngine badTime _ E).
Defined.

(** ** The unique index of the slug *)

Lemma sameSlug_eq (a b : option string) : sameSlug a b = true <-> a = b.
Proof.
  destruct a as [x|], b as [y|]; simpl; split; try discriminate; try reflexivity.
  - intros H. apply String.eqb_eq in H. now subst.
  - intros H. injection H as <-. apply String.eqb_refl.
Qed.

Lemma insertOne_Written (events events' : list EventDocument) (d : EventDocument) :
  insertOne events d = Written events' ->
  events' = d :: events /\ ~ In (slug d) (map slug events).
Proof.
  unfold insertOne. destruct (existsb _ events) eqn:E; [discriminate|].
  intros H. injection H as <-. split; [reflexivity|].
  intros Hin. apply in_map_iff in Hin as (e & He & Hin).
  assert (existsb (fun e => sameSlug (slug e) (slug d)) events = true) as C.
  { apply existsb_exists. exists e. split; [exact Hin|]. now apply sameSlug_eq. }
  congruence.
Qed.

(** X22.  Saving a new event into a collection whose slugs are pairwise
    distinct either fails or adds the document the hook returned and
    leaves the slugs pairwise distinct. *)
Theorem save_keeps_slugs_distinct
  (engine : string -> option Z) (events events' : list EventDocument)
  (d : EventDocument) :
  slugsDistinct events -> save engine events d = Written events' ->
  slugsDistinct events'
  /\ exists d', handleNormalize engine d = Ok d' /\ events' = d' :: events.
Proof.
  unfold slugsDistinct, save. intros Hnd H.
  destruct (handleNormalize engine d) as [d'|msg]; [|discriminate].
  apply insertOne_Written in H as [-> Hnot].
  split; [now constructor|]. now exists d'.
Qed.

Lemma save_keeps_slugs_distinct_witness :
  match save strictEngine [] (sampleEvent "Node.js Meetup") with
  | Written events' => slugsDistinct events'
  | _ => False
  end.
Proof.
  destruct (save strictEngine [] (sampleEvent "Node.js Meetup")) as [events'|msg|index] eqn:E;
    [|vm_compute in E; discriminate E|vm_compute in E; discriminate E].
  exact (proj1 (save_keeps_slugs_distinct strictEngine [] events' _ (NoDup_nil _) E)).
Defined.

Lemma toSlug_trim (t : string) : toSlug (trim t) = toSlug t.
Proof. now rewrite !toSlug_slugOf, trim_idem. Qed.

(** X23.  Titles that differ only in letter case and in the whitespace
    around them have the same slug; so when two events with such titles
    both get their slug from the title, the second is refused by the
    unique index once the first is written, with a duplicate key on
    [slug_1]. *)
Theorem title_variants_collide
  (engine : string -> option Z) (events events' : list EventDocument)
  (d1 d2 d2' : EventDocument) (x y w1 w2 : string) :
  toLowerCase y = toLowerCase x ->
  sforall isWhiteSpace w1 = true -> sforall isWhiteSpace w2 = true ->
  fields d1 title = VString x -> fields d2 title = VString (w1 ++ y ++ w2) ->
  slugUnset (slug d1) || titleChanged d1 = true ->
  slugUnset (slug d2) || titleChanged d2 = true ->
  save engine events d1 = Written events' ->
  handleNormalize engine d2 = Ok d2' ->
  toSlug (w1 ++ y ++ w2) = toSlug x
  /\ slug d2' = Some (toSlug x)
  /\ save engine events' d2 = DuplicateKey "slug_1".
Proof.
  intros Hy H1 H2 Ht1 Ht2 Hc1 Hc2 Hsave Hn2.
  pose proof (toSlug_variant x y w1 w2 Hy H1 H2) as Hslug.
  split; [exact Hslug|].
  destruct (handleNormalize engine d1) as [d1'|msg] eqn:Hn1;
    [|unfold save in Hsave; rewrite Hn1 in Hsave; discriminate Hsave].
  destruct (handleNormalize_slug engine d1 d1' Hn1) as (v1 & Hv1 & _ & _ & Hs1).
  destruct (handleNormalize_slug engine d2 d2' Hn2) as (v2 & Hv2 & _ & _ & Hs2).
  rewrite Ht1 in Hv1. injection Hv1 as <-. rewrite Ht2 in Hv2. injection Hv2 as <-.
  rewrite Hc1, toSlug_trim in Hs1. rewrite Hc2, toSlug_trim, Hslug in Hs2.
  split; [exact Hs2|].
  exact (same_slug_collides engine events events' d1 d2 d1' d2' (toSlug x)
           Hsave Hn1 Hs1 Hn2 Hs2).
Qed.

Lemma title_variants_collide_witness :
  match save strictEngine [] (sampleEvent "Node.JS meetup") with
  | Written events' =>
      save strictEngine events' (sampleEvent "  NODE.js Meetup ") = DuplicateKey "slug_1"
  | _ => False
  end.
Proof.
  destruct (save strictEngine [] (sampleEvent "Node.JS meetup")) as [events'|msg|index] eqn:E;
    [|vm_compute in E; discriminate E|vm_compute in E; discriminate E].
  destruct (handleNormalize strictEngine (sampleEvent "  NODE.js Meetup ")) as [d2'|msg] eqn:E2;
    [|vm_compute in E2; discriminate E2].
  exact (proj2 (proj2 (title_variants_collide strictEngine [] events'
           (sampleEvent "Node.JS meetup") (sampleEvent "  NODE.js Meetup ") d2'
           "Node.JS meetup" "NODE.js Meetup" "  " " "
           eq_refl eq_refl eq_refl eq_refl eq_refl eq_refl eq_refl E E2))).
Defined.

(** ** The Event hook on its own result *)

Lemma kept_again (l : list string) :
  Forall (fun x => nonEmpty x = true /\ trim x = x) l ->
  kept (Some (map VString l)) = l.
Proof.
  unfold kept. cbn [orEmpty]. induction 1 as [|x l [Hne Ht] Hl IH]; [reflexivity|].
  cbn [map filter str]. rewrite Ht, Hne. now f_equal.
Qed.

Lemma kept_trimmed (items : option (list value)) :
  Forall (fun x => nonEmpty x = true /\ trim x = x) (kept items).
Proof.
  unfold kept. induction (orEmpty items) as [|v l IH]; [constructor|].
  cbn [map filter]. destruct (nonEmpty (trim (str v))) eqn:E; [|exact IH].
  constructor; [|exact IH]. split; [exact E | apply trim_idem].
Qed.

Lemma forallb_isString_map (l : list string) : forallb isString (map VString l) = true.
Proof. induction l as [|x l IH]; [reflexivity | exact IH]. Qed.

(** Normalising a list the hook has stored changes nothing. *)
Lemma normalizeList_again (name : string) (items : option (list value)) (a : list string) :
  normalizeList name items = Ok a ->
  normalizeList name (Some (map VString a)) = Ok a.
Proof.
  rewrite !normalizeList_kept. cbn [orEmpty]. rewrite forallb_isString_map.
  destruct (forallb isString (orEmpty items)); [|discriminate].
  destruct (kept items) as [|x l] eqn:E; [discriminate|].
  intros H. injection H as <-.
  rewrite kept_again by (rewrite <- E; apply kept_trimmed). reflexivity.
Qed.

Lemma isoDate_no_space (y m d : Z) :
  sforall (fun c => negb (isWhiteSpace c)) (isoDate y m d) = true.
Proof.
  assert (forall w n, sforall (fun c => negb (isWhiteSpace c)) (Date.pad w n) = true) as Hpad.
  { intros w n. apply (sforall_impl isDigit); [|apply pad_digits].
    intros c Hc. now rewrite (isDigit_not_space c Hc). }
  unfold isoDate. rewrite sforall_append. cbn [append sforall].
  rewrite sforall_append. cbn [append sforall]. now rewrite !Hpad.
Qed.

Lemma isClockTime_no_space (tm : string) :
  isClockTime tm = true -> sforall (fun c => negb (isWhiteSpace c)) tm = true.
Proof.
  intros H. apply isClockTime_reading in H as (h & mm & -> & Hh & Hm & _).
  destruct (isOneOrTwoDigits_sforall h (isHour24_digits h Hh)) as [Dh _].
  destruct (isTwoDigits_sforall mm (isMinute59_digits mm Hm)) as [Dm _].
  apply (sforall_impl isTimeChar); [exact isTimeChar_not_space|].
  now apply reading_isTimeChar.
Qed.

Lemma isNonBlankString_trimmed (x : string) :
  isEmpty x = false -> trim x = x -> isNonBlankString (VString x) = true.
Proof. intros He Ht. cbn [isNonBlankString]. now rewrite Ht, He. Qed.

Section Again.

Variable engine : string -> option Z.
Variables (d1 : EventDocument) (a t : list string) (dt tm : string).
Variable later : option (string -> bool).

Hypothesis fields_d1 :
  forall f, exists v, isEmpty (trim v) = false /\ fields d1 f = VString (trim v).
Hypothesis agenda_a : exists items, normalizeList "agenda" items = Ok a.
Hypothesis tags_t : exists items, normalizeList "tags" items = Ok t.
Hypothesis date_dt : isEmpty dt = false /\ trim dt = dt /\ normalizeDate engine dt = Ok dt.
Hypothesis time_tm : isEmpty tm = false /\ trim tm = tm.

Let d' := laterSave (normalizedEvent d1 a t dt tm) later.

Lemma fields_stored (f : StringField) :
  exists x, fields d' f = VString x /\ isEmpty x = false /\ trim x = x.
Proof.
  unfold d'. cbn [laterSave fields]. rewrite fields_normalizedEvent.
  destruct (StringField_eqb f time); [exists tm; now destruct time_tm|].
  destruct (StringField_eqb f date); [exists dt; now destruct date_dt as (? & ? & _)|].
  destruct (fields_d1 f) as (v & Hne & ->). exists (trim v).
  split; [reflexivity|]. split; [exact Hne | apply trim_idem].
Qed.

(** A second run of the hook, on the document the first run returned: the
    string paths and the lists are left as they are, the date is accepted
    as it stands, and what is left is to normalise the time again. *)
Lemma hook_again_steps :
  exists d1',
    (forall f, fields d1' f = fields d' f)
    /\ slug d1' = slug d' /\ isModified d1' = isModified d'
    /\ handleNormalize engine d'
       = (tm' <- normalizeTime tm ;; Ok (normalizedEvent d1' a t dt tm')).
Proof.
  destruct (forEachField_valid stringFields d' stringFields_NoDup) as (d1' & E1 & _).
  { intros g _. destruct (fields_stored g) as (x & -> & He & Ht).
    now apply isNonBlankString_trimmed. }
  destruct (forEachField_spec _ _ _ E1) as (Ha & Ht & Hs & Hm & Hf).
  assert (forall f, fields d1' f = fields d' f) as Hsame.
  { intros f. destruct (proj1 (Hf f) (stringFields_all f)) as (v & Hv & _ & ->).
    destruct (fields_stored f) as (x & Hx & _ & Hxt). rewrite Hx in Hv.
    injection Hv as <-. now rewrite Hx, Hxt. }
  destruct (agenda_normalizedEvent d1 a t dt tm) as [Ea Et].
  change (agenda (normalizedEvent d1 a t dt tm)) with (agenda d') in Ea.
  change (tags (normalizedEvent d1 a t dt tm)) with (tags d') in Et.
  destruct agenda_a as [ia Hia]. destruct tags_t as [it Hit].
  destruct date_dt as (_ & _ & Hd).
  assert (fields d' date = VString dt) as Fd
    by (unfold d'; cbn [laterSave fields]; rewrite fields_normalizedEvent; reflexivity).
  assert (fields d' time = VString tm) as Ft
    by (unfold d'; cbn [laterSave fields]; rewrite fields_normalizedEvent; reflexivity).
  exists d1'. split; [exact Hsame|]. split; [exact Hs|]. split; [exact Hm|].
  rewrite handleNormalize_steps, E1. cbn [bind].
  rewrite Ha, Ea, (normalizeList_again _ _ _ Hia). cbn [bind].
  rewrite Ht, Et, (normalizeList_again _ _ _ Hit). cbn [bind].
  rewrite !Hsame, Fd, Ft. cbn [str]. rewrite Hd. reflexivity.
Qed.

Lemma hook_again :
  normalizeTime tm = Ok tm ->
  (titleChanged d' = true -> titleChanged d1 = true) ->
  exists d'',
    handleNormalize engine d' = Ok d''
    /\ (forall f, fields d'' f = fields d' f)
    /\ agenda d'' = agenda d' /\ tags d'' = tags d'
    /\ slug d'' = slug d'.
Proof.
  intros Htm Hlater. destruct hook_again_steps as (d1' & Hsame & Hs & Hm & E).
  rewrite Htm in E. cbn [bind] in E.
  exists (normalizedEvent d1' a t dt tm). split; [exact E|].
  split.
  { intros f. rewrite fields_normalizedEvent, Hsame. unfold d'.
    cbn [laterSave fields]. rewrite fields_normalizedEvent.
    destruct (StringField_eqb f time); [reflexivity|].
    now destruct (StringField_eqb f date). }
  destruct (agenda_normalizedEvent d1 a t dt tm) as [Ea Et].
  change (agenda (normalizedEvent d1 a t dt tm)) with (agenda d') in Ea.
  change (tags (normalizedEvent d1 a t dt tm)) with (tags d') in Et.
  destruct (agenda_normalizedEvent d1' a t dt tm) as [Ea' Et'].
  split; [now rewrite Ea', Ea|]. split; [now rewrite Et', Et|].
  destruct (title_normalizedEvent d1' a t dt tm) as [_ ->].
  destruct (title_normalizedEvent d1 a t dt tm) as [Tt Ts].
  change (fields (normalizedEvent d1 a t dt tm) title) with (fields d' title) in Tt.
  change (slug (normalizedEvent d1 a t dt tm)) with (slug d') in Ts.
  assert (titleChanged d1' = titleChanged d') as ->
    by (unfold titleChanged; now rewrite Hm).
  rewrite Hs, Hsame, Tt, Ts.
  destruct (titleChanged d') eqn:C2.
  - rewrite (Hlater eq_refl), !orb_true_r. reflexivity.
  - rewrite !orb_false_r.
    destruct (slugUnset (slug d1) || titleChanged d1) eqn:C1.
    + cbn [slugUnset]. now destruct (isEmpty (toSlug (str (fields d1 title)))).
    + apply orb_false_iff in C1 as [U _]. now rewrite U.
Qed.


End Again.

(** X24.  The hook is idempotent on what it stores.  When it has
    succeeded, the stored date has ten characters and the stored time is a
    clock time, its run in a later save of the stored document succeeds
    and leaves every string path, the agenda, the tags and the slug as
    they are, provided [isModified('title')] answers true in the later
    save only if it did in the first. *)
Theorem hook_is_idempotent
  (engine : string -> option Z) (d d' : EventDocument)
  (later : option (string -> bool)) :
  handleNormalize engine d = Ok d' ->
  String.length (str (fields d' date)) = 10 ->
  isClockTime (str (fields d' time)) = true ->
  (titleChanged (laterSave d' later) = true -> titleChanged d = true) ->
  exists d'',
    handleNormalize engine (laterSave d' later) = Ok d''
    /\ (forall f, fields d'' f = fields d' f)
    /\ agenda d'' = agenda d' /\ tags d'' = tags d'
    /\ slug d'' = slug d'.
Proof.
  intros H.
  apply handleNormalize_Ok in H as (d1 & a & t & dt & tm & H1 & Ha & Ht & Hd & Htm & ->).
  rewrite !fields_normalizedEvent. cbn [StringField_eqb fieldName String.eqb Ascii.eqb Bool.eqb str].
  intros Hlen Hclock Hlater.
  destruct (forEachField_spec _ _ _ H1) as (_ & _ & _ & Hm & Hf).
  destruct (normalizeDate_stored engine _ dt Hd Hlen) as (y & m & dd & Hy & Hv & ->).
  apply hook_again.
  - intros f. destruct (proj1 (Hf f) (stringFields_all f)) as (v & _ & Hne & Hv1).
    now exists v.
  - now exists (agenda d1).
  - now exists (tags d1).
  - split; [|split].
    + unfold isoDate. destruct (Date.pad 4 y) eqn:E; [|reflexivity].
      pose proof (pad_length 4 y) as L. rewrite E in L. simpl in L. lia.
    + apply trim_no_space, isoDate_no_space.
    + now apply normalizeDate_isoDate.
  - split; [now destruct tm | now apply trim_no_space, isClockTime_no_space].
  - now apply normalizeTime_clock_time.
  - intros C. unfold titleChanged at 1. rewrite Hm. now apply Hlater.
Qed.

Lemma hook_is_idempotent_witness :
  match handleNormalize strictEngine (sampleEvent "  Node.js Meetup!! ") with
  | Ok d' =>
      match handleNormalize strictEngine (laterSave d' (Some (fun _ => false))) with
      | Ok d'' => fields d'' time = VString "09:30" /\ slug d'' = Some "nodejs-meetup"
      | Throw _ => False
      end
  | Throw _ => False
  end.
Proof.
  destruct (handleNormalize strictEngine (sampleEvent "  Node.js Meetup!! ")) as [d'|msg] eqn:E;
    [|vm_compute in E; discriminate E].
  assert (fields d' time = VString "09:30" /\ fields d' date = VString "2024-03-05"
          /\ slug d' = Some "nodejs-meetup") as (Ft & Fd & Fs).
  { vm_compute in E. injection E as <-. repeat split. }
  destruct (hook_is_idempotent strictEngine _ d' (Some (fun _ => false)) E)
    as (d'' & -> & Hf & _ & _ & Hs).
  - rewrite Fd. reflexivity.
  - rewrite Ft. reflexivity.
  - intros C. discriminate C.
  - rewrite (Hf time), Hs, Ft, Fs. split; reflexivity.
Defined.



(** ** Several callers of [connectToDatabase] *)

Section ConnectionMore.

Context {Mongoose : Type}.

Lemma callers_join (k : nat) (w : @Db.Process Mongoose) (p : nat) :
  Db.unset (Db.MONGODB_URI w) = false ->
  Db.conn (Db.cached w) = None -> Db.promise (Db.cached w) = Some p ->
  callers k w = (repeat (Db.Awaiting p) k, w).
Proof.
  intros Hu Hc Hp. induction k as [|k IH]; [reflexivity|].
  cbn [callers]. rewrite (connectToDatabase_joins w p Hu Hc Hp), IH. reflexivity.
Qed.

Lemma callers_reuse (k : nat) (w : @Db.Process Mongoose) (m : Mongoose) :
  Db.unset (Db.MONGODB_URI w) = false ->
  Db.conn (Db.cached w) = Some m ->
  callers k w = (repeat (Db.Returned m) k, w).
Proof.
  intros Hu Hc. induction k as [|k IH]; [reflexivity|].
  cbn [callers]. rewrite (connectToDatabase_cached w m Hu Hc), IH. reflexivity.
Qed.

Lemma callers_start (k : nat) (w : @Db.Process Mongoose) (uri : string) :
  Db.MONGODB_URI w = Some uri -> isEmpty uri = false ->
  Db.conn (Db.cached w) = None -> Db.promise (Db.cached w) = None ->
  callers (S k) w
  = (repeat (Db.Awaiting (List.length (Db.connectCalls w))) (S k),
     Db.mkProcess (Some uri)
       (Db.mkCache None (Some (List.length (Db.connectCalls w))))
       (Db.connectCalls w ++ [(uri, Db.options)]) (Db.strictQuery w)).
Proof.
  intros Hu Hne Hc Hp. cbn [callers].
  destruct (connectToDatabase_starts w uri Hu Hne Hc Hp) as [_ ->].
  rewrite (callers_join k _ (List.length (Db.connectCalls w)));
    [reflexivity | exact Hne | reflexivity | reflexivity].
Qed.

End ConnectionMore.

(** X26.  However many callers arrive, one after the other, while
    nothing is cached and nothing is pending, [mongoose.connect] is called
    exactly once, with the connection string of the environment and the
    options [bufferCommands: false], [maxPoolSize: 10],
    [serverSelectionTimeoutMS: 15000], and every caller is suspended on the
    promise of that one call. *)
Theorem concurrent_callers_share_one_establishment
  (Mongoose : Type) (w : @Db.Process Mongoose) (uri : string) (k : nat) :
  Db.MONGODB_URI w = Some uri -> isEmpty uri = false ->
  Db.conn (Db.cached w) = None -> Db.promise (Db.cached w) = None ->
  exists w',
    callers (S k) w = (repeat (Db.Awaiting (List.length (Db.connectCalls w))) (S k), w')
    /\ Db.connectCalls w' = Db.connectCalls w ++ [(uri, Db.mkOptions false 10 15000)]
    /\ Db.conn (Db.cached w') = None
    /\ Db.promise (Db.cached w') = Some (List.length (Db.connectCalls w)).
Proof.
  intros Hu Hne Hc Hp. eexists. split; [exact (callers_start k w uri Hu Hne Hc Hp)|].
  split; [reflexivity|]. split; reflexivity.
Qed.

Lemma concurrent_callers_share_one_establishment_witness :
  exists w',
    callers 3 coldStart = ([Db.Awaiting 0; Db.Awaiting 0; Db.Awaiting 0], w')
    /\ Db.connectCalls w' = [("mongodb://localhost/events", Db.mkOptions false 10 15000)]
    /\ Db.conn (Db.cached w') = None
    /\ Db.promise (Db.cached w') = Some 0.
Proof.
  exact (concurrent_callers_share_one_establishment nat coldStart
           "mongodb://localhost/events" 2 eq_refl eq_refl eq_refl eq_refl).
Defined.

(** X27.  When the shared promise is fulfilled, every suspended caller
    returns the connected instance as it resumes, [strictQuery] is set, and
    any number of later calls return the same instance without suspension
    and without a further call of [mongoose.connect]. *)
Theorem fulfilled_connection_is_reused
  (Mongoose : Type) (w : @Db.Process Mongoose) (uri : string) (m : Mongoose)
  (k n : nat) :
  Db.MONGODB_URI w = Some uri -> isEmpty uri = false ->
  Db.conn (Db.cached w) = None -> Db.promise (Db.cached w) = None ->
  let w1 := snd (callers (S k) w) in
  let w2 := Db.settle w1 (Ok m) in
  let w3 := snd (Db.resume w2 (Ok m)) in
  fst (Db.resume w2 (Ok m)) = Db.Returned m
  /\ fst (Db.resume w3 (Ok m)) = Db.Returned m
  /\ Db.strictQuery w3 = true
  /\ callers n w3 = (repeat (Db.Returned m) n, w3)
  /\ Db.connectCalls w3 = Db.connectCalls w ++ [(uri, Db.options)].
Proof.
  intros Hu Hne Hc Hp. rewrite (callers_start k w uri Hu Hne Hc Hp).
  cbn [snd fst Db.settle Db.resume Db.strictQuery Db.connectCalls].
  split; [reflexivity|]. split; [reflexivity|]. split; [reflexivity|].
  split; [|reflexivity].
  apply callers_reuse; [exact Hne | reflexivity].
Qed.

Lemma fulfilled_connection_is_reused_witness :
  let w3 := snd (Db.resume (Db.settle (snd (callers 3 coldStart)) (Ok 1)) (Ok 1)) in
  callers 4 w3 = (repeat (Db.Returned 1) 4, w3)
  /\ List.length (Db.connectCalls w3) = 1.
Proof.
  destruct (fulfilled_connection_is_reused nat coldStart "mongodb://localhost/events"
              1 2 4 eq_refl eq_refl eq_refl eq_refl) as (_ & _ & _ & H & Hc).
  split; [exact H|]. rewrite Hc. reflexivity.
Defined.

(** X28.  When the shared promise is rejected, a suspended caller throws
    the error of the rejection, the cache is empty again and [strictQuery]
    is as it was; the callers that arrive next share one new
    establishment, the second call of [mongoose.connect]. *)
Theorem failed_establishment_is_not_cached
  (Mongoose : Type) (w : @Db.Process Mongoose) (uri e : string) (k n : nat) :
  Db.MONGODB_URI w = Some uri -> isEmpty uri = false ->
  Db.conn (Db.cached w) = None -> Db.promise (Db.cached w) = None ->
  let w1 := snd (callers (S k) w) in
  let w2 := Db.settle w1 (Throw e) in
  Db.resume w2 (Throw e) = (Db.Threw e, w2)
  /\ Db.cached w2 = Db.mkCache None None
  /\ Db.strictQuery w2 = Db.strictQuery w
  /\ fst (callers (S n) w2)
     = repeat (Db.Awaiting (S (List.length (Db.connectCalls w)))) (S n)
  /\ Db.connectCalls (snd (callers (S n) w2))
     = Db.connectCalls w ++ [(uri, Db.options); (uri, Db.options)].
Proof.
  intros Hu Hne Hc Hp. rewrite (callers_start k w uri Hu Hne Hc Hp).
  cbn [snd Db.settle Db.resume Db.cached Db.conn Db.strictQuery Db.connectCalls
       Db.MONGODB_URI].
  split; [reflexivity|]. split; [reflexivity|]. split; [reflexivity|].
  match goal with
  | |- context [callers (S n) ?w2] =>
      rewrite (callers_start n w2 uri eq_refl Hne eq_refl eq_refl)
  end.
  cbn [fst snd Db.connectCalls]. rewrite length_app, <- app_assoc. cbn [List.length app].
  rewrite Nat.add_1_r. split; reflexivity.
Qed.

Lemma failed_establishment_is_not_cached_witness :
  let w2 := Db.settle (snd (callers 3 coldStart)) (Throw "ECONNREFUSED") in
  Db.resume w2 (Throw "ECONNREFUSED") = (Db.Threw "ECONNREFUSED", w2)
  /\ fst (callers 2 w2) = [Db.Awaiting 1; Db.Awaiting 1]
  /\ List.length (Db.connectCalls (snd (callers 2 w2))) = 2.
Proof.
  destruct (failed_establishment_is_not_cached nat coldStart "mongodb://localhost/events"
              "ECONNREFUSED" 2 1 eq_refl eq_refl eq_refl eq_refl)
    as (H1 & _ & _ & H2 & H3).
  split; [exact H1|]. split; [exact H2|]. rewrite H3. reflexivity.
Defined.
